(** * Job lifecycle manager of the Holmes agents

    A shallow embedding of the job store that the two services share as two
    copies ([agents/holmes_awx_agent/job_manager.py] over AWX and
    orchestration jobs, [src/services/holmes_dns_agent/job_manager.py] over
    DNS record jobs), of the AWX adapter's authenticated request
    ([awx_adapter.py]), of the LangGraph workflow ([graph.py],
    [llm_orchestrator.py]) and of the two background workers of the AWX
    agent ([main.py]), followed by the properties of the specification that
    they satisfy or break. *)

From Stdlib Require Import ZArith Ascii String List Lia.
From stdpp Require Import gmap strings pretty list fin_maps.

Set Warnings "-register-all".

Local Open Scope string_scope.
Local Open Scope Z_scope.

(** ** Python values *)

(** [uuid.UUID] is its 128-bit integer, a naive UTC [datetime] is its
    position on the time line in microseconds, and a Python object is the
    address it lives at. *)
Abbreviation UUID := N (only parsing).
Abbreviation datetime := Z (only parsing).
Abbreviation loc := positive (only parsing).

(** The exceptions that the modelled code raises or lets through. *)
Inductive exn :=
| OSError
| ValueError (msg : string)
| HTTPStatusError (status_code : Z)
| ConnectError
| KeyError (key : string)
| TimeoutError
| RuntimeError (msg : string)
| IndexError
| AttributeError
| GraphRecursionError
| NameError (name : string).

(** Pydantic's answer to an assignment to a name that is not a field. *)
Definition no_field : exn := ValueError "object has no field".

(** ** State and exceptions

    A Python statement either returns or raises, and keeps in both cases
    the mutations it has made. *)
Inductive outcome (A : Type) :=
| Return (a : A)
| Raise (e : exn).
Arguments Return {A} a.
Arguments Raise {A} e.

Definition M (S A : Type) : Type := S -> outcome A * S.

Definition ret {S A} (a : A) : M S A := fun s => (Return a, s).
Definition raise {S A} (e : exn) : M S A := fun s => (Raise e, s).
Definition bind {S A B} (c : M S A) (k : A -> M S B) : M S B :=
  fun s => match c s with
           | (Return a, s') => k a s'
           | (Raise e, s') => (Raise e, s')
           end.
Definition get {S} : M S S := fun s => (Return s, s).
Definition modify {S} (f : S -> S) : M S unit := fun s => (Return tt, f s).

(** [try: c  except Exception as e: h e] *)
Definition try_except {S A} (c : M S A) (h : exn -> M S A) : M S A :=
  fun s => match c s with
           | (Return a, s') => (Return a, s')
           | (Raise e, s') => h e s'
           end.

Notation "'let*' x ':=' c 'in' k" := (bind c (fun x => k))
  (at level 10, x pattern, c at level 100, k at level 200).
Notation "c >> k" := (bind c (fun _ => k))
  (at level 100, k at level 200, right associativity).

(** [for x in xs: body x] *)
Fixpoint for_each {S A} (xs : list A) (body : A -> M S unit) : M S unit :=
  match xs with
  | [] => ret tt
  | x :: xs' => body x >> for_each xs' body
  end.

(** Python's truth value of an [Optional[str]] and of an [Optional[int]]:
    [None], the empty string and zero are false. *)
Definition truthy_str (s : option string) : bool :=
  match s with
  | Some EmptyString => false
  | Some _ => true
  | None => false
  end.

Definition truthy_int (n : option Z) : bool :=
  match n with
  | Some 0 => false
  | Some _ => true
  | None => false
  end.


(** ** Documents and files *)

(** A decoded JSON document.  A JSON string that spells a UUID or an ISO
    datetime is kept as the value it spells; numbers are the integers. *)
Inductive json :=
| JNull
| JBool (b : bool)
| JNum (n : Z)
| JStr (s : string)
| JUuid (u : UUID)
| JTime (t : datetime)
| JArr (xs : list json)
| JObj (kvs : list (string * json)).

(** [Dict[str, Any]] and [Dict[str, str]], in insertion order. *)
Abbreviation dict_any := (list (string * json)) (only parsing).
Abbreviation dict_str := (list (string * string)) (only parsing).

(** The text of a cache file, as far as [parse_raw] can tell texts apart:
    a JSON document, or something that is not JSON. *)
Inductive file_text :=
| Json (doc : json)
| NotJson (raw : string).


(** ** The job store (the two [job_manager.py])

    The two copies of [JobManager] are the same code over different job
    classes.  What the code asks of a job class: the attributes it reads and
    assigns, [setattr] for the keywords of [update_status], the statuses
    that its [update_status] tests for, the [try] block with which it loads
    a cache file, and [json()]. *)
Class JobClass (J St Kw : Type) := {
  job_id : J -> UUID;
  status : J -> St;
  completed_at : J -> option datetime;
  set_status : St -> J -> J;
  set_message : option string -> J -> J;
  set_completed_at : option datetime -> J -> J;
  kwarg_key : Kw -> string;
  setattr : Kw -> J -> outcome J;
  terminal : St -> bool;
  parse_cached : file_text -> option J;
  json_of : J -> file_text
}.

(** Assignments do what assignments do: [set_status], [set_message],
    [set_completed_at] and [setattr] change the attribute they name and,
    of [status] and [completed_at], no other; no keyword is named
    [status]. *)
Class JobLaws (J St Kw : Type) `{JobClass J St Kw} : Prop := {
  status_set_status : forall v j, status (set_status v j) = v;
  status_set_message : forall v j, status (set_message v j) = status j;
  status_set_completed_at :
    forall v j, status (set_completed_at v j) = status j;
  status_setattr :
    forall kw j j', setattr kw j = Return j' -> status j' = status j;
  completed_at_set_status :
    forall v j, completed_at (set_status v j) = completed_at j;
  completed_at_set_message :
    forall v j, completed_at (set_message v j) = completed_at j;
  completed_at_set_completed_at :
    forall v j, completed_at (set_completed_at v j) = v;
  completed_at_setattr :
    forall kw j j', setattr kw j = Return j' ->
                    kwarg_key kw <> "completed_at" ->
                    completed_at j' = completed_at j
}.

Record Settings := {
  job_retention_minutes : Z
}.

(** The process and its surroundings: the Python heap, the attributes of the
    [JobManager] singleton, the [*.json] files of its cache directory (keyed
    by the UUID that the file name spells), and what the environment decides:
    the successive readings of [datetime.utcnow()] and whether the directory
    accepts a write.  [write_calls] records every [write_text] call, and
    [env] is what else a service has around it. *)
Record World (J Env : Type) := mkWorld {
  heap : gmap loc J;
  next_loc : loc;
  _jobs : gmap UUID loc;
  _last_purge : option datetime;
  cache_dir : gmap UUID file_text;
  settings : Settings;
  clock : nat -> datetime;
  ticks : nat;
  disk_writable : bool;
  write_calls : list (UUID * file_text);
  env : Env
}.
Arguments mkWorld {J Env}.
Arguments heap {J Env} w.
Arguments next_loc {J Env} w.
Arguments _jobs {J Env} w.
Arguments _last_purge {J Env} w.
Arguments cache_dir {J Env} w.
Arguments settings {J Env} w.
Arguments clock {J Env} w.
Arguments ticks {J Env} w.
Arguments disk_writable {J Env} w.
Arguments write_calls {J Env} w.
Arguments env {J Env} w.

Definition with_heap {J Env} (f : gmap loc J -> gmap loc J) (w : World J Env)
  : World J Env :=
  mkWorld (f (heap w)) (next_loc w) (_jobs w) (_last_purge w) (cache_dir w)
          (settings w) (clock w) (ticks w) (disk_writable w) (write_calls w)
          (env w).

Definition with_next_loc {J Env} (l : loc) (w : World J Env) : World J Env :=
  mkWorld (heap w) l (_jobs w) (_last_purge w) (cache_dir w) (settings w)
          (clock w) (ticks w) (disk_writable w) (write_calls w) (env w).

Definition with_jobs {J Env} (f : gmap UUID loc -> gmap UUID loc)
  (w : World J Env) : World J Env :=
  mkWorld (heap w) (next_loc w) (f (_jobs w)) (_last_purge w) (cache_dir w)
          (settings w) (clock w) (ticks w) (disk_writable w) (write_calls w)
          (env w).

Definition with_last_purge {J Env} (t : option datetime) (w : World J Env)
  : World J Env :=
  mkWorld (heap w) (next_loc w) (_jobs w) t (cache_dir w) (settings w)
          (clock w) (ticks w) (disk_writable w) (write_calls w) (env w).

Definition with_cache_dir {J Env}
  (f : gmap UUID file_text -> gmap UUID file_text) (w : World J Env)
  : World J Env :=
  mkWorld (heap w) (next_loc w) (_jobs w) (_last_purge w) (f (cache_dir w))
          (settings w) (clock w) (ticks w) (disk_writable w) (write_calls w)
          (env w).

Definition with_ticks {J Env} (n : nat) (w : World J Env) : World J Env :=
  mkWorld (heap w) (next_loc w) (_jobs w) (_last_purge w) (cache_dir w)
          (settings w) (clock w) n (disk_writable w) (write_calls w) (env w).

Definition with_write_calls {J Env} (l : list (UUID * file_text))
  (w : World J Env) : World J Env :=
  mkWorld (heap w) (next_loc w) (_jobs w) (_last_purge w) (cache_dir w)
          (settings w) (clock w) (ticks w) (disk_writable w) l (env w).

Definition with_env {J Env} (f : Env -> Env) (w : World J Env) : World J Env :=
  mkWorld (heap w) (next_loc w) (_jobs w) (_last_purge w) (cache_dir w)
          (settings w) (clock w) (ticks w) (disk_writable w) (write_calls w)
          (f (env w)).

(** [timedelta(minutes=m)] in microseconds. *)
Definition minutes (m : Z) : Z := m * 60000000.

Section JobManager.
Context {J St Kw Env : Type} {job_class : JobClass J St Kw}.

Definition _PURGE_INTERVAL_SECONDS : Z := 60.

(** [datetime.utcnow()]: the next reading of the clock. *)
Definition utcnow : M (World J Env) datetime :=
  fun w => (Return (clock w (ticks w)), with_ticks (S (ticks w)) w).

(** A constructor call: the new object gets an address of its own. *)
Definition new_object (job : J) : M (World J Env) loc :=
  fun w => (Return (next_loc w),
            with_next_loc (Pos.succ (next_loc w))
              (with_heap (insert (next_loc w) job) w)).

(** An attribute assignment through a reference. *)
Definition assign (job : loc) (f : J -> J) : M (World J Env) unit :=
  modify (with_heap (alter f job)).

(** [setattr(job, key, value)] through a reference. *)
Definition setattr_at (job : loc) (kw : Kw) : M (World J Env) unit :=
  let* w := get in
  match heap w !! job with
  | Some j =>
      match setattr kw j with
      | Return j' => modify (with_heap (insert job j'))
      | Raise e => raise e
      end
  | None => ret tt
  end.

(** The loop [for key, value in kwargs.items(): setattr(job, key, value)] on
    one object: what it returns and the object it leaves. *)
Fixpoint setattrs (kwargs : list Kw) (job : J) : outcome unit * J :=
  match kwargs with
  | [] => (Return tt, job)
  | kw :: kwargs' =>
      match setattr kw job with
      | Return job' => setattrs kwargs' job'
      | Raise e => (Raise e, job)
      end
  end.

(** [job.completed_at and job.completed_at < cutoff]: a datetime is always
    true, so the test is on presence and age. *)
Definition older_than (cutoff : datetime) (job : J) : bool :=
  match completed_at job with
  | Some t => t <? cutoff
  | None => false
  end.

(** [cache_path.unlink(missing_ok=True)] *)
Definition unlink (name : UUID) : M (World J Env) unit :=
  modify (with_cache_dir (delete name)).

(** [cache_path.write_text(data)]: raises [OSError] when the directory does
    not take the write. *)
Definition write_text (name : UUID) (data : file_text) : M (World J Env) unit :=
  modify (fun w => with_write_calls (write_calls w ++ [(name, data)]) w) >>
  let* w := get in
  if disk_writable w
  then modify (with_cache_dir (insert name data))
  else raise OSError.

Definition _persist_job (job : loc) : M (World J Env) unit :=
  let* w := get in
  match heap w !! job with
  | Some j => write_text (job_id j) (json_of j)
  | None => ret tt
  end.

(** The two loops of [purge_old_jobs], each over a snapshot of what it
    scans: [list(self._jobs.items())] and [glob("*.json")]. *)
Definition purge_memory (cutoff : datetime) (objects : gmap loc J)
  (jobs : gmap UUID loc) : gmap UUID loc :=
  map_fold (fun job_id job jobs' =>
              match objects !! job with
              | Some j => if older_than cutoff j then delete job_id jobs'
                          else jobs'
              | None => jobs'
              end) jobs jobs.

Definition purge_disk (cutoff : datetime) (files : gmap UUID file_text)
  : gmap UUID file_text :=
  map_fold (fun cache_file job_data files' =>
              match parse_cached job_data with
              | None => delete cache_file files'
              | Some job => if older_than cutoff job
                            then delete cache_file files'
                            else files'
              end) files files.

(** What the two loops decide for an entry: a job of the map goes when its
    object is older than the cutoff, a file goes when it does not parse or
    when the job it holds is older than the cutoff. *)
Definition expired (cutoff : datetime) (objects : gmap loc J) (job : loc)
  : bool :=
  match objects !! job with
  | Some j => older_than cutoff j
  | None => false
  end.

Definition stale (cutoff : datetime) (job_data : file_text) : bool :=
  match parse_cached job_data with
  | None => true
  | Some job => older_than cutoff job
  end.

Definition purge_old_jobs : M (World J Env) unit :=
  let* now := utcnow in
  let* w := get in
  let cutoff := now - minutes (job_retention_minutes (settings w)) in
  modify (with_jobs (purge_memory cutoff (heap w))) >>
  modify (with_cache_dir (purge_disk cutoff)).

Definition _maybe_purge : M (World J Env) unit :=
  let* now := utcnow in
  let* w := get in
  match _last_purge w with
  | Some last =>
      if now - last <? _PURGE_INTERVAL_SECONDS * 1000000
      then ret tt
      else purge_old_jobs >> modify (with_last_purge (Some now))
  | None => purge_old_jobs >> modify (with_last_purge (Some now))
  end.

Definition add_job (job : loc) : M (World J Env) loc :=
  let* w := get in
  match heap w !! job with
  | Some j =>
      modify (with_jobs (insert (job_id j) job)) >>
      _maybe_purge >>
      let* w := get in
      (if bool_decide (is_Some (cache_dir w !! job_id j))
       then unlink (job_id j) else ret tt) >>
      ret job
  | None => ret job
  end.

Definition get_job (job_id' : UUID) : M (World J Env) (option loc) :=
  let* w := get in
  match _jobs w !! job_id' with
  | Some job => ret (Some job)
  | None =>
      match cache_dir w !! job_id' with
      | None => ret None
      | Some job_data =>
          match parse_cached job_data with
          | None => unlink job_id' >> ret None
          | Some j =>
              let* job := new_object j in
              modify (with_jobs (insert (job_id j) job)) >>
              _maybe_purge >>
              ret (Some job)
          end
      end
  end.

Definition update_status (job_id' : UUID) (status' : St)
  (message' : option string) (kwargs : list Kw)
  : M (World J Env) (option loc) :=
  let* w := get in
  match _jobs w !! job_id' with
  | None => ret None
  | Some job =>
      assign job (set_status status') >>
      (if truthy_str message' then assign job (set_message message')
       else ret tt) >>
      for_each kwargs (setattr_at job) >>
      (if terminal status'
       then let* now := utcnow in
            assign job (set_completed_at (Some now)) >>
            _persist_job job
       else ret tt) >>
      _maybe_purge >>
      ret (Some job)
  end.

End JobManager.

(** ** Strings

    A text is kept as the UTF-8 bytes of its code points.  [needle in
    text], [text.replace(a, b)] for single ASCII characters and
    [text.rstrip(".")] are the same on bytes and on code points, and
    [len(text)] counts the bytes that do not continue a code point.
    [str.lower()] is given for ASCII text, where it maps the 26 capitals:
    of its mapping of other letters nothing is modelled, and what is
    proved of the validators that call it asks for ASCII text. *)
Definition is_ascii (s : string) : bool :=
  forallb (fun c => (nat_of_ascii c <? 128)%nat) (list_ascii_of_string s).

(** [len(text)] *)
Definition continues_code_point (c : ascii) : bool :=
  ((128 <=? nat_of_ascii c) && (nat_of_ascii c <? 192))%nat.

Fixpoint len (s : string) : nat :=
  match s with
  | EmptyString => 0
  | String c s' => (if continues_code_point c then 0 else 1) + len s'
  end.

Definition lower_ascii (c : ascii) : ascii :=
  let n := nat_of_ascii c in
  if ((65 <=? n) && (n <=? 90))%nat then ascii_of_nat (n + 32) else c.

Fixpoint lower (s : string) : string :=
  match s with
  | EmptyString => EmptyString
  | String c s' => String (lower_ascii c) (lower s')
  end.

Fixpoint contains (needle text : string) : bool :=
  String.prefix needle text ||
  match text with
  | EmptyString => false
  | String _ text' => contains needle text'
  end.

Fixpoint replace_char (a b : ascii) (s : string) : string :=
  match s with
  | EmptyString => EmptyString
  | String c s' =>
      String (if Ascii.eqb c a then b else c) (replace_char a b s')
  end.

Fixpoint rstrip_dots (s : string) : string :=
  match s with
  | EmptyString => EmptyString
  | String c s' =>
      match rstrip_dots s' with
      | EmptyString => if Ascii.eqb c "." then EmptyString
                       else String c EmptyString
      | rest => String c rest
      end
  end.

(** ** Data model of the AWX agent ([models.py]) *)

Inductive AWXJobStatus :=
| NEW | PENDING | WAITING | RUNNING | SUCCESSFUL | AWX_FAILED | ERROR
| AWX_CANCELED.

Inductive AWXAgentJobStatus :=
| RECEIVED | VALIDATING | LAUNCHING | MONITORING | COMPLETED | FAILED
| CANCELED.

(** The two [str] enumerations: the value of a member, and the constructor
    call [Enum(value)], which raises [ValueError] ([None] here) on any other
    string. *)
Definition AWXJobStatus_value (s : AWXJobStatus) : string :=
  match s with
  | NEW => "new" | PENDING => "pending" | WAITING => "waiting"
  | RUNNING => "running" | SUCCESSFUL => "successful"
  | AWX_FAILED => "failed" | ERROR => "error" | AWX_CANCELED => "canceled"
  end.

Definition AWXJobStatus_of (value : string) : option AWXJobStatus :=
  if String.eqb value "new" then Some NEW
  else if String.eqb value "pending" then Some PENDING
  else if String.eqb value "waiting" then Some WAITING
  else if String.eqb value "running" then Some RUNNING
  else if String.eqb value "successful" then Some SUCCESSFUL
  else if String.eqb value "failed" then Some AWX_FAILED
  else if String.eqb value "error" then Some ERROR
  else if String.eqb value "canceled" then Some AWX_CANCELED
  else None.

Definition AWXAgentJobStatus_value (s : AWXAgentJobStatus) : string :=
  match s with
  | RECEIVED => "received" | VALIDATING => "validating"
  | LAUNCHING => "launching" | MONITORING => "monitoring"
  | COMPLETED => "completed" | FAILED => "failed" | CANCELED => "canceled"
  end.

Definition AWXAgentJobStatus_of (value : string) : option AWXAgentJobStatus :=
  if String.eqb value "received" then Some RECEIVED
  else if String.eqb value "validating" then Some VALIDATING
  else if String.eqb value "launching" then Some LAUNCHING
  else if String.eqb value "monitoring" then Some MONITORING
  else if String.eqb value "completed" then Some COMPLETED
  else if String.eqb value "failed" then Some FAILED
  else if String.eqb value "canceled" then Some CANCELED
  else None.

Module JobTemplateRequest.
Record t := mk {
    job_template_id : option Z;
    job_template_name : option string;
    extra_vars : dict_any;
    inventory_id : option Z;
    limit : option string;
    metadata : dict_str
  }.

Definition set_job_template_id v (j : t) : t :=
    mk v (job_template_name j) (extra_vars j) (inventory_id j) (limit j)
       (metadata j).
Definition set_job_template_name v (j : t) : t :=
    mk (job_template_id j) v (extra_vars j) (inventory_id j) (limit j)
       (metadata j).
Definition set_extra_vars v (j : t) : t :=
    mk (job_template_id j) (job_template_name j) v (inventory_id j)
       (limit j) (metadata j).
Definition set_inventory_id v (j : t) : t :=
    mk (job_template_id j) (job_template_name j) (extra_vars j) v
       (limit j) (metadata j).
Definition set_limit v (j : t) : t :=
    mk (job_template_id j) (job_template_name j) (extra_vars j)
       (inventory_id j) v (metadata j).
Definition set_metadata v (j : t) : t :=
    mk (job_template_id j) (job_template_name j) (extra_vars j)
       (inventory_id j) (limit j) v.
End JobTemplateRequest.

Module OrchestrationRequest.
Record t := mk {
    request : string;
    context : dict_any;
    metadata : dict_str
  }.
End OrchestrationRequest.

Module AWXJob.
Record t := mk {
    job_id : UUID;
    status : AWXAgentJobStatus;
    requested_at : datetime;
    completed_at : option datetime;
    request : JobTemplateRequest.t;
    message : option string;
    awx_job_id : option Z;
    awx_job_status : option AWXJobStatus;
    awx_job_output : option string;
    awx_job_facts : option dict_any;
    awx_error : option string;
    parent_job_id : option UUID;
    child_job_ids : list UUID;
    step_number : option Z;
    total_steps : option Z
  }.

(** [j.f = v], one function per attribute. *)
Definition set_job_id v (j : t) : t :=
    mk v (status j) (requested_at j) (completed_at j) (request j)
       (message j) (awx_job_id j) (awx_job_status j) (awx_job_output j)
       (awx_job_facts j) (awx_error j) (parent_job_id j)
       (child_job_ids j) (step_number j) (total_steps j).
Definition set_status v (j : t) : t :=
    mk (job_id j) v (requested_at j) (completed_at j) (request j)
       (message j) (awx_job_id j) (awx_job_status j) (awx_job_output j)
       (awx_job_facts j) (awx_error j) (parent_job_id j)
       (child_job_ids j) (step_number j) (total_steps j).
Definition set_requested_at v (j : t) : t :=
    mk (job_id j) (status j) v (completed_at j) (request j) (message j)
       (awx_job_id j) (awx_job_status j) (awx_job_output j)
       (awx_job_facts j) (awx_error j) (parent_job_id j)
       (child_job_ids j) (step_number j) (total_steps j).
Definition set_completed_at v (j : t) : t :=
    mk (job_id j) (status j) (requested_at j) v (request j) (message j)
       (awx_job_id j) (awx_job_status j) (awx_job_output j)
       (awx_job_facts j) (awx_error j) (parent_job_id j)
       (child_job_ids j) (step_number j) (total_steps j).
Definition set_request v (j : t) : t :=
    mk (job_id j) (status j) (requested_at j) (completed_at j) v
       (message j) (awx_job_id j) (awx_job_status j) (awx_job_output j)
       (awx_job_facts j) (awx_error j) (parent_job_id j)
       (child_job_ids j) (step_number j) (total_steps j).
Definition set_message v (j : t) : t :=
    mk (job_id j) (status j) (requested_at j) (completed_at j)
       (request j) v (awx_job_id j) (awx_job_status j) (awx_job_output j)
       (awx_job_facts j) (awx_error j) (parent_job_id j)
       (child_job_ids j) (step_number j) (total_steps j).
Definition set_awx_job_id v (j : t) : t :=
    mk (job_id j) (status j) (requested_at j) (completed_at j)
       (request j) (message j) v (awx_job_status j) (awx_job_output j)
       (awx_job_facts j) (awx_error j) (parent_job_id j)
       (child_job_ids j) (step_number j) (total_steps j).
Definition set_awx_job_status v (j : t) : t :=
    mk (job_id j) (status j) (requested_at j) (completed_at j)
       (request j) (message j) (awx_job_id j) v (awx_job_output j)
       (awx_job_facts j) (awx_error j) (parent_job_id j)
       (child_job_ids j) (step_number j) (total_steps j).
Definition set_awx_job_output v (j : t) : t :=
    mk (job_id j) (status j) (requested_at j) (completed_at j)
       (request j) (message j) (awx_job_id j) (awx_job_status j) v
       (awx_job_facts j) (awx_error j) (parent_job_id j)
       (child_job_ids j) (step_number j) (total_steps j).
Definition set_awx_job_facts v (j : t) : t :=
    mk (job_id j) (status j) (requested_at j) (completed_at j)
       (request j) (message j) (awx_job_id j) (awx_job_status j)
       (awx_job_output j) v (awx_error j) (parent_job_id j)
       (child_job_ids j) (step_number j) (total_steps j).
Definition set_awx_error v (j : t) : t :=
    mk (job_id j) (status j) (requested_at j) (completed_at j)
       (request j) (message j) (awx_job_id j) (awx_job_status j)
       (awx_job_output j) (awx_job_facts j) v (parent_job_id j)
       (child_job_ids j) (step_number j) (total_steps j).
Definition set_parent_job_id v (j : t) : t :=
    mk (job_id j) (status j) (requested_at j) (completed_at j)
       (request j) (message j) (awx_job_id j) (awx_job_status j)
       (awx_job_output j) (awx_job_facts j) (awx_error j) v
       (child_job_ids j) (step_number j) (total_steps j).
Definition set_child_job_ids v (j : t) : t :=
    mk (job_id j) (status j) (requested_at j) (completed_at j)
       (request j) (message j) (awx_job_id j) (awx_job_status j)
       (awx_job_output j) (awx_job_facts j) (awx_error j)
       (parent_job_id j) v (step_number j) (total_steps j).
Definition set_step_number v (j : t) : t :=
    mk (job_id j) (status j) (requested_at j) (completed_at j)
       (request j) (message j) (awx_job_id j) (awx_job_status j)
       (awx_job_output j) (awx_job_facts j) (awx_error j)
       (parent_job_id j) (child_job_ids j) v (total_steps j).
Definition set_total_steps v (j : t) : t :=
    mk (job_id j) (status j) (requested_at j) (completed_at j)
       (request j) (message j) (awx_job_id j) (awx_job_status j)
       (awx_job_output j) (awx_job_facts j) (awx_error j)
       (parent_job_id j) (child_job_ids j) (step_number j) v.
End AWXJob.

Module OrchestrationJob.
Record t := mk {
    job_id : UUID;
    status : AWXAgentJobStatus;
    requested_at : datetime;
    completed_at : option datetime;
    request : OrchestrationRequest.t;
    message : option string;
    decomposed_tasks : list dict_any;
    awx_jobs : list AWXJob.t;
    llm_response : option string;
    llm_error : option string
  }.

Definition set_job_id v (j : t) : t :=
    mk v (status j) (requested_at j) (completed_at j) (request j)
       (message j) (decomposed_tasks j) (awx_jobs j) (llm_response j)
       (llm_error j).
Definition set_status v (j : t) : t :=
    mk (job_id j) v (requested_at j) (completed_at j) (request j)
       (message j) (decomposed_tasks j) (awx_jobs j) (llm_response j)
       (llm_error j).
Definition set_requested_at v (j : t) : t :=
    mk (job_id j) (status j) v (completed_at j) (request j) (message j)
       (decomposed_tasks j) (awx_jobs j) (llm_response j) (llm_error j).
Definition set_completed_at v (j : t) : t :=
    mk (job_id j) (status j) (requested_at j) v (request j) (message j)
       (decomposed_tasks j) (awx_jobs j) (llm_response j) (llm_error j).
Definition set_request v (j : t) : t :=
    mk (job_id j) (status j) (requested_at j) (completed_at j) v
       (message j) (decomposed_tasks j) (awx_jobs j) (llm_response j)
       (llm_error j).
Definition set_message v (j : t) : t :=
    mk (job_id j) (status j) (requested_at j) (completed_at j)
       (request j) v (decomposed_tasks j) (awx_jobs j) (llm_response j)
       (llm_error j).
Definition set_decomposed_tasks v (j : t) : t :=
    mk (job_id j) (status j) (requested_at j) (completed_at j)
       (request j) (message j) v (awx_jobs j) (llm_response j)
       (llm_error j).
Definition set_awx_jobs v (j : t) : t :=
    mk (job_id j) (status j) (requested_at j) (completed_at j)
       (request j) (message j) (decomposed_tasks j) v (llm_response j)
       (llm_error j).
Definition set_llm_response v (j : t) : t :=
    mk (job_id j) (status j) (requested_at j) (completed_at j)
       (request j) (message j) (decomposed_tasks j) (awx_jobs j) v
       (llm_error j).
Definition set_llm_error v (j : t) : t :=
    mk (job_id j) (status j) (requested_at j) (completed_at j)
       (request j) (message j) (decomposed_tasks j) (awx_jobs j)
       (llm_response j) v.
End OrchestrationJob.

(** [Union[AWXJob, OrchestrationJob]]: the class of the object is its tag. *)
Inductive Job :=
| IsAWXJob (j : AWXJob.t)
| IsOrchestrationJob (o : OrchestrationJob.t).

Definition isinstance_AWXJob (job : Job) : bool :=
  match job with IsAWXJob _ => true | IsOrchestrationJob _ => false end.

Definition isinstance_OrchestrationJob (job : Job) : bool :=
  match job with IsAWXJob _ => false | IsOrchestrationJob _ => true end.

(** The request payload of either kind. *)
Inductive Request :=
| TemplateRequest (r : JobTemplateRequest.t)
| NaturalRequest (r : OrchestrationRequest.t).

(** *** Attribute assignment

    [update_status(job_id, status, message=None, **kwargs)] runs
    [setattr(job, key, value)] for every keyword.  A keyword is never
    [job_id], [status] or [message], which are parameters of their own.
    Pydantic refuses with a [ValueError] a name that is not a field of the
    object's class; the models do not validate on assignment, so a value is
    stored as it comes.  Each keyword below carries a value of the declared
    type of its field; a request of the other class has no place in the
    record and is refused like a foreign field. *)
Inductive kwarg :=
| kw_requested_at (v : datetime)
| kw_completed_at (v : option datetime)
| kw_request (v : Request)
| kw_awx_job_id (v : option Z)
| kw_awx_job_status (v : option AWXJobStatus)
| kw_awx_job_output (v : option string)
| kw_awx_job_facts (v : option dict_any)
| kw_awx_error (v : option string)
| kw_parent_job_id (v : option UUID)
| kw_child_job_ids (v : list UUID)
| kw_step_number (v : option Z)
| kw_total_steps (v : option Z)
| kw_decomposed_tasks (v : list dict_any)
| kw_awx_jobs (v : list AWXJob.t)
| kw_llm_response (v : option string)
| kw_llm_error (v : option string)
| kw_other (key : string).

(** What [JobManager] reads and assigns on a job of either class. *)
Module Job.

Definition job_id (job : Job) : UUID :=
  match job with
  | IsAWXJob j => AWXJob.job_id j
  | IsOrchestrationJob o => OrchestrationJob.job_id o
  end.

Definition status (job : Job) : AWXAgentJobStatus :=
  match job with
  | IsAWXJob j => AWXJob.status j
  | IsOrchestrationJob o => OrchestrationJob.status o
  end.

Definition requested_at (job : Job) : datetime :=
  match job with
  | IsAWXJob j => AWXJob.requested_at j
  | IsOrchestrationJob o => OrchestrationJob.requested_at o
  end.

Definition completed_at (job : Job) : option datetime :=
  match job with
  | IsAWXJob j => AWXJob.completed_at j
  | IsOrchestrationJob o => OrchestrationJob.completed_at o
  end.

Definition message (job : Job) : option string :=
  match job with
  | IsAWXJob j => AWXJob.message j
  | IsOrchestrationJob o => OrchestrationJob.message o
  end.

Definition request (job : Job) : Request :=
  match job with
  | IsAWXJob j => TemplateRequest (AWXJob.request j)
  | IsOrchestrationJob o => NaturalRequest (OrchestrationJob.request o)
  end.

(** The name of a keyword. *)
Definition kwarg_key (kw : kwarg) : string :=
  match kw with
  | kw_requested_at _ => "requested_at"
  | kw_completed_at _ => "completed_at"
  | kw_request _ => "request"
  | kw_awx_job_id _ => "awx_job_id"
  | kw_awx_job_status _ => "awx_job_status"
  | kw_awx_job_output _ => "awx_job_output"
  | kw_awx_job_facts _ => "awx_job_facts"
  | kw_awx_error _ => "awx_error"
  | kw_parent_job_id _ => "parent_job_id"
  | kw_child_job_ids _ => "child_job_ids"
  | kw_step_number _ => "step_number"
  | kw_total_steps _ => "total_steps"
  | kw_decomposed_tasks _ => "decomposed_tasks"
  | kw_awx_jobs _ => "awx_jobs"
  | kw_llm_response _ => "llm_response"
  | kw_llm_error _ => "llm_error"
  | kw_other key => key
  end.

Definition setattr_AWXJob (kw : kwarg) (j : AWXJob.t) : outcome AWXJob.t :=
  match kw with
  | kw_requested_at v => Return (AWXJob.set_requested_at v j)
  | kw_completed_at v => Return (AWXJob.set_completed_at v j)
  | kw_request (TemplateRequest r) => Return (AWXJob.set_request r j)
  | kw_awx_job_id v => Return (AWXJob.set_awx_job_id v j)
  | kw_awx_job_status v => Return (AWXJob.set_awx_job_status v j)
  | kw_awx_job_output v => Return (AWXJob.set_awx_job_output v j)
  | kw_awx_job_facts v => Return (AWXJob.set_awx_job_facts v j)
  | kw_awx_error v => Return (AWXJob.set_awx_error v j)
  | kw_parent_job_id v => Return (AWXJob.set_parent_job_id v j)
  | kw_child_job_ids v => Return (AWXJob.set_child_job_ids v j)
  | kw_step_number v => Return (AWXJob.set_step_number v j)
  | kw_total_steps v => Return (AWXJob.set_total_steps v j)
  | _ => Raise no_field
  end.

Definition setattr_OrchestrationJob (kw : kwarg) (o : OrchestrationJob.t)
  : outcome OrchestrationJob.t :=
  match kw with
  | kw_requested_at v => Return (OrchestrationJob.set_requested_at v o)
  | kw_completed_at v => Return (OrchestrationJob.set_completed_at v o)
  | kw_request (NaturalRequest r) => Return (OrchestrationJob.set_request r o)
  | kw_decomposed_tasks v => Return (OrchestrationJob.set_decomposed_tasks v o)
  | kw_awx_jobs v => Return (OrchestrationJob.set_awx_jobs v o)
  | kw_llm_response v => Return (OrchestrationJob.set_llm_response v o)
  | kw_llm_error v => Return (OrchestrationJob.set_llm_error v o)
  | _ => Raise no_field
  end.

Definition setattr (kw : kwarg) (job : Job) : outcome Job :=
  match job with
  | IsAWXJob j =>
      match setattr_AWXJob kw j with
      | Return j' => Return (IsAWXJob j')
      | Raise e => Raise e
      end
  | IsOrchestrationJob o =>
      match setattr_OrchestrationJob kw o with
      | Return o' => Return (IsOrchestrationJob o')
      | Raise e => Raise e
      end
  end.

(** [job.status = v], [job.message = v], [job.completed_at = v]. *)
Definition set_status (v : AWXAgentJobStatus) (job : Job) : Job :=
  match job with
  | IsAWXJob j => IsAWXJob (AWXJob.set_status v j)
  | IsOrchestrationJob o => IsOrchestrationJob (OrchestrationJob.set_status v o)
  end.

Definition set_message (v : option string) (job : Job) : Job :=
  match job with
  | IsAWXJob j => IsAWXJob (AWXJob.set_message v j)
  | IsOrchestrationJob o => IsOrchestrationJob (OrchestrationJob.set_message v o)
  end.

Definition set_completed_at (v : option datetime) (job : Job) : Job :=
  match job with
  | IsAWXJob j => IsAWXJob (AWXJob.set_completed_at v j)
  | IsOrchestrationJob o =>
      IsOrchestrationJob (OrchestrationJob.set_completed_at v o)
  end.

(** [status in (AWXAgentJobStatus.COMPLETED, AWXAgentJobStatus.FAILED,
    AWXAgentJobStatus.CANCELED)] *)
Definition terminal (status : AWXAgentJobStatus) : bool :=
  match status with
  | COMPLETED | FAILED | CANCELED => true
  | _ => false
  end.

End Job.

(** ** Data model of the DNS agent ([models.py]) *)

Module RecordType.
Inductive t := A | AAAA | CNAME | TXT | MX | NS | PTR | SRV.

Definition value (r : t) : string :=
  match r with
  | A => "A" | AAAA => "AAAA" | CNAME => "CNAME" | TXT => "TXT"
  | MX => "MX" | NS => "NS" | PTR => "PTR" | SRV => "SRV"
  end.

Definition of_value (v : string) : option t :=
  if String.eqb v "A" then Some A
  else if String.eqb v "AAAA" then Some AAAA
  else if String.eqb v "CNAME" then Some CNAME
  else if String.eqb v "TXT" then Some TXT
  else if String.eqb v "MX" then Some MX
  else if String.eqb v "NS" then Some NS
  else if String.eqb v "PTR" then Some PTR
  else if String.eqb v "SRV" then Some SRV
  else None.
End RecordType.

Module RecordJobStatus.
Inductive t :=
| RECEIVED | VALIDATING | APPLYING | DOCUMENTING | COMPLETED | FAILED.

Definition value (s : t) : string :=
  match s with
  | RECEIVED => "received" | VALIDATING => "validating"
  | APPLYING => "applying" | DOCUMENTING => "documenting"
  | COMPLETED => "completed" | FAILED => "failed"
  end.

Definition of_value (v : string) : option t :=
  if String.eqb v "received" then Some RECEIVED
  else if String.eqb v "validating" then Some VALIDATING
  else if String.eqb v "applying" then Some APPLYING
  else if String.eqb v "documenting" then Some DOCUMENTING
  else if String.eqb v "completed" then Some COMPLETED
  else if String.eqb v "failed" then Some FAILED
  else None.
End RecordJobStatus.

Module RecordRequest.
Record t := mk {
  zone : string;
  name : string;
  record_type : RecordType.t;
  content : string;
  ttl : Z;
  metadata : dict_str
}.
End RecordRequest.

Module RecordJob.
Record t := mk {
  job_id : UUID;
  status : RecordJobStatus.t;
  requested_at : datetime;
  completed_at : option datetime;
  request : RecordRequest.t;
  message : option string;
  powerdns_response : option dict_any;
  doc_changes : option (list string)
}.

Definition set_job_id v (j : t) : t :=
  mk v (status j) (requested_at j) (completed_at j) (request j) (message j)
     (powerdns_response j) (doc_changes j).
Definition set_status v (j : t) : t :=
  mk (job_id j) v (requested_at j) (completed_at j) (request j) (message j)
     (powerdns_response j) (doc_changes j).
Definition set_requested_at v (j : t) : t :=
  mk (job_id j) (status j) v (completed_at j) (request j) (message j)
     (powerdns_response j) (doc_changes j).
Definition set_completed_at v (j : t) : t :=
  mk (job_id j) (status j) (requested_at j) v (request j) (message j)
     (powerdns_response j) (doc_changes j).
Definition set_request v (j : t) : t :=
  mk (job_id j) (status j) (requested_at j) (completed_at j) v (message j)
     (powerdns_response j) (doc_changes j).
Definition set_message v (j : t) : t :=
  mk (job_id j) (status j) (requested_at j) (completed_at j) (request j) v
     (powerdns_response j) (doc_changes j).
Definition set_powerdns_response v (j : t) : t :=
  mk (job_id j) (status j) (requested_at j) (completed_at j) (request j)
     (message j) v (doc_changes j).
Definition set_doc_changes v (j : t) : t :=
  mk (job_id j) (status j) (requested_at j) (completed_at j) (request j)
     (message j) (powerdns_response j) v.

(** The keywords of [update_status], as for the AWX agent. *)
Inductive kwarg :=
| kw_requested_at (v : datetime)
| kw_completed_at (v : option datetime)
| kw_request (v : RecordRequest.t)
| kw_powerdns_response (v : option dict_any)
| kw_doc_changes (v : option (list string))
| kw_other (key : string).

Definition kwarg_key (kw : kwarg) : string :=
  match kw with
  | kw_requested_at _ => "requested_at"
  | kw_completed_at _ => "completed_at"
  | kw_request _ => "request"
  | kw_powerdns_response _ => "powerdns_response"
  | kw_doc_changes _ => "doc_changes"
  | kw_other key => key
  end.

Definition setattr (kw : kwarg) (j : t) : outcome t :=
  match kw with
  | kw_requested_at v => Return (set_requested_at v j)
  | kw_completed_at v => Return (set_completed_at v j)
  | kw_request v => Return (set_request v j)
  | kw_powerdns_response v => Return (set_powerdns_response v j)
  | kw_doc_changes v => Return (set_doc_changes v j)
  | kw_other _ => Raise no_field
  end.

(** [status in (RecordJobStatus.COMPLETED, RecordJobStatus.FAILED)] *)
Definition terminal (status : RecordJobStatus.t) : bool :=
  match status with
  | RecordJobStatus.COMPLETED | RecordJobStatus.FAILED => true
  | _ => false
  end.

End RecordJob.

(** ** Pydantic on the models of the two [models.py]

    [Model.parse_raw] and [model.json()] belong to pydantic.  This is what
    they do for the model classes of the two services, read off
    the field declarations: [json()] writes every field under its name;
    [parse_raw] takes each declared field from the key of that name,
    falls back on the field's default when the key is absent, fails when a
    field without default is absent or a value is not of the shape written
    for the field's type, and ignores every other key (pydantic's default
    [extra = ignore]).  Two things that pydantic does are left out, and
    the documents they concern are refused here: coercions from other
    shapes (a number read as a datetime, digits read as an int), and the
    [default_factory] of [job_id] and [requested_at], which draws a fresh
    id and reads the clock for a document without that member; both
    members are read as fields without default.  Every document that
    [json()] writes has all its members in the shapes of their fields. *)
Module PydanticModel.

(** [obj.get(key)] on a decoded object; the last occurrence of a key wins. *)
Definition lookup_key (key : string) (kvs : list (string * json))
  : option json :=
  fold_left (fun found kv => if String.eqb (fst kv) key then Some (snd kv)
                             else found) kvs None.

Definition p_int (v : json) : option Z :=
  match v with JNum n => Some n | _ => None end.
Definition p_str (v : json) : option string :=
  match v with JStr s => Some s | _ => None end.
Definition p_uuid (v : json) : option UUID :=
  match v with JUuid u => Some u | _ => None end.
Definition p_datetime (v : json) : option datetime :=
  match v with JTime t => Some t | _ => None end.
Definition p_dict_any (v : json) : option dict_any :=
  match v with JObj kvs => Some kvs | _ => None end.

(** [Optional[T]] *)
Definition p_optional {A} (p : json -> option A) (v : json)
  : option (option A) :=
  match v with
  | JNull => Some None
  | _ => match p v with Some a => Some (Some a) | None => None end
  end.

Fixpoint p_all {A B} (p : A -> option B) (xs : list A) : option (list B) :=
  match xs with
  | [] => Some []
  | x :: xs' =>
      match p x, p_all p xs' with
      | Some y, Some ys => Some (y :: ys)
      | _, _ => None
      end
  end.

(** [List[T]] *)
Definition p_list {A} (p : json -> option A) (v : json) : option (list A) :=
  match v with JArr xs => p_all p xs | _ => None end.

(** [Dict[str, str]] *)
Definition p_dict_str (v : json) : option dict_str :=
  match v with
  | JObj kvs =>
      p_all (fun kv => match p_str (snd kv) with
                       | Some s => Some (fst kv, s)
                       | None => None
                       end) kvs
  | _ => None
  end.

(** A field with a default, and a field without. *)
Definition with_default {A} (p : json -> option A) (default : A)
  (key : string) (kvs : list (string * json)) : option A :=
  match lookup_key key kvs with
  | Some v => p v
  | None => Some default
  end.

Definition required {A} (p : json -> option A)
  (key : string) (kvs : list (string * json)) : option A :=
  match lookup_key key kvs with
  | Some v => p v
  | None => None
  end.

Definition j_optional {A} (f : A -> json) (v : option A) : json :=
  match v with Some a => f a | None => JNull end.
Definition j_dict_str (d : dict_str) : json :=
  JObj (map (fun kv => (fst kv, JStr (snd kv))) d).

Definition p_AWXJobStatus (v : json) : option AWXJobStatus :=
  match v with JStr s => AWXJobStatus_of s | _ => None end.
Definition p_AWXAgentJobStatus (v : json) : option AWXAgentJobStatus :=
  match v with JStr s => AWXAgentJobStatus_of s | _ => None end.

(** [JobTemplateRequest]: every field has a default. *)
Definition JobTemplateRequest_dump (r : JobTemplateRequest.t) : json :=
  JObj [("job_template_id", j_optional JNum (JobTemplateRequest.job_template_id r));
        ("job_template_name", j_optional JStr (JobTemplateRequest.job_template_name r));
        ("extra_vars", JObj (JobTemplateRequest.extra_vars r));
        ("inventory_id", j_optional JNum (JobTemplateRequest.inventory_id r));
        ("limit", j_optional JStr (JobTemplateRequest.limit r));
        ("metadata", j_dict_str (JobTemplateRequest.metadata r))].

Definition JobTemplateRequest_validate (v : json)
  : option JobTemplateRequest.t :=
  match v with
  | JObj kvs =>
      match with_default (p_optional p_int) None "job_template_id" kvs,
            with_default (p_optional p_str) None "job_template_name" kvs,
            with_default p_dict_any [] "extra_vars" kvs,
            with_default (p_optional p_int) None "inventory_id" kvs,
            with_default (p_optional p_str) None "limit" kvs,
            with_default p_dict_str [] "metadata" kvs with
      | Some a, Some b, Some c, Some d, Some e, Some f =>
          Some (JobTemplateRequest.mk a b c d e f)
      | _, _, _, _, _, _ => None
      end
  | _ => None
  end.

(** [OrchestrationRequest]: [request] is required, at least 10 characters. *)
Definition OrchestrationRequest_dump (r : OrchestrationRequest.t) : json :=
  JObj [("request", JStr (OrchestrationRequest.request r));
        ("context", JObj (OrchestrationRequest.context r));
        ("metadata", j_dict_str (OrchestrationRequest.metadata r))].

Definition p_request_text (v : json) : option string :=
  match p_str v with
  | Some s => if (10 <=? len s)%nat then Some s else None
  | None => None
  end.

Definition OrchestrationRequest_validate (v : json)
  : option OrchestrationRequest.t :=
  match v with
  | JObj kvs =>
      match required p_request_text "request" kvs,
            with_default p_dict_any [] "context" kvs,
            with_default p_dict_str [] "metadata" kvs with
      | Some a, Some b, Some c => Some (OrchestrationRequest.mk a b c)
      | _, _, _ => None
      end
  | _ => None
  end.

(** [AWXJob]: [request] has no default.  [job_id] and [requested_at] have
    default factories ([uuid4], [utcnow]); a document without them is not
    one that [json()] writes and is read here as invalid. *)
Definition AWXJob_dump (j : AWXJob.t) : json :=
  JObj [("job_id", JUuid (AWXJob.job_id j));
        ("status", JStr (AWXAgentJobStatus_value (AWXJob.status j)));
        ("requested_at", JTime (AWXJob.requested_at j));
        ("completed_at", j_optional JTime (AWXJob.completed_at j));
        ("request", JobTemplateRequest_dump (AWXJob.request j));
        ("message", j_optional JStr (AWXJob.message j));
        ("awx_job_id", j_optional JNum (AWXJob.awx_job_id j));
        ("awx_job_status",
         j_optional (fun s => JStr (AWXJobStatus_value s)) (AWXJob.awx_job_status j));
        ("awx_job_output", j_optional JStr (AWXJob.awx_job_output j));
        ("awx_job_facts", j_optional JObj (AWXJob.awx_job_facts j));
        ("awx_error", j_optional JStr (AWXJob.awx_error j));
        ("parent_job_id", j_optional JUuid (AWXJob.parent_job_id j));
        ("child_job_ids", JArr (map JUuid (AWXJob.child_job_ids j)));
        ("step_number", j_optional JNum (AWXJob.step_number j));
        ("total_steps", j_optional JNum (AWXJob.total_steps j))].

Definition AWXJob_validate (v : json) : option AWXJob.t :=
  match v with
  | JObj kvs =>
      match required p_uuid "job_id" kvs,
            with_default p_AWXAgentJobStatus RECEIVED "status" kvs,
            required p_datetime "requested_at" kvs,
            with_default (p_optional p_datetime) None "completed_at" kvs,
            required JobTemplateRequest_validate "request" kvs,
            with_default (p_optional p_str) None "message" kvs,
            with_default (p_optional p_int) None "awx_job_id" kvs,
            with_default (p_optional p_AWXJobStatus) None "awx_job_status" kvs
      with
      | Some a, Some b, Some c, Some d, Some e, Some f, Some g, Some h =>
          match with_default (p_optional p_str) None "awx_job_output" kvs,
                with_default (p_optional p_dict_any) None "awx_job_facts" kvs,
                with_default (p_optional p_str) None "awx_error" kvs,
                with_default (p_optional p_uuid) None "parent_job_id" kvs,
                with_default (p_list p_uuid) [] "child_job_ids" kvs,
                with_default (p_optional p_int) None "step_number" kvs,
                with_default (p_optional p_int) None "total_steps" kvs
          with
          | Some i, Some k, Some l, Some m, Some n, Some o, Some p =>
              Some (AWXJob.mk a b c d e f g h i k l m n o p)
          | _, _, _, _, _, _, _ => None
          end
      | _, _, _, _, _, _, _, _ => None
      end
  | _ => None
  end.

(** [OrchestrationJob]: [request] has no default. *)
Definition OrchestrationJob_dump (o : OrchestrationJob.t) : json :=
  JObj [("job_id", JUuid (OrchestrationJob.job_id o));
        ("status", JStr (AWXAgentJobStatus_value (OrchestrationJob.status o)));
        ("requested_at", JTime (OrchestrationJob.requested_at o));
        ("completed_at", j_optional JTime (OrchestrationJob.completed_at o));
        ("request", OrchestrationRequest_dump (OrchestrationJob.request o));
        ("message", j_optional JStr (OrchestrationJob.message o));
        ("decomposed_tasks", JArr (map JObj (OrchestrationJob.decomposed_tasks o)));
        ("awx_jobs", JArr (map AWXJob_dump (OrchestrationJob.awx_jobs o)));
        ("llm_response", j_optional JStr (OrchestrationJob.llm_response o));
        ("llm_error", j_optional JStr (OrchestrationJob.llm_error o))].

Definition OrchestrationJob_validate (v : json) : option OrchestrationJob.t :=
  match v with
  | JObj kvs =>
      match required p_uuid "job_id" kvs,
            with_default p_AWXAgentJobStatus RECEIVED "status" kvs,
            required p_datetime "requested_at" kvs,
            with_default (p_optional p_datetime) None "completed_at" kvs,
            required OrchestrationRequest_validate "request" kvs,
            with_default (p_optional p_str) None "message" kvs,
            with_default (p_list p_dict_any) [] "decomposed_tasks" kvs,
            with_default (p_list AWXJob_validate) [] "awx_jobs" kvs,
            with_default (p_optional p_str) None "llm_response" kvs,
            with_default (p_optional p_str) None "llm_error" kvs
      with
      | Some a, Some b, Some c, Some d, Some e, Some f, Some g, Some h,
        Some i, Some k =>
          Some (OrchestrationJob.mk a b c d e f g h i k)
      | _, _, _, _, _, _, _, _, _, _ => None
      end
  | _ => None
  end.

(** [RecordRequest]: [zone], [name] and [content] have no default; the
    validator of [zone] and [name] wants a dot in the value and strips
    trailing dots and lowers it; [ttl] is between 1 and 86400. *)
Definition RecordRequest_dump (r : RecordRequest.t) : json :=
  JObj [("zone", JStr (RecordRequest.zone r));
        ("name", JStr (RecordRequest.name r));
        ("record_type", JStr (RecordType.value (RecordRequest.record_type r)));
        ("content", JStr (RecordRequest.content r));
        ("ttl", JNum (RecordRequest.ttl r));
        ("metadata", j_dict_str (RecordRequest.metadata r))].

Definition lower_case_fqdn (v : json) : option string :=
  match p_str v with
  | Some value =>
      if contains "." value then Some (lower (rstrip_dots value)) else None
  | None => None
  end.

Definition p_RecordType (v : json) : option RecordType.t :=
  match v with JStr s => RecordType.of_value s | _ => None end.

Definition p_ttl (v : json) : option Z :=
  match p_int v with
  | Some n => if (1 <=? n) && (n <=? 86400) then Some n else None
  | None => None
  end.

Definition RecordRequest_validate (v : json) : option RecordRequest.t :=
  match v with
  | JObj kvs =>
      match required lower_case_fqdn "zone" kvs,
            required lower_case_fqdn "name" kvs,
            with_default p_RecordType RecordType.A "record_type" kvs,
            required p_str "content" kvs,
            with_default p_ttl 60 "ttl" kvs,
            with_default p_dict_str [] "metadata" kvs with
      | Some a, Some b, Some c, Some d, Some e, Some f =>
          Some (RecordRequest.mk a b c d e f)
      | _, _, _, _, _, _ => None
      end
  | _ => None
  end.

(** A member of a document that, when it is a text, is ASCII text, and
    the presence of a member. *)
Definition ascii_member (key : string) (v : json) : bool :=
  match v with
  | JObj kvs =>
      match lookup_key key kvs with
      | Some (JStr s) => is_ascii s
      | _ => true
      end
  | _ => true
  end.

(** A member of a document that, when the document has it, is a JSON
    integer, so that pydantic has nothing to coerce to [int]. *)
Definition int_member (key : string) (v : json) : bool :=
  match v with
  | JObj kvs =>
      match lookup_key key kvs with
      | Some (JNum _) | None => true
      | Some _ => false
      end
  | _ => true
  end.

Definition has_member (key : string) (v : json) : bool :=
  match v with
  | JObj kvs => match lookup_key key kvs with Some _ => true | None => false end
  | _ => false
  end.

(** [RecordJob]: [request] has no default; [job_id] and [requested_at] as
    for [AWXJob]. *)
Definition RecordJob_dump (j : RecordJob.t) : json :=
  JObj [("job_id", JUuid (RecordJob.job_id j));
        ("status", JStr (RecordJobStatus.value (RecordJob.status j)));
        ("requested_at", JTime (RecordJob.requested_at j));
        ("completed_at", j_optional JTime (RecordJob.completed_at j));
        ("request", RecordRequest_dump (RecordJob.request j));
        ("message", j_optional JStr (RecordJob.message j));
        ("powerdns_response", j_optional JObj (RecordJob.powerdns_response j));
        ("doc_changes",
         j_optional (fun l => JArr (map JStr l)) (RecordJob.doc_changes j))].

Definition p_RecordJobStatus (v : json) : option RecordJobStatus.t :=
  match v with JStr s => RecordJobStatus.of_value s | _ => None end.

Definition RecordJob_validate (v : json) : option RecordJob.t :=
  match v with
  | JObj kvs =>
      match required p_uuid "job_id" kvs,
            with_default p_RecordJobStatus RecordJobStatus.RECEIVED "status" kvs,
            required p_datetime "requested_at" kvs,
            with_default (p_optional p_datetime) None "completed_at" kvs,
            required RecordRequest_validate "request" kvs,
            with_default (p_optional p_str) None "message" kvs,
            with_default (p_optional p_dict_any) None "powerdns_response" kvs,
            with_default (p_optional (p_list p_str)) None "doc_changes" kvs
      with
      | Some a, Some b, Some c, Some d, Some e, Some f, Some g, Some h =>
          Some (RecordJob.mk a b c d e f g h)
      | _, _, _, _, _, _, _, _ => None
      end
  | _ => None
  end.

(** [Model.parse_raw(text)], [None] where pydantic raises, and
    [model.json()]. *)
Definition parse_raw {A} (validate : json -> option A) (text : file_text)
  : option A :=
  match text with
  | Json doc => validate doc
  | NotJson _ => None
  end.

Definition AWXJob_parse_raw := parse_raw AWXJob_validate.
Definition OrchestrationJob_parse_raw := parse_raw OrchestrationJob_validate.
Definition RecordJob_parse_raw := parse_raw RecordJob_validate.
Definition AWXJob_json (j : AWXJob.t) : file_text := Json (AWXJob_dump j).
Definition OrchestrationJob_json (o : OrchestrationJob.t) : file_text :=
  Json (OrchestrationJob_dump o).
Definition RecordJob_json (j : RecordJob.t) : file_text :=
  Json (RecordJob_dump j).

End PydanticModel.

(** ** The two stores

    The store of the AWX agent holds jobs of two classes.  Its [try] block
    for a cache file: [AWXJob.parse_raw] first, and
    [OrchestrationJob.parse_raw] when that raises; [None] when both raise. *)
Definition Job_parse_cached (job_data : file_text) : option Job :=
  match PydanticModel.AWXJob_parse_raw job_data with
  | Some job => Some (IsAWXJob job)
  | None =>
      match PydanticModel.OrchestrationJob_parse_raw job_data with
      | Some job => Some (IsOrchestrationJob job)
      | None => None
      end
  end.

Definition Job_json (job : Job) : file_text :=
  match job with
  | IsAWXJob j => PydanticModel.AWXJob_json j
  | IsOrchestrationJob o => PydanticModel.OrchestrationJob_json o
  end.

#[global] Instance awx_agent_jobs : JobClass Job AWXAgentJobStatus kwarg := {|
  job_id := Job.job_id;
  status := Job.status;
  completed_at := Job.completed_at;
  set_status := Job.set_status;
  set_message := Job.set_message;
  set_completed_at := Job.set_completed_at;
  kwarg_key := Job.kwarg_key;
  setattr := Job.setattr;
  terminal := Job.terminal;
  parse_cached := Job_parse_cached;
  json_of := Job_json
|}.

(** The store of the DNS agent holds record jobs; its [try] block is one
    [RecordJob.parse_raw]. *)
#[global] Instance dns_agent_jobs
  : JobClass RecordJob.t RecordJobStatus.t RecordJob.kwarg := {|
  job_id := RecordJob.job_id;
  status := RecordJob.status;
  completed_at := RecordJob.completed_at;
  set_status := RecordJob.set_status;
  set_message := RecordJob.set_message;
  set_completed_at := RecordJob.set_completed_at;
  kwarg_key := RecordJob.kwarg_key;
  setattr := RecordJob.setattr;
  terminal := RecordJob.terminal;
  parse_cached := PydanticModel.RecordJob_parse_raw;
  json_of := PydanticModel.RecordJob_json
|}.

(** ** The authenticated request of the AWX adapter ([awx_adapter.py]) *)
Module AWXAdapter.

(** What goes out through the [httpx] client: the token request of
    [_get_token], with the user's basic credentials, or an API request
    carrying [Authorization: Bearer <token>], where [<token>] is whatever
    [_get_token] returned. *)
Inductive sent :=
| TokenPost (username password : string)
| Call (method url : string) (bearer : option string) (payload : json).

Definition is_call (s : sent) : bool :=
  match s with Call _ _ _ _ => true | TokenPost _ _ => false end.

(** The number of API requests among the requests sent. *)
Definition count_calls (l : list sent) : nat := length (List.filter is_call l).

(** A response: its status code, the [token] member of its JSON body when
    there is one, and its body. *)
Record Response := {
  status_code : Z;
  token : option string;
  body : json
}.

(** The adapter object and the network: the server answers (or the
    transport raises) from the number of requests made before and the
    request; [time_time] gives the successive readings of [time.time()],
    in microseconds. *)
Record State := mkState {
  username : string;
  password : string;
  _token : option string;
  _token_expires : option Z;
  server : nat -> sent -> outcome Response;
  requests : list sent;
  time_time : nat -> Z;
  time_reads : nat
}.

Definition with_token (t : option string) (e : option Z) (a : State) : State :=
  mkState (username a) (password a) t e (server a) (requests a)
          (time_time a) (time_reads a).

Definition with_requests (l : list sent) (a : State) : State :=
  mkState (username a) (password a) (_token a) (_token_expires a) (server a) l
          (time_time a) (time_reads a).

Definition with_time_reads (n : nat) (a : State) : State :=
  mkState (username a) (password a) (_token a) (_token_expires a) (server a)
          (requests a) (time_time a) n.

Definition now : M State Z :=
  fun a => (Return (time_time a (time_reads a)),
            with_time_reads (S (time_reads a)) a).

(** [client.post(...)] and [client.request(...)] *)
Definition send (s : sent) : M State Response :=
  fun a => (server a (length (requests a)) s,
            with_requests (requests a ++ [s]) a).

(** [response.raise_for_status()]: anything but a 2xx raises. *)
Definition raise_for_status (response : Response) : M State unit :=
  if (200 <=? status_code response) && (status_code response <=? 299)
  then ret tt
  else raise (HTTPStatusError (status_code response)).

(** [self._token is None or
     (self._token_expires and now >= self._token_expires - 60)] *)
Definition must_refresh (a : State) (t : Z) : bool :=
  match _token a with
  | None => true
  | Some _ =>
      match _token_expires a with
      | Some e => truthy_int (Some e) && (e - 60 * 1000000 <=? t)
      | None => false
      end
  end.

Definition _get_token : M State (option string) :=
  let* t := now in
  let* a := get in
  (if must_refresh a t
   then
     let* response := send (TokenPost (username a) (password a)) in
     raise_for_status response >>
     match token response with
     | Some tok => modify (with_token (Some tok) (Some (t + 3600 * 1000000)))
     | None => raise (KeyError "token")
     end
   else ret tt) >>
  let* a := get in
  ret (_token a).

Definition _request (method path : string) (payload : json)
  : M State Response :=
  let* tok := _get_token in
  let* response := send (Call method path tok payload) in
  let* response :=
    if status_code response =? 401
    then
      modify (with_token None None) >>
      let* tok := _get_token in
      send (Call method path tok payload)
    else ret response in
  raise_for_status response >>
  ret response.

End AWXAdapter.

(** ** The surroundings of the AWX agent *)

(** The AWX server as the workers and the workflow meet it: the public
    methods of [awx_adapter], each answering from the number of adapter
    calls made before it and its arguments.  Of the JSON answer of a launch
    or a status poll only the members that the callers read are kept, in
    the shapes that the AWX API gives them: the id of a job is an integer
    or absent, its status and its output are texts.  An answer in which a
    member has another shape is not among the answers of this server. *)
Record JobTemplateInfo := {
  template_id : Z;
  template_name : string
}.

Record AWXJobData := {
  data_id : option Z;
  data_status : option string;
  data_job_explanation : option string
}.

Record AWX := {
  search_job_template : nat -> string -> outcome (option JobTemplateInfo);
  get_job_template : nat -> Z -> outcome (option JobTemplateInfo);
  launch_job_template :
    nat -> Z -> dict_any -> option Z -> option string -> outcome AWXJobData;
  wait_for_job : nat -> Z -> outcome AWXJobData;
  get_job_output : nat -> Z -> outcome string
}.

(** What the AWX agent has around its store: the successive values of
    [uuid4()], the AWX server with the number of calls made to it, and the
    orchestrator singleton of [llm_orchestrator.py]: whether [_orchestrator]
    is set, and what [LLMOrchestrator()] does, returning or raising, from
    the number of times it was called before. *)
Record AWXEnv := mkAWXEnv {
  uuid4 : nat -> UUID;
  uuids_drawn : nat;
  awx_adapter : AWX;
  awx_calls : nat;
  _orchestrator : bool;
  LLMOrchestrator : nat -> outcome unit;
  orchestrators_made : nat
}.

Abbreviation AWXWorld := (World Job AWXEnv).

(** [uuid4()]: the next value of the generator. *)
Definition draw_uuid4 : M AWXWorld UUID :=
  fun w => (Return (uuid4 (env w) (uuids_drawn (env w))),
            with_env (fun e => mkAWXEnv (uuid4 e) (S (uuids_drawn e))
                                        (awx_adapter e) (awx_calls e)
                                        (_orchestrator e) (LLMOrchestrator e)
                                        (orchestrators_made e)) w).

(** A call of a method of [awx_adapter]. *)
Definition call_awx {A} (method : AWX -> nat -> outcome A) : M AWXWorld A :=
  fun w => (method (awx_adapter (env w)) (awx_calls (env w)),
            with_env (fun e => mkAWXEnv (uuid4 e) (uuids_drawn e)
                                        (awx_adapter e) (S (awx_calls e))
                                        (_orchestrator e) (LLMOrchestrator e)
                                        (orchestrators_made e)) w).

(** [get_orchestrator()]: the singleton, made at the first call that finds
    none; [LLMOrchestrator()] raises what [get_llm] and the libraries
    raise, and leaves [_orchestrator] unset then. *)
Definition get_orchestrator : M AWXWorld unit :=
  fun w =>
    if _orchestrator (env w) then (Return tt, w)
    else
      let made := LLMOrchestrator (env w) (orchestrators_made (env w)) in
      (made,
       with_env (fun e => mkAWXEnv (uuid4 e) (uuids_drawn e)
                            (awx_adapter e) (awx_calls e)
                            (match made with
                             | Return _ => true
                             | Raise _ => false
                             end)
                            (LLMOrchestrator e) (S (orchestrators_made e))) w).

(** ** The workflow ([graph.py]) *)

(** [d[key] = value] and [d.get(key)] on a dict in insertion order. *)
Fixpoint dict_set (key : string) (value : json) (d : dict_any) : dict_any :=
  match d with
  | [] => [(key, value)]
  | (k, v) :: d' =>
      if String.eqb k key then (k, value) :: d'
      else (k, v) :: dict_set key value d'
  end.

Fixpoint dict_get (key : string) (d : dict_any) : option json :=
  match d with
  | [] => None
  | (k, v) :: d' => if String.eqb k key then Some v else dict_get key d'
  end.

(** [str(e)] *)
Definition str_exn (e : exn) : string :=
  match e with
  | OSError => "OSError"
  | ValueError msg => msg
  | HTTPStatusError _ => "HTTPStatusError"
  | ConnectError => "ConnectError"
  | KeyError key => key
  | TimeoutError => "TimeoutError"
  | RuntimeError msg => msg
  | IndexError => "list index out of range"
  | AttributeError => "object has no attribute"
  | GraphRecursionError => "GraphRecursionError"
  | NameError name => "name '" ++ name ++ "' is not defined"
  end.

(** [GraphState], without the unused [messages]. *)
Record GraphState := mkGraphState {
  user_request : string;
  decomposed_tasks : list dict_any;
  current_task_index : nat;
  awx_job_ids : list Z;
  completed_tasks : list dict_any;
  error : option string;
  context : dict_any
}.

Definition with_tasks (ts : list dict_any) (s : GraphState) : GraphState :=
  mkGraphState (user_request s) ts (current_task_index s) (awx_job_ids s)
               (completed_tasks s) (error s) (context s).

Definition with_index (i : nat) (s : GraphState) : GraphState :=
  mkGraphState (user_request s) (decomposed_tasks s) i (awx_job_ids s)
               (completed_tasks s) (error s) (context s).

Definition with_job_ids (ids : list Z) (s : GraphState) : GraphState :=
  mkGraphState (user_request s) (decomposed_tasks s) (current_task_index s) ids
               (completed_tasks s) (error s) (context s).

Definition with_completed (ts : list dict_any) (s : GraphState) : GraphState :=
  mkGraphState (user_request s) (decomposed_tasks s) (current_task_index s)
               (awx_job_ids s) ts (error s) (context s).

Definition with_error (e : option string) (s : GraphState) : GraphState :=
  mkGraphState (user_request s) (decomposed_tasks s) (current_task_index s)
               (awx_job_ids s) (completed_tasks s) e (context s).

(** [task[key] = value] for the task at [current_task_index]. *)
Definition set_in_task (i : nat) (key : string) (value : json)
  (s : GraphState) : GraphState :=
  with_tasks (alter (dict_set key value) i (decomposed_tasks s)) s.

Definition task (action description : string) : dict_any :=
  [("action", JStr action); ("description", JStr description)].

Definition analyze_request (state : GraphState) : GraphState :=
  let request := lower (user_request state) in
  let tasks :=
    if contains "deploy" request && contains "kubernetes" request then
      [task "provision-k8s-cluster" "Provision Kubernetes cluster";
       task "configure-k8s" "Configure Kubernetes"]
    else if contains "install" request then
      let package :=
        if contains "nginx" request then "nginx"
        else if contains "docker" request then "docker"
        else "nginx" in
      [task ("install-" ++ package) ("Install " ++ package)]
    else
      [task "execute-request" (user_request state)] in
  with_completed [] (with_job_ids [] (with_index 0 (with_tasks tasks state))).

Definition task_action (t : dict_any) : string :=
  match dict_get "action" t with
  | Some (JStr a) => a
  | _ => ""
  end.

Definition launch_subtask (state : GraphState) : M AWXWorld GraphState :=
  match decomposed_tasks state !! current_task_index state with
  | None => ret state
  | Some t =>
      let i := current_task_index state in
      try_except
        (let template_name := "test-" ++ replace_char "_" "-" (task_action t) in
         let* template :=
           call_awx (fun awx n => search_job_template awx n template_name) in
         let* template :=
           match template with
           | Some tpl => ret tpl
           | None =>
               let* fallback :=
                 call_awx (fun awx n =>
                             search_job_template awx n "test-hello-world") in
               match fallback with
               | Some tpl => ret tpl
               | None =>
                   raise (ValueError ("Could not find job template for: "
                                      ++ task_action t))
               end
           end in
         let* job_data :=
           call_awx (fun awx n =>
                       launch_job_template awx n (template_id template)
                         (context state) None None) in
         if truthy_int (data_id job_data)
         then
           match data_id job_data with
           | Some awx_job_id =>
               ret (set_in_task i "status" (JStr "launched")
                      (set_in_task i "awx_job_id" (JNum awx_job_id)
                         (with_job_ids (awx_job_ids state ++ [awx_job_id])
                                       state)))
           | None => ret state
           end
         else raise (ValueError "AWX did not return a job ID"))
        (fun e =>
           ret (with_error
                  (Some ("Failed to launch task " ++ task_action t ++ ": "
                         ++ str_exn e))
                  (set_in_task i "error" (JStr (str_exn e))
                     (set_in_task i "status" (JStr "failed") state))))
  end.

Definition wait_for_completion (state : GraphState) : M AWXWorld GraphState :=
  match last (awx_job_ids state) with
  | None => ret state
  | Some current_job_id =>
      try_except
        (let* job_data :=
           call_awx (fun awx n => wait_for_job awx n current_job_id) in
         let status :=
           match data_status job_data with Some s => s | None => "unknown" end in
         let i := current_task_index state in
         match decomposed_tasks state !! i with
         | None => raise IndexError
         | Some _ =>
             let state :=
               set_in_task i "completed" (JBool true)
                 (set_in_task i "awx_status" (JStr status) state) in
             if String.eqb status "successful"
             then ret (with_index (S i) state)
             else ret (with_error
                         (Some ("Job " ++ pretty current_job_id
                                ++ " failed with status: " ++ status)) state)
         end)
        (fun e =>
           ret (with_error
                  (Some ("Error waiting for job " ++ pretty current_job_id
                         ++ ": " ++ str_exn e)) state))
  end.

Definition handle_callback (state : GraphState) : GraphState := state.

Inductive next_node := to_launch_subtask | to_finalize.

Definition check_next_task (state : GraphState) : next_node :=
  if truthy_str (error state) then to_finalize
  else if (current_task_index state <? length (decomposed_tasks state))%nat
       then to_launch_subtask
       else to_finalize.

Definition finalize (state : GraphState) : GraphState :=
  let tasks :=
    map (fun t => match dict_get "status" t with
                  | Some (JStr "failed") => t
                  | _ => dict_set "status" (JStr "completed") t
                  end) (decomposed_tasks state) in
  with_completed (completed_tasks state ++ tasks) (with_tasks tasks state).

(** The compiled graph: [analyze_request], then [launch_subtask],
    [wait_for_completion], [handle_callback] in a loop that
    [check_next_task] leaves for [finalize].  LangGraph ends a run that
    takes more steps than its recursion limit with [GraphRecursionError];
    [passes] is the number of turns of the loop that the limit leaves. *)
Fixpoint workflow_loop (passes : nat) (state : GraphState)
  : M AWXWorld GraphState :=
  match passes with
  | O => raise GraphRecursionError
  | S passes' =>
      let* state := launch_subtask state in
      let* state := wait_for_completion state in
      let state := handle_callback state in
      match check_next_task state with
      | to_launch_subtask => workflow_loop passes' state
      | to_finalize => ret (finalize state)
      end
  end.

(** LangGraph's default recursion limit is 25 steps, and [invoke] is called
    without another: [analyze_request], three nodes a turn and [finalize]
    fit for seven turns. *)
Definition recursion_limit_passes : nat := 7.

Definition workflow_invoke (initial_state : GraphState)
  : M AWXWorld GraphState :=
  workflow_loop recursion_limit_passes (analyze_request initial_state).

(** ** The orchestrator ([llm_orchestrator.py]) *)

(** The dict that [orchestrate] returns. *)
Record Orchestration := {
  response : option string;
  steps : list dict_any;
  awx_jobs : list Z;
  orchestration_error : option string
}.

Definition task_line (t : dict_any) : string :=
  let label :=
    match dict_get "description" t with
    | Some (JStr d) => d
    | _ => task_action t
    end in
  let status :=
    match dict_get "status" t with Some (JStr s) => s | _ => "unknown" end in
  "  - " ++ label ++ ": " ++ status.

Definition newline : string := String (ascii_of_nat 10) EmptyString.

Definition _orchestrate_with_graph (request : string) (context' : dict_any)
  : M AWXWorld Orchestration :=
  let initial_state := mkGraphState request [] 0 [] [] None context' in
  let* final_state := workflow_invoke initial_state in
  let response_parts :=
    ("Orchestrated request: " ++ request) ::
    (if truthy_str (error final_state)
     then ["Error: " ++ default "" (error final_state)]
     else ("Completed " ++ pretty (length (completed_tasks final_state))
           ++ " task(s)") :: map task_line (completed_tasks final_state)) in
  ret {| response := Some (String.concat newline response_parts);
         steps := decomposed_tasks final_state;
         awx_jobs := awx_job_ids final_state;
         orchestration_error := error final_state |}.

Definition orchestrate (request : string) (context' : dict_any)
  : M AWXWorld Orchestration :=
  try_except (_orchestrate_with_graph request context')
    (fun e =>
       ret {| response := Some ("Error during orchestration: " ++ str_exn e);
              steps := [];
              awx_jobs := [];
              orchestration_error := Some (str_exn e) |}).

(** ** The background workers ([main.py])

    A worker holds a reference to the job object that [get_job] returned
    and reads and writes its attributes through it, next to the calls of
    [update_status].  The worker runs here from start to end without
    another task in between. *)
(** Attribute reads through a reference; an attribute of the other class
    is an [AttributeError]. *)
Definition read_AWXJob (job : loc) : M AWXWorld AWXJob.t :=
  let* w := get in
  match heap w !! job with
  | Some (IsAWXJob j) => ret j
  | _ => raise AttributeError
  end.

Definition read_OrchestrationJob (job : loc) : M AWXWorld OrchestrationJob.t :=
  let* w := get in
  match heap w !! job with
  | Some (IsOrchestrationJob o) => ret o
  | _ => raise AttributeError
  end.

(** [job.request.job_template_id = template_id] *)
Definition set_request_template_id (v : option Z) (job : Job) : Job :=
  match job with
  | IsAWXJob j =>
      IsAWXJob (AWXJob.set_request
                  (JobTemplateRequest.set_job_template_id v (AWXJob.request j)) j)
  | IsOrchestrationJob o => IsOrchestrationJob o
  end.

(** The name [AWXJobStatus] in [main.py]: the module imports ten names
    from [.models], [AWXJobStatus] is not among them, and nothing else
    binds it.  Looking the name up raises [NameError]. *)
Definition AWXJobStatus_in_main {A} : M AWXWorld A :=
  raise (NameError "AWXJobStatus").

(** [AWXJobStatus(value)] in [main.py]: the name is looked up before the
    argument is. *)
Definition make_AWXJobStatus (value : string) : M AWXWorld AWXJobStatus :=
  AWXJobStatus_in_main.

Definition process_awx_job_body (job_id' : UUID) (job : loc)
  : M AWXWorld unit :=
  update_status job_id' VALIDATING (Some "Validating job template.") [] >>
  let* j := read_AWXJob job in
  let* template_id' :=
    if truthy_int (JobTemplateRequest.job_template_id (AWXJob.request j))
    then ret (default 0 (JobTemplateRequest.job_template_id (AWXJob.request j)))
    else
      let name := default "" (JobTemplateRequest.job_template_name
                                (AWXJob.request j)) in
      let* template :=
        call_awx (fun awx n => search_job_template awx n name) in
      match template with
      | None => raise (ValueError ("Job template '" ++ name ++ "' not found"))
      | Some template =>
          assign job (set_request_template_id (Some (template_id template))) >>
          ret (template_id template)
      end in
  let* template :=
    call_awx (fun awx n => get_job_template awx n template_id') in
  match template with
  | None =>
      raise (ValueError ("Job template ID " ++ pretty template_id' ++ " not found"))
  | Some template =>
      update_status job_id' LAUNCHING
        (Some ("Launching job template '" ++ template_name template ++ "'."))
        [] >>
      let* j := read_AWXJob job in
      let* awx_job_data :=
        call_awx (fun awx n =>
                    launch_job_template awx n template_id'
                      (JobTemplateRequest.extra_vars (AWXJob.request j))
                      (JobTemplateRequest.inventory_id (AWXJob.request j))
                      (JobTemplateRequest.limit (AWXJob.request j))) in
      if negb (truthy_int (data_id awx_job_data))
      then raise (ValueError "AWX did not return a job ID")
      else
        let awx_job_id' := default 0 (data_id awx_job_data) in
        setattr_at job (kw_awx_job_id (Some awx_job_id')) >>
        let* s := make_AWXJobStatus (default "new" (data_status awx_job_data)) in
        setattr_at job (kw_awx_job_status (Some s)) >>
        update_status job_id' MONITORING
          (Some ("Job launched with AWX job ID " ++ pretty awx_job_id' ++ "."))
          [kw_awx_job_id (Some awx_job_id'); kw_awx_job_status (Some s)] >>
        let* job_data :=
          call_awx (fun awx n => wait_for_job awx n awx_job_id') in
        let* s := make_AWXJobStatus (default "error" (data_status job_data)) in
        setattr_at job (kw_awx_job_status (Some s)) >>
        try_except
          (let* output :=
             call_awx (fun awx n => get_job_output awx n awx_job_id') in
           setattr_at job (kw_awx_job_output (Some output)))
          (fun _ => setattr_at job (kw_awx_job_output None)) >>
        let* successful := AWXJobStatus_in_main (A := AWXJobStatus) in
        if String.eqb (AWXJobStatus_value s) (AWXJobStatus_value successful)
        then
            update_status job_id' COMPLETED
              (Some ("Job completed successfully. AWX job ID: "
                     ++ pretty awx_job_id')) [] >>
            ret tt
        else
            let error_msg :=
              "Job failed with status: " ++ AWXJobStatus_value s ++
              (if truthy_str (data_job_explanation job_data)
               then " - " ++ default "" (data_job_explanation job_data)
               else "") in
            setattr_at job (kw_awx_error (Some error_msg)) >>
            update_status job_id' FAILED (Some error_msg) [] >>
            ret tt
  end.

Definition process_awx_job (job_id' : UUID) : M AWXWorld unit :=
  let* found := get_job job_id' in
  match found with
  | None => ret tt
  | Some job =>
      let* w := get in
      match heap w !! job with
      | Some (IsAWXJob _) =>
          try_except (process_awx_job_body job_id' job)
            (fun e =>
               setattr_at job (kw_awx_error (Some (str_exn e))) >>
               update_status job_id' FAILED
                 (Some ("Job processing failed: " ++ str_exn e)) [] >>
               ret tt)
      | _ => ret tt
      end
  end.

(** [AWXJob(request=JobTemplateRequest(job_template_id=None,
    job_template_name="Orchestrated", extra_vars={}), awx_job_id=...)] *)
Definition new_tracking_job (awx_job_id' : Z) : M AWXWorld AWXJob.t :=
  let* id := draw_uuid4 in
  let* t := utcnow in
  ret (AWXJob.mk id RECEIVED t None
         (JobTemplateRequest.mk None (Some "Orchestrated") [] None None [])
         None (Some awx_job_id') None None None None None [] None None).

Definition process_orchestration_job_body (job_id' : UUID) (job : loc)
  : M AWXWorld unit :=
  update_status job_id' VALIDATING (Some "Analyzing request with LLM.") [] >>
  get_orchestrator >>
  let* o := read_OrchestrationJob job in
  let* result :=
    orchestrate (OrchestrationRequest.request (OrchestrationJob.request o))
                (OrchestrationRequest.context (OrchestrationJob.request o)) in
  setattr_at job (kw_llm_response (response result)) >>
  setattr_at job (kw_decomposed_tasks (steps result)) >>
  let awx_job_ids' := awx_jobs result in
  match awx_job_ids' with
  | _ :: _ =>
      update_status job_id' MONITORING
        (Some ("Orchestration completed. Launched "
               ++ pretty (length awx_job_ids') ++ " AWX job(s).")) [] >>
      for_each awx_job_ids'
        (fun awx_job_id' =>
           let* awx_job := new_tracking_job awx_job_id' in
           let* o := read_OrchestrationJob job in
           setattr_at job (kw_awx_jobs (OrchestrationJob.awx_jobs o ++ [awx_job])))
  | [] =>
      update_status job_id' COMPLETED
        (Some "Orchestration completed (no AWX jobs launched).") [] >>
      ret tt
  end >>
  let* o := read_OrchestrationJob job in
  match OrchestrationJob.status o with
  | COMPLETED => ret tt
  | _ =>
      update_status job_id' COMPLETED
        (Some "Orchestration completed successfully.") [] >>
      ret tt
  end.

Definition process_orchestration_job (job_id' : UUID) : M AWXWorld unit :=
  let* found := get_job job_id' in
  match found with
  | None => ret tt
  | Some job =>
      let* w := get in
      match heap w !! job with
      | Some (IsOrchestrationJob _) =>
          try_except (process_orchestration_job_body job_id' job)
            (fun e =>
               setattr_at job (kw_llm_error (Some (str_exn e))) >>
               update_status job_id' FAILED
                 (Some ("Orchestration failed: " ++ str_exn e)) [] >>
               ret tt)
      | _ => ret tt
      end
  end.


(** ** Assertions

    A computation run from a world that satisfies [P] ends, returning or
    raising, in a world that satisfies [Q] of the outcome. *)
Definition hoare {W A} (P : W -> Prop) (c : M W A)
  (Q : outcome A -> W -> Prop) : Prop :=
  forall w, P w -> Q (fst (c w)) (snd (c w)).




(** [c] keeps the assertion [I], however it ends. *)
Definition stays {W A} (I : W -> Prop) (c : M W A) : Prop :=
  hoare I c (fun _ => I).

(** ** Worlds to run the code in *)
Module Examples.
Import PydanticModel.

(** An AWX server that is down. *)
Definition awx_down : AWX := {|
  search_job_template := fun _ _ => Raise ConnectError;
  get_job_template := fun _ _ => Raise ConnectError;
  launch_job_template := fun _ _ _ _ _ => Raise ConnectError;
  wait_for_job := fun _ _ => Raise ConnectError;
  get_job_output := fun _ _ => Raise ConnectError
|}.

(** One hour of retention; the clock reads 10000 s and advances a
    microsecond per reading. *)
Definition world {J Env} (objects : gmap loc J) (jobs : gmap UUID loc)
  (files : gmap UUID file_text) (writable : bool) (around : Env)
  : World J Env := {|
  heap := objects;
  next_loc := 10%positive;
  _jobs := jobs;
  _last_purge := None;
  cache_dir := files;
  settings := {| job_retention_minutes := 60 |};
  clock := fun n => 10000000000 + Z.of_nat n;
  ticks := 0;
  disk_writable := writable;
  write_calls := [];
  env := around
|}.

(** The AWX agent, given its AWX server. *)
Definition facing (awx : AWX) : AWXEnv := {|
  uuid4 := fun n => (1000 + N.of_nat n)%N;
  uuids_drawn := 0;
  awx_adapter := awx;
  awx_calls := 0;
  _orchestrator := false;
  LLMOrchestrator := fun _ => Return tt;
  orchestrators_made := 0
|}.

Definition by_name : JobTemplateRequest.t :=
  JobTemplateRequest.mk None (Some "deploy-web") [("env", JStr "lab")]
                        None None [("team", "ops")].

(** An AWX job that completed 100 s before the clock's first reading. *)
Definition finished : AWXJob.t :=
  AWXJob.mk 7%N COMPLETED 9000000000 (Some 9900000000) by_name
            (Some "Job completed successfully. AWX job ID: 31")
            (Some 31) (Some SUCCESSFUL) (Some "ok") None None None [] None None.

(** The same job on its way. *)
Definition running : AWXJob.t :=
  AWXJob.mk 7%N MONITORING 9000000000 None by_name
            (Some "Job launched with AWX job ID 31.")
            (Some 31) (Some RUNNING) None None None None [] None None.

(** A job that has only been received. *)
Definition received : AWXJob.t :=
  AWXJob.mk 7%N RECEIVED 9000000000 None by_name None
            None None None None None None [] None None.

Definition deploy : OrchestrationRequest.t :=
  OrchestrationRequest.mk "Deploy nginx on Kubernetes" [] [("team", "ops")].

(** An orchestration request that has been received. *)
Definition orchestration : OrchestrationJob.t :=
  OrchestrationJob.mk 8%N RECEIVED 9000000000 None deploy None [] [] None None.

(** An orchestration job as [update_status] leaves it when it completes,
    with results. *)
Definition orchestrated : OrchestrationJob.t :=
  OrchestrationJob.mk 8%N COMPLETED 9000000000 (Some 9900000000) deploy
    (Some "Orchestration completed successfully.")
    [[("action", JStr "provision-k8s-cluster"); ("status", JStr "completed")]]
    [] (Some "Orchestrated request: Deploy nginx on Kubernetes") None.

(** The finished job in memory, the running job in memory with a directory
    that takes writes and with one that does not, and the orchestration
    request in memory. *)
Definition w_finished : AWXWorld :=
  world {[1%positive := IsAWXJob finished]} {[7%N := 1%positive]} ∅ true
        (facing awx_down).

Definition w_running : AWXWorld :=
  world {[1%positive := IsAWXJob running]} {[7%N := 1%positive]} ∅ true
        (facing awx_down).

Definition w_disk_full : AWXWorld :=
  world {[1%positive := IsAWXJob running]} {[7%N := 1%positive]} ∅ false
        (facing awx_down).

Definition w_orchestration : AWXWorld :=
  world {[1%positive := IsOrchestrationJob orchestration]} {[8%N := 1%positive]}
        ∅ true (facing awx_down).

(** A fresh process next to a cache directory that holds the file of the
    finished job and a file that is not JSON. *)
Definition w_cold : AWXWorld :=
  world ∅ ∅ {[7%N := Json (AWXJob_dump finished); 5%N := NotJson "{"]}
        true (facing awx_down).

(** Jobs at the retention boundary: the clock reads 10000 s and the
    retention is 60 minutes, so the cutoff is 6400 s.  Job 11 completed 61
    minutes ago, job 12 completed 59 minutes ago, job 7 is running.  Each is
    in memory and has a file. *)
Definition old_job : AWXJob.t :=
  AWXJob.set_job_id 11%N (AWXJob.set_completed_at (Some 6340000000) finished).

Definition recent_job : AWXJob.t :=
  AWXJob.set_job_id 12%N (AWXJob.set_completed_at (Some 6460000000) finished).

Definition w_boundary : AWXWorld :=
  world {[1%positive := IsAWXJob running; 2%positive := IsAWXJob old_job;
          3%positive := IsAWXJob recent_job]}
        {[7%N := 1%positive; 11%N := 2%positive; 12%N := 3%positive]}
        {[7%N := Json (AWXJob_dump running); 11%N := Json (AWXJob_dump old_job);
          12%N := Json (AWXJob_dump recent_job)]}
        true (facing awx_down).

(** An adapter that holds a token good for an hour, facing a server that
    answers 401 to the first request, hands out a new token, and then
    answers 200, or 401 again. *)
Definition ok : AWXAdapter.Response :=
  {| AWXAdapter.status_code := 200; AWXAdapter.token := None;
     AWXAdapter.body := JObj [("id", JNum 31)] |}.

Definition unauthorized : AWXAdapter.Response :=
  {| AWXAdapter.status_code := 401; AWXAdapter.token := None;
     AWXAdapter.body := JObj [] |}.

Definition new_token : AWXAdapter.Response :=
  {| AWXAdapter.status_code := 201; AWXAdapter.token := Some "t2";
     AWXAdapter.body := JObj [("token", JStr "t2")] |}.

Definition adapter (answers : nat -> outcome AWXAdapter.Response)
  : AWXAdapter.State :=
  AWXAdapter.mkState "holmes" "secret" (Some "t1") (Some 3600000000)
    (fun n _ => answers n) [] (fun n => 1000000 + Z.of_nat n) 0.

Definition expired_once (n : nat) : outcome AWXAdapter.Response :=
  match n with
  | 0%nat => Return unauthorized
  | 1%nat => Return new_token
  | _ => Return ok
  end.

Definition rejected_twice (n : nat) : outcome AWXAdapter.Response :=
  match n with
  | 1%nat => Return new_token
  | _ => Return unauthorized
  end.

(** AWX servers for the workers.  All know the templates
    [test-hello-world] (5) and [deploy-web] (42) and no other.  The first
    refuses every launch; the second launches job 31, which fails; the
    third launches job 31, which succeeds. *)
Definition find_template (name : string) : option JobTemplateInfo :=
  if String.eqb (lower name) "test-hello-world"
  then Some {| template_id := 5; template_name := "test-hello-world" |}
  else if String.eqb (lower name) "deploy-web"
  then Some {| template_id := 42; template_name := "deploy-web" |}
  else None.

Definition template_by_id (id : Z) : option JobTemplateInfo :=
  if id =? 5
  then Some {| template_id := 5; template_name := "test-hello-world" |}
  else if id =? 42
  then Some {| template_id := 42; template_name := "deploy-web" |}
  else None.

Definition awx_refusing : AWX := {|
  search_job_template := fun _ name => Return (find_template name);
  get_job_template := fun _ id => Return (template_by_id id);
  launch_job_template := fun _ _ _ _ _ => Raise (HTTPStatusError 400);
  wait_for_job := fun _ _ => Raise TimeoutError;
  get_job_output := fun _ _ => Raise (HTTPStatusError 404)
|}.

Definition awx_with (final : string) : AWX := {|
  search_job_template := fun _ name => Return (find_template name);
  get_job_template := fun _ id => Return (template_by_id id);
  launch_job_template := fun _ _ _ _ _ =>
    Return {| data_id := Some 31; data_status := Some "pending";
              data_job_explanation := None |};
  wait_for_job := fun _ _ =>
    Return {| data_id := Some 31; data_status := Some final;
              data_job_explanation := None |};
  get_job_output := fun _ _ => Return "PLAY RECAP"
|}.

Definition w_submitted (awx : AWX) : AWXWorld :=
  world {[1%positive := IsAWXJob received]} {[7%N := 1%positive]} ∅ true
        (facing awx).

Definition w_orchestrating (awx : AWX) : AWXWorld :=
  world {[1%positive := IsOrchestrationJob orchestration]} {[8%N := 1%positive]}
        ∅ true (facing awx).

(** The DNS agent: a record job that is being applied, one that
    completed 100 s before the clock's first reading, next to a cache
    directory with a file that is not JSON. *)
Definition border : RecordRequest.t :=
  RecordRequest.mk "bakerstreetlabs.io" "border.bakerstreetlabs.io"
                   RecordType.A "192.168.0.7" 60 [].

Definition applying : RecordJob.t :=
  RecordJob.mk 7%N RecordJobStatus.APPLYING 9000000000 None border
               (Some "Applying record.") None None.

Definition applied : RecordJob.t :=
  RecordJob.mk 9%N RecordJobStatus.COMPLETED 9000000000 (Some 9900000000)
               border (Some "Change applied successfully.") None
               (Some ["border.bakerstreetlabs.io -> 192.168.0.7"]).

Definition w_dns (writable : bool) : World RecordJob.t unit :=
  world {[1%positive := applying; 2%positive := applied]}
        {[7%N := 1%positive; 9%N := 2%positive]}
        {[9%N := Json (RecordJob_dump applied); 5%N := NotJson "{"]}
        writable tt.

End Examples.

(** ** Start of the process ([JobManager.__init__])

    The module creates its [JobManager] when it is imported: an empty map,
    no purge on record, and the jobs of the cache directory that are still
    within retention. *)
Section Startup.
Context {J St Kw Env : Type} {job_class : JobClass J St Kw}.

(** The body of the loop of [_load_cached_jobs] for one [cache_file]. *)
Definition load_cache_file (cutoff : datetime) (file : UUID * file_text)
  : M (World J Env) unit :=
  match parse_cached (snd file) with
  | None => unlink (fst file)
  | Some job =>
      if older_than cutoff job then unlink (fst file)
      else let* l := new_object job in
           modify (with_jobs (insert (job_id job) l))
  end.

(** The loop runs over the listing of the directory taken at its start. *)
Definition _load_cached_jobs : M (World J Env) unit :=
  let* now := utcnow in
  let* w := get in
  let cutoff := now - minutes (job_retention_minutes (settings w)) in
  for_each (map_to_list (cache_dir w)) (load_cache_file cutoff).

Definition __init__ : M (World J Env) unit :=
  modify (with_jobs (fun _ => ∅)) >>
  modify (with_last_purge None) >>
  _load_cached_jobs.

End Startup.

(** Every readable file of the directory sits under the id of the job it
    holds, which is where [_persist_job] writes it. *)
Definition named_by_job_id {J St Kw} `{JobClass J St Kw}
  (files : gmap UUID file_text) : bool :=
  forallb (fun file => match parse_cached (snd file) with
                       | Some job => N.eqb (job_id job) (fst file)
                       | None => true
                       end) (map_to_list files).

(** [c] changes nothing of the world but what the service has around its
    store. *)
Definition env_only {J Env A} (c : M (World J Env) A) : Prop :=
  forall w, snd (c w) = with_env (fun _ => env (snd (c w))) w.

(** A task that [finalize] has been over. *)
Definition settled (t : dict_any) : Prop :=
  dict_get "status" t = Some (JStr "completed") \/
  dict_get "status" t = Some (JStr "failed").

(** The AWX job that [launch_subtask] has recorded in a task, and those
    recorded in a list of tasks, in order. *)
Definition task_job_id (t : dict_any) : option Z :=
  match dict_get "awx_job_id" t with
  | Some (JNum awx_job_id) => Some awx_job_id
  | _ => None
  end.

Definition task_job_ids (tasks : list dict_any) : list Z :=
  omap task_job_id tasks.

(** The job [id] is the object at [job], which satisfies [P] and has not
    completed, and the cache directory takes writes. *)
Definition pending {J St Kw Env} `{JobClass J St Kw} (id : UUID) (job : loc)
  (P : J -> Prop) (w : World J Env) : Prop :=
  _jobs w !! id = Some job /\
  disk_writable w = true /\
  exists j, heap w !! job = Some j /\ completed_at j = None /\ P j.

(** The object at [job] satisfies [P], has its [completed_at], and is what
    the last [write_text] call wrote, under its id. *)
Definition flushed {J St Kw Env} `{JobClass J St Kw} (job : loc)
  (P : J -> Prop) (w : World J Env) : Prop :=
  exists j t, heap w !! job = Some j /\ completed_at j = Some t /\
              last (write_calls w) = Some (job_id j, json_of j) /\ P j.

(** An object of one of the two classes of the AWX agent. *)
Definition is_AWXJob (P : AWXJob.t -> Prop) (job : Job) : Prop :=
  exists j, job = IsAWXJob j /\ P j.

Definition is_OrchestrationJob (P : OrchestrationJob.t -> Prop) (job : Job)
  : Prop :=
  exists o, job = IsOrchestrationJob o /\ P o.

(** How [process_awx_job] leaves the job that it found as [j]: FAILED,
    with the error recorded and named in the message, and with the status
    and the output of an AWX job as they were. *)
Definition processed (j j' : AWXJob.t) : Prop :=
  AWXJob.status j' = FAILED /\
  (exists error, AWXJob.awx_error j' = Some error /\
                 AWXJob.message j' = Some ("Job processing failed: " ++ error)) /\
  AWXJob.awx_job_status j' = AWXJob.awx_job_status j /\
  AWXJob.awx_job_output j' = AWXJob.awx_job_output j.

(** Nothing that the monitoring of an AWX job would record has changed
    since the object was [j]. *)
Definition unmonitored (j j' : AWXJob.t) : Prop :=
  AWXJob.awx_job_status j' = AWXJob.awx_job_status j /\
  AWXJob.awx_job_output j' = AWXJob.awx_job_output j.

(** The job is pending and an AWX job, and at most [n] adapter calls
    have been made. *)
Definition launching (id : UUID) (job : loc) (P : AWXJob.t -> Prop) (n : nat)
  (w : AWXWorld) : Prop :=
  pending id job (is_AWXJob P) w /\ (awx_calls (env w) <= n)%nat.

(** [c], run from a world that satisfies [P], returns, with a value and a
    world that satisfy [Q]. *)
Definition runs {W A} (P : W -> Prop) (c : M W A) (Q : A -> W -> Prop)
  : Prop :=
  hoare P c (fun r w => match r with
                        | Return a => Q a w
                        | Raise _ => False
                        end).

(** What [get_orchestrator()] answers from the surroundings [e]. *)
Definition orchestrator_of (e : AWXEnv) : outcome unit :=
  if _orchestrator e then Return tt
  else LLMOrchestrator e (orchestrators_made e).

(** A job made to track an AWX job that the workflow launched. *)
Definition tracking_job (a : AWXJob.t) : Prop :=
  AWXJob.status a = RECEIVED /\
  AWXJob.completed_at a = None /\
  AWXJob.request a =
    JobTemplateRequest.mk None (Some "Orchestrated") [] None None [].

(** How [process_orchestration_job] leaves the job that it found as [o]
    when it has an orchestrator: COMPLETED, with the answer of the
    orchestrator, its one or two steps, each completed or failed, and,
    after the AWX jobs that [o] had, one tracking job for each AWX job
    that a step has recorded, in the order of the steps. *)
Definition concluded (o o' : OrchestrationJob.t) : Prop :=
  OrchestrationJob.status o' = COMPLETED /\
  OrchestrationJob.llm_error o' = OrchestrationJob.llm_error o /\
  (exists text, OrchestrationJob.llm_response o' = Some text) /\
  (1 <= length (OrchestrationJob.decomposed_tasks o') <= 2)%nat /\
  Forall settled (OrchestrationJob.decomposed_tasks o') /\
  exists added,
    OrchestrationJob.awx_jobs o' = (OrchestrationJob.awx_jobs o ++ added)%list /\
    Forall tracking_job added /\
    map AWXJob.awx_job_id added
    = map Some (task_job_ids (OrchestrationJob.decomposed_tasks o')).

(** How it leaves the job when [get_orchestrator()] raises [e]: FAILED,
    with the error recorded and named in the message, and with the answer,
    the steps and the AWX jobs that [o] had. *)
Definition abandoned (e : exn) (o o' : OrchestrationJob.t) : Prop :=
  OrchestrationJob.status o' = FAILED /\
  OrchestrationJob.llm_error o' = Some (str_exn e) /\
  OrchestrationJob.message o' = Some ("Orchestration failed: " ++ str_exn e) /\
  OrchestrationJob.llm_response o' = OrchestrationJob.llm_response o /\
  OrchestrationJob.decomposed_tasks o' = OrchestrationJob.decomposed_tasks o /\
  OrchestrationJob.awx_jobs o' = OrchestrationJob.awx_jobs o.

(** How [process_orchestration_job] leaves the job that it found as [o],
    run from the surroundings [e]. *)
Definition orchestration_ended (e : AWXEnv) (o o' : OrchestrationJob.t) : Prop :=
  match orchestrator_of e with
  | Return _ => concluded o o'
  | Raise exc => abandoned exc o o'
  end.

(** ** The DNS agent ([main.py], [ipam_adapter.py])

    The worker of the DNS agent meets its DNS server through the two
    methods of the adapter that the settings select, each answering, from
    the adapter calls made before it and its arguments, with the pair
    [(success, error)] or an exception.  Next to the store it has the
    IPAM inventory file: missing, unreadable or a text, and taking a write
    or not. *)
Record DNSAdapter := {
  ensure_zone : nat -> string -> outcome (bool * option string);
  upsert_record :
    nat -> string -> string -> string -> string -> Z ->
    outcome (bool * option string)
}.

(** The adapter calls, as made. *)
Inductive dns_call :=
| EnsureZone (zone : string)
| UpsertRecord (zone name record_type content : string) (ttl : Z).

Record DNSEnv := mkDNSEnv {
  dns_backend : string;
  technitium_adapter : DNSAdapter;
  pdns_adapter : DNSAdapter;
  dns_calls : list dns_call;
  isoformat : datetime -> string;
  IPAM_FILE : option (outcome string);
  ipam_writable : bool
}.

Abbreviation DNSWorld := (World RecordJob.t DNSEnv).

(** [technitium_adapter if settings.dns_backend == "technitium" else
    pdns_adapter], and the name of the backend. *)
Definition adapter (e : DNSEnv) : DNSAdapter :=
  if String.eqb (dns_backend e) "technitium" then technitium_adapter e
  else pdns_adapter e.

Definition backend_name (e : DNSEnv) : string :=
  if String.eqb (dns_backend e) "technitium" then "Technitium" else "PowerDNS".

(** A call of a method of the adapter, which answers from the number of
    adapter calls made before. *)
Definition call_adapter {A} (call : dns_call) (answer : nat -> outcome A)
  : M DNSWorld A :=
  fun w => (answer (length (dns_calls (env w))),
            with_env (fun e => mkDNSEnv (dns_backend e) (technitium_adapter e)
                                 (pdns_adapter e) (dns_calls e ++ [call])
                                 (isoformat e) (IPAM_FILE e) (ipam_writable e))
                     w).

(** *** [ipam_adapter.py] *)

(** [str.rstrip()]: a text is the UTF-8 bytes of its code points, and the
    white space of [str.isspace] is U+0009 to U+000D, U+001C to U+0020,
    U+0085, U+00A0, U+1680, U+2000 to U+200A, U+2028, U+2029, U+202F,
    U+205F and U+3000. *)
Definition is_space (c : ascii) : bool :=
  let n := nat_of_ascii c in
  (((9 <=? n) && (n <=? 13)) || ((28 <=? n) && (n <=? 32)))%nat.

Definition is_space2 (a b : ascii) : bool :=
  let a := nat_of_ascii a in
  let b := nat_of_ascii b in
  ((a =? 194) && ((b =? 133) || (b =? 160)))%nat.

Definition is_space3 (a b c : ascii) : bool :=
  let a := nat_of_ascii a in
  let b := nat_of_ascii b in
  let c := nat_of_ascii c in
  (((a =? 225) && (b =? 154) && (c =? 128))
   || ((a =? 226) && (b =? 128)
       && (((128 <=? c) && (c <=? 138)) || (c =? 168) || (c =? 169)
           || (c =? 175)))
   || ((a =? 226) && (b =? 129) && (c =? 159))
   || ((a =? 227) && (b =? 128) && (c =? 128)))%nat.

Fixpoint all_space (s : string) : bool :=
  match s with
  | EmptyString => true
  | String a s1 =>
      if is_space a then all_space s1
      else match s1 with
           | EmptyString => false
           | String b s2 =>
               if is_space2 a b then all_space s2
               else match s2 with
                    | EmptyString => false
                    | String c s3 =>
                        if is_space3 a b c then all_space s3 else false
                    end
           end
  end.

Fixpoint rstrip (s : string) : string :=
  match s with
  | EmptyString => EmptyString
  | String c s' => if all_space s then EmptyString else String c (rstrip s')
  end.

(** [f"- {datetime.utcnow().isoformat()} UTC - Added `{fqdn}` -> `{content}`
    via Holmes DNS Agent"], with the dash and the arrow of the source. *)
Definition build_ipam_note (fqdn content : string) : M DNSWorld string :=
  let* now := utcnow in
  let* w := get in
  ret ("- " ++ isoformat (env w) now ++ " UTC — Added `" ++ fqdn
       ++ "` → `" ++ content ++ "` via Holmes DNS Agent").

Definition sentinel : string :=
  newline ++ "## 📌 DNS Automation Notes" ++ newline.

(** [IPAM_FILE.write_text(new_content)] *)
Definition write_ipam (new_content : string) : M DNSWorld unit :=
  let* w := get in
  if ipam_writable (env w)
  then modify (with_env (fun e =>
                 mkDNSEnv (dns_backend e) (technitium_adapter e)
                   (pdns_adapter e) (dns_calls e) (isoformat e)
                   (Some (Return new_content)) (ipam_writable e)))
  else raise OSError.

Definition append_ipam_notes (notes : list string) : M DNSWorld unit :=
  let* w := get in
  match IPAM_FILE (env w) with
  | None => ret tt
  | Some file =>
      try_except
        (let* content := (fun w => (file, w)) in
         let content :=
           if negb (contains sentinel content)
           then rstrip content ++ sentinel ++ newline
           else content in
         let new_content := content ++ String.concat newline notes ++ newline in
         write_ipam new_content)
        (fun _ => ret tt)
  end.

(** *** The worker ([main.py]) *)

Definition read_RecordJob (job : loc) : M DNSWorld RecordJob.t :=
  let* w := get in
  match heap w !! job with
  | Some j => ret j
  | None => raise AttributeError
  end.

(** [f"{error}"] for an [Optional[str]]. *)
Definition format_error (error : option string) : string :=
  default "None" error.

Definition process_record_job_body (job_id' : UUID) (job : loc)
  : M DNSWorld unit :=
  let* w0 := get in
  let adapter := adapter (env w0) in
  let backend_name := backend_name (env w0) in
  update_status job_id' RecordJobStatus.VALIDATING
    (Some "Validating zone.") [] >>
  let* j := read_RecordJob job in
  let zone := RecordRequest.zone (RecordJob.request j) in
  let* answer :=
    call_adapter (EnsureZone zone) (fun n => ensure_zone adapter n zone) in
  (if negb (fst answer)
   then raise (RuntimeError ("Zone validation failed: "
                             ++ format_error (snd answer)))
   else ret tt) >>
  update_status job_id' RecordJobStatus.APPLYING
    (Some "Applying record.") [] >>
  let* j := read_RecordJob job in
  let r := RecordJob.request j in
  let* answer :=
    call_adapter
      (UpsertRecord (RecordRequest.zone r) (RecordRequest.name r)
         (RecordType.value (RecordRequest.record_type r))
         (RecordRequest.content r) (RecordRequest.ttl r))
      (fun n =>
         upsert_record adapter n (RecordRequest.zone r) (RecordRequest.name r)
           (RecordType.value (RecordRequest.record_type r))
           (RecordRequest.content r) (RecordRequest.ttl r)) in
  (if negb (fst answer)
   then raise (RuntimeError (backend_name ++ " update failed: "
                             ++ format_error (snd answer)))
   else ret tt) >>
  update_status job_id' RecordJobStatus.DOCUMENTING
    (Some "Updating documentation.") [] >>
  let* j := read_RecordJob job in
  let* note :=
    build_ipam_note (RecordRequest.name (RecordJob.request j))
                    (RecordRequest.content (RecordJob.request j)) in
  let notes := [note] in
  append_ipam_notes notes >>
  update_status job_id' RecordJobStatus.COMPLETED
    (Some "Change applied successfully.")
    [RecordJob.kw_doc_changes (Some notes)] >>
  ret tt.

Definition process_record_job (job_id' : UUID) : M DNSWorld unit :=
  let* found := get_job job_id' in
  match found with
  | None => ret tt
  | Some job =>
      try_except (process_record_job_body job_id' job)
        (fun exc =>
           update_status job_id' RecordJobStatus.FAILED (Some (str_exn exc)) []
           >> ret tt)
  end.

(** *** Assertions on the DNS agent *)

(** What the adapter calls depend on: the backend, the adapters and the
    calls made. *)
Definition adapter_view (e : DNSEnv)
  : string * DNSAdapter * DNSAdapter * list dns_call :=
  (dns_backend e, technitium_adapter e, pdns_adapter e, dns_calls e).

(** The adapter reports the zone of [r] as present; the adapter reports
    that too and takes the record of [r]. *)
Definition zone_ensured (e : DNSEnv) (r : RecordRequest.t) : bool :=
  match ensure_zone (adapter e) (length (dns_calls e)) (RecordRequest.zone r)
  with
  | Return (true, _) => true
  | _ => false
  end.

Definition record_applied (e : DNSEnv) (r : RecordRequest.t) : bool :=
  zone_ensured e r &&
  match upsert_record (adapter e) (S (length (dns_calls e)))
          (RecordRequest.zone r) (RecordRequest.name r)
          (RecordType.value (RecordRequest.record_type r))
          (RecordRequest.content r) (RecordRequest.ttl r)
  with
  | Return (true, _) => true
  | _ => false
  end.

(** The adapter calls that [process_record_job] makes for [r]. *)
Definition calls_for (e : DNSEnv) (r : RecordRequest.t) : list dns_call :=
  EnsureZone (RecordRequest.zone r) ::
  (if zone_ensured e r
   then [UpsertRecord (RecordRequest.zone r) (RecordRequest.name r)
           (RecordType.value (RecordRequest.record_type r))
           (RecordRequest.content r) (RecordRequest.ttl r)]
   else []).

(** How [process_record_job] leaves a job with request [r], from the
    surroundings [e]. *)
Definition record_processed (e : DNSEnv) (r : RecordRequest.t)
  (j : RecordJob.t) : Prop :=
  RecordJob.request j = r /\
  if record_applied e r
  then RecordJob.status j = RecordJobStatus.COMPLETED /\
       RecordJob.message j = Some "Change applied successfully." /\
       exists note, RecordJob.doc_changes j = Some [note]
  else RecordJob.status j = RecordJobStatus.FAILED.

(** The view after the adapter calls [extra] have been made from [e]. *)
Definition view_after (e : DNSEnv) (extra : list dns_call)
  : string * DNSAdapter * DNSAdapter * list dns_call :=
  (dns_backend e, technitium_adapter e, pdns_adapter e, (dns_calls e ++ extra)%list).

(** The job is pending, and the adapter calls [extra] have been made since
    the surroundings were [e]. *)
Definition working (id : UUID) (job : loc) (P : RecordJob.t -> Prop)
  (e : DNSEnv) (extra : list dns_call) (w : DNSWorld) : Prop :=
  pending id job P w /\ adapter_view (env w) = view_after e extra.

(** ** Worlds of the DNS agent *)
Module DNSExamples.
Import Examples.

(** An adapter that has one zone and takes every record, and one whose
    server cannot be reached. *)
Definition has_one_zone : DNSAdapter := {|
  ensure_zone := fun _ zone =>
    if String.eqb zone "bakerstreetlabs.io" then Return (true, None)
    else Return (false, Some "zone not found");
  upsert_record := fun _ _ _ _ _ _ => Return (true, None)
|}.

Definition unreachable : DNSAdapter := {|
  ensure_zone := fun _ _ => Raise ConnectError;
  upsert_record := fun _ _ _ _ _ _ => Raise ConnectError
|}.

(** A record job as submitted, with an inventory file that has no notes
    yet. *)
Definition submitted : RecordJob.t :=
  RecordJob.mk 7%N RecordJobStatus.RECEIVED 9000000000 None border
               None None None.

Definition w_record (technitium : DNSAdapter) : DNSWorld :=
  world {[1%positive := submitted]} {[7%N := 1%positive]} ∅ true
        (mkDNSEnv "technitium" technitium unreachable []
                  (fun _ => "2025-11-04T09:00:00")
                  (Some (Return "# IPAM Master Inventory")) true).

End DNSExamples.

(** ** What a server answers

    What [response.json()] gives: [None], a [bool], an [int], a [float]
    ([m] times ten to the [e]), a [str], a [list] or a [dict]. *)
Inductive decoded :=
| VNone
| VBool (b : bool)
| VInt (n : Z)
| VFloat (m e : Z)
| VStr (s : string)
| VList (xs : list decoded)
| VDict (kvs : list (string * decoded)).

(** [d.get(key, default)] on what [json()] gave. *)
Fixpoint member (key : string) (kvs : list (string * decoded))
  : option decoded :=
  match kvs with
  | [] => None
  | (k, v) :: kvs' => if String.eqb k key then Some v else member key kvs'
  end.

Definition value_get {S} (v : decoded) (key : string) (default' : decoded)
  : M S decoded :=
  match v with
  | VDict kvs => ret (default default' (member key kvs))
  | _ => raise AttributeError
  end.

(** ** The Technitium client ([technitium_adapter.py])

    The client sends its requests through a [requests] session: the server
    answers, or the transport raises, from the number of requests made
    before and the request.  [add_record] and [update_record] call each
    other for as long as the server answers 409, to the depth that the
    interpreter allows, and are left out. *)
Module Technitium.

(** The values that have a [len()]. *)
Inductive sized :=
| SStr (s : string)
| SList (xs : list decoded)
| SDict (kvs : list (string * decoded)).

Definition sized_of (v : decoded) : option sized :=
  match v with
  | VStr s => Some (SStr s)
  | VList xs => Some (SList xs)
  | VDict kvs => Some (SDict kvs)
  | _ => None
  end.

(** [session.request(method, url, params=..., headers=..., json=...)], the
    keywords that were not passed being [None]. *)
Inductive sent :=
| Request (method url : string) (params : list (string * string))
    (headers : option (list (string * string))) (payload : option decoded).

(** A response: [status_code], [content], [text] and what [json()] does. *)
Record Response := {
  status_code : Z;
  content : string;
  text : string;
  to_json : outcome decoded
}.

Record Client := mkClient {
  api_url : string;
  api_token : string;
  urljoin : string -> string -> string;
  server : nat -> sent -> outcome Response;
  requests : list sent
}.

Definition with_requests (l : list sent) (c : Client) : Client :=
  mkClient (api_url c) (api_token c) (urljoin c) (server c) l.

Definition send (s : sent) : M Client Response :=
  fun c => (server c (length (requests c)) s,
            with_requests (requests c ++ [s]) c).

(** [d[key] = v] and [key in d] for a [dict] in insertion order. *)
Fixpoint setitem (key v : string) (d : list (string * string))
  : list (string * string) :=
  match d with
  | [] => [(key, v)]
  | (k, v') :: d' => if String.eqb k key then (k, v) :: d'
                     else (k, v') :: setitem key v d'
  end.

Definition has_key (key : string) (d : list (string * string)) : bool :=
  existsb (fun kv => String.eqb (fst kv) key) d.

Definition _request (method endpoint : string)
  (params headers : option (list (string * string))) (payload : option decoded)
  : M Client Response :=
  let* c := get in
  let url := urljoin c (api_url c) endpoint in
  let params := setitem "token" (api_token c) (default [] params) in
  let headers :=
    if String.eqb method "POST" || String.eqb method "PUT"
       || String.eqb method "PATCH"
    then let headers := default [] headers in
         Some (if negb (has_key "Content-Type" headers)
               then setitem "Content-Type" "application/json" headers
               else headers)
    else headers in
  send (Request method url params headers payload).

(** [(success, error_message)] *)
Definition answer : Type := bool * decoded.

Definition create_zone (zone_name zone_type : string) : M Client answer :=
  try_except
    (let payload := VDict [("zone", VStr (rstrip_dots zone_name));
                           ("type", VStr zone_type)] in
     let* response :=
       _request "POST" "/api/zones/create" None None (Some payload) in
     if status_code response =? 200 then ret (true, VNone)
     else if status_code response =? 409 then ret (true, VNone)
     else
       let* error_data :=
         match content response with
         | EmptyString => ret (VDict [])
         | _ => fun c => (to_json response, c)
         end in
       let* error :=
         value_get error_data "errorMessage" (VStr (text response)) in
       ret (false, error))
    (fun e => ret (false, VStr (str_exn e))).

(** [len(zones)] in the log line raises a [TypeError] for what has no
    length, and the handler makes that the empty list: what [list_zones]
    returns has a length. *)
Definition list_zones : M Client sized :=
  try_except
    (let* response := _request "GET" "/api/zones/list" None None None in
     if status_code response =? 200
     then
       let* data := (fun c => (to_json response, c)) in
       let* zones := value_get data "zones" (VList []) in
       match sized_of zones with
       | Some zones => ret zones
       | None => ret (SList [])
       end
     else ret (SList []))
    (fun _ => ret (SList [])).

(** [for z in zones]: the items of a list, the keys of a dict, the
    characters of a string. *)
Definition iter (zones : sized) : list decoded :=
  match zones with
  | SList xs => xs
  | SDict kvs => map (fun kv => VStr (fst kv)) kvs
  | SStr s => map (fun c => VStr (String c EmptyString)) (list_ascii_of_string s)
  end.

(** [[z.get('name', '').rstrip('.') for z in zones]] *)
Fixpoint zone_names (zones : list decoded) : outcome (list string) :=
  match zones with
  | [] => Return []
  | VDict kvs :: zones' =>
      match default (VStr "") (member "name" kvs) with
      | VStr name =>
          match zone_names zones' with
          | Return names => Return (rstrip_dots name :: names)
          | Raise e => Raise e
          end
      | _ => Raise AttributeError
      end
  | _ :: _ => Raise AttributeError
  end.

(** [fqdn_zone in zone_names] *)
Definition is_in (s : string) (l : list string) : bool :=
  existsb (String.eqb s) l.

(** [TechnitiumAdapter.ensure_zone] *)
Definition ensure_zone (zone : string) : M Client answer :=
  let fqdn_zone := rstrip_dots zone in
  let* zones := list_zones in
  let* zone_names := (fun c => (zone_names (iter zones), c)) in
  if is_in fqdn_zone zone_names then ret (true, VNone)
  else create_zone fqdn_zone "Primary".

(** The two requests of [ensure_zone]. *)
Definition list_request (c : Client) : sent :=
  Request "GET" (urljoin c (api_url c) "/api/zones/list")
          [("token", api_token c)] None None.

Definition create_request (c : Client) (zone_name zone_type : string) : sent :=
  Request "POST" (urljoin c (api_url c) "/api/zones/create")
          [("token", api_token c)]
          (Some [("Content-Type", "application/json")])
          (Some (VDict [("zone", VStr (rstrip_dots zone_name));
                        ("type", VStr zone_type)])).

(** The server answers with one of the status codes for which
    [create_zone] reports success. *)
Definition accepted (a : outcome Response) : bool :=
  match a with
  | Return r => (status_code r =? 200) || (status_code r =? 409)
  | Raise _ => false
  end.

(** An item of the listing that is a zone called [zone], up to the dots at
    the end. *)
Definition names_zone (zone : string) (z : decoded) : bool :=
  match z with
  | VDict kvs =>
      match default (VStr "") (member "name" kvs) with
      | VStr name => String.eqb (rstrip_dots zone) (rstrip_dots name)
      | _ => false
      end
  | _ => false
  end.

(** A server that lists one zone, with the dot at its end, and a server
    whose listing is out of order but which takes a new zone. *)
Definition quoted (s : string) : string :=
  String (ascii_of_nat 34) (s ++ String (ascii_of_nat 34) EmptyString).

Definition one_zone_listing : Response := {|
  status_code := 200;
  content := "{" ++ quoted "zones" ++ ": [{" ++ quoted "name" ++ ": "
             ++ quoted "bakerstreetlabs.io." ++ "}]}";
  text := "{" ++ quoted "zones" ++ ": [{" ++ quoted "name" ++ ": "
          ++ quoted "bakerstreetlabs.io." ++ "}]}";
  to_json :=
    Return (VDict [("zones",
                    VList [VDict [("name", VStr "bakerstreetlabs.io.")]])])
|}.

Definition no_body (status : Z) : Response := {|
  status_code := status;
  content := "";
  text := "";
  to_json := Raise (ValueError "Expecting value: line 1 column 1 (char 0)")
|}.

Definition technitium_with (server' : nat -> sent -> outcome Response)
  : Client :=
  mkClient "http://192.168.0.53:5380" "token-of-the-agent"
           (fun base endpoint => base ++ endpoint) server' [].

Definition lists_one_zone : Client :=
  technitium_with (fun _ _ => Return one_zone_listing).

Definition listing_out_of_order : Client :=
  technitium_with (fun n _ => match n with
                              | O => Return (no_body 500)
                              | _ => Return (no_body 200)
                              end).

End Technitium.

(** ** Waiting for an AWX job ([awx_adapter.py], [wait_for_job])

    [wait_for_job] meets the server through [get_job_status], which
    answers a poll with what [response.json()] gave or raises, from the
    number of polls made before and the id of the job.  [time_time] gives
    the successive readings of [time.time()] that [wait_for_job] makes, in
    microseconds; the settings are in seconds.  The loop has no bound of
    its own: [fuel] bounds the number of polls, and [None] is a loop that
    is still polling after them. *)
Module AWXPolling.

Record Poller := mkPoller {
  get_job_status : nat -> Z -> outcome decoded;
  polls : list Z;
  time_time : nat -> Z;
  time_reads : nat;
  slept : list Z;
  poll_interval : Z;
  job_timeout : Z
}.

Definition poll_status (job_id : Z) : M Poller decoded :=
  fun p => (get_job_status p (length (polls p)) job_id,
            mkPoller (get_job_status p) (polls p ++ [job_id]) (time_time p)
                     (time_reads p) (slept p) (poll_interval p)
                     (job_timeout p)).

Definition now : M Poller Z :=
  fun p => (Return (time_time p (time_reads p)),
            mkPoller (get_job_status p) (polls p) (time_time p)
                     (S (time_reads p)) (slept p) (poll_interval p)
                     (job_timeout p)).

(** [time.sleep(self.poll_interval)] *)
Definition sleep : M Poller unit :=
  fun p => (Return tt,
            mkPoller (get_job_status p) (polls p) (time_time p)
                     (time_reads p) (slept p ++ [poll_interval p])
                     (poll_interval p) (job_timeout p)).

(** [status in ("successful", "failed", "error", "canceled")] *)
Definition final_statuses : list string :=
  ["successful"; "failed"; "error"; "canceled"].

Definition is_final (status : decoded) : bool :=
  match status with
  | VStr s => existsb (String.eqb s) final_statuses
  | _ => false
  end.

(** The [while True] loop. *)
Fixpoint poll_loop (fuel : nat) (job_id timeout start_time : Z)
  : M Poller (option decoded) :=
  match fuel with
  | O => ret None
  | S fuel' =>
      let* job_data := poll_status job_id in
      let* status := value_get job_data "status" VNone in
      if is_final status then ret (Some job_data)
      else
        let* t := now in
        let elapsed := t - start_time in
        if elapsed >? timeout * 1000000 then raise TimeoutError
        else sleep >> poll_loop fuel' job_id timeout start_time
  end.

(** [timeout or self.job_timeout] *)
Definition timeout_of (p : Poller) (timeout : option Z) : Z :=
  if truthy_int timeout then default 0 timeout else job_timeout p.

Definition wait_for_job (fuel : nat) (job_id : Z) (timeout : option Z)
  : M Poller (option decoded) :=
  let* p := get in
  let timeout := timeout_of p timeout in
  let* start_time := now in
  poll_loop fuel job_id timeout start_time.

(** The answer to a poll is a dict whose status is not final. *)
Definition still_running (answer : outcome decoded) : Prop :=
  exists kvs, answer = Return (VDict kvs) /\
              is_final (default VNone (member "status" kvs)) = false.

(** How the wait ends, given the answer to its last poll: it returns that
    answer, a dict with a final status; or it raises what the poll raised,
    an [AttributeError] for an answer that is not a dict, or, for an answer
    that is not final, [TimeoutError] when the reading of the clock that
    follows is [late]. *)
Definition wait_ended (last : outcome decoded) (late : Prop)
  (r : outcome (option decoded)) : Prop :=
  match r with
  | Return (Some job_data) =>
      last = Return job_data /\
      exists kvs s, job_data = VDict kvs /\
                    member "status" kvs = Some (VStr s) /\
                    In s final_statuses
  | Return None => False
  | Raise e =>
      last = Raise e \/
      (e = AttributeError /\
       exists v, last = Return v /\ forall kvs, v <> VDict kvs) \/
      (e = TimeoutError /\ still_running last /\ late)
  end.

(** A job that is running at the first poll and successful from the
    second, seen with a clock that advances by five seconds from reading
    to reading. *)
Definition running_then_successful : Poller := {|
  get_job_status := fun n job_id =>
    Return (VDict [("id", VInt job_id);
                   ("status", VStr (if (n <? 1)%nat then "running"
                                    else "successful"))]);
  polls := [];
  time_time := fun n => Z.of_nat n * 5000000;
  time_reads := 0;
  slept := [];
  poll_interval := 5;
  job_timeout := 3600
|}.

End AWXPolling.

(** * Properties *)

(** ** The monad *)

Lemma bind_Return {S A B} (c : M S A) (k : A -> M S B) s a s' :
  c s = (Return a, s') -> bind c k s = k a s'.
Proof. intros H. unfold bind. by rewrite H. Qed.

Lemma bind_Raise {S A B} (c : M S A) (k : A -> M S B) s e s' :
  c s = (Raise e, s') -> bind c k s = (Raise e, s').
Proof. intros H. unfold bind. by rewrite H. Qed.

(** ** The purge loops *)

(** A loop that deletes the keys chosen by [P] from a snapshot of the map
    leaves exactly the entries that [P] does not choose. *)
Lemma purge_loop_lookup {V} (P : UUID -> V -> bool)
  (f : UUID -> V -> gmap UUID V -> gmap UUID V) (m : gmap UUID V) (k : UUID) :
  (forall i x acc, f i x acc = if P i x then delete i acc else acc) ->
  map_fold f m m !! k =
    match m !! k with
    | Some x => if P k x then None else Some x
    | None => None
    end.
Proof.
  intros Hf.
  cut (forall b : gmap UUID V,
          map_fold f b m !! k =
            match m !! k with
            | Some x => if P k x then None else b !! k
            | None => b !! k
            end).
  { intros H. rewrite H. destruct (m !! k) eqn:E; [|done]. by destruct (P k v). }
  intros b. revert k.
  apply (map_fold_weak_ind
           (fun r m' => forall k, r !! k =
              match m' !! k with
              | Some x => if P k x then None else b !! k
              | None => b !! k
              end)).
  - intros k. by rewrite lookup_empty.
  - intros i x m' r Hi IH k. rewrite Hf.
    destruct (decide (i = k)) as [->|Hne].
    + rewrite lookup_insert_eq. specialize (IH k). rewrite Hi in IH.
      destruct (P k x); [by rewrite lookup_delete_eq | done].
    + rewrite lookup_insert_ne by done. rewrite <- IH.
      destruct (P i x); [by rewrite lookup_delete_ne | done].
Qed.

(** Projections of an updated world. *)
Ltac world_simpl :=
  cbn [fst snd with_heap with_next_loc with_jobs with_last_purge with_cache_dir
       with_ticks with_write_calls with_env
       heap next_loc _jobs _last_purge cache_dir settings clock ticks
       disk_writable write_calls env] in *.

Section StoreFacts.
Context {J St Kw Env : Type} {job_class : JobClass J St Kw}.
Implicit Types (w : World J Env) (j : J) (l : loc) (id : UUID).

Lemma purge_memory_lookup cutoff objects (jobs : gmap UUID loc) k :
  purge_memory cutoff objects jobs !! k =
    match jobs !! k with
    | Some l => if expired cutoff objects l then None else Some l
    | None => None
    end.
Proof.
  unfold purge_memory.
  apply (purge_loop_lookup (fun _ l => expired cutoff objects l)).
  intros i x acc. unfold expired. destruct (objects !! x); [|done].
  by destruct (older_than cutoff j).
Qed.

Lemma purge_disk_lookup cutoff (files : gmap UUID file_text) k :
  purge_disk cutoff files !! k =
    match files !! k with
    | Some data => if stale cutoff data then None else Some data
    | None => None
    end.
Proof.
  unfold purge_disk.
  apply (purge_loop_lookup (fun _ data => stale cutoff data)).
  intros i x acc. unfold stale. destruct (parse_cached x); [|done].
  by destruct (older_than cutoff j).
Qed.

Lemma alter_Some {V} (f : V -> V) (m : gmap loc V) (l : loc) x :
  m !! l = Some x -> alter f l m = <[l := f x]> m.
Proof.
  intros H. apply map_eq. intros i. rewrite lookup_alter, lookup_insert.
  case_decide; [subst; by rewrite H | done].
Qed.

Lemma with_heap_insert_id w l j :
  heap w !! l = Some j -> with_heap (insert l j) w = w.
Proof.
  intros H. destruct w. unfold with_heap. simpl in *. f_equal.
  by apply insert_id.
Qed.

Lemma with_heap_insert_insert w l j j' :
  with_heap (insert l j') (with_heap (insert l j) w) = with_heap (insert l j') w.
Proof. unfold with_heap. simpl. f_equal. apply insert_insert_eq. Qed.

Lemma assign_run w l j f :
  heap w !! l = Some j ->
  assign l f w = (Return tt, with_heap (insert l (f j)) w).
Proof.
  intros H. unfold assign, modify, with_heap. by rewrite (alter_Some _ _ _ _ H).
Qed.

Lemma for_each_setattr_at kwargs : forall w l j,
  heap w !! l = Some j ->
  for_each kwargs (setattr_at l) w =
    (fst (setattrs kwargs j), with_heap (insert l (snd (setattrs kwargs j))) w).
Proof.
  induction kwargs as [|kw kwargs IH]; intros w l j H; simpl.
  - unfold ret. by rewrite with_heap_insert_id.
  - unfold bind at 1. unfold setattr_at at 1. unfold bind, get. rewrite H.
    destruct (setattr kw j) as [j'|e]; simpl.
    + unfold modify. rewrite (IH _ l j').
      * by rewrite with_heap_insert_insert.
      * simpl. apply lookup_insert_eq.
    + unfold raise. by rewrite with_heap_insert_id.
Qed.

(** *** The purge check leaves the heap and the environment alone and only
    removes entries. *)
Lemma purge_old_jobs_run w :
  purge_old_jobs w =
    (Return tt,
     let cutoff := clock w (ticks w) - minutes (job_retention_minutes (settings w)) in
     with_cache_dir (purge_disk cutoff)
       (with_jobs (purge_memory cutoff (heap w)) (with_ticks (S (ticks w)) w))).
Proof. reflexivity. Qed.

Lemma _maybe_purge_returns w : fst (_maybe_purge w) = Return tt.
Proof.
  unfold _maybe_purge, bind, utcnow, get; simpl.
  destruct (_last_purge w) as [last|]; simpl.
  - destruct (_ <? _); reflexivity.
  - reflexivity.
Qed.

Lemma _maybe_purge_run w : _maybe_purge w = (Return tt, snd (_maybe_purge w)).
Proof.
  rewrite <- (_maybe_purge_returns w). by destruct (_maybe_purge w).
Qed.

Lemma _maybe_purge_heap w : heap (snd (_maybe_purge w)) = heap w.
Proof.
  unfold _maybe_purge, bind, utcnow, get; simpl.
  destruct (_last_purge w) as [last|]; simpl; [destruct (_ <? _)|]; reflexivity.
Qed.

Lemma _maybe_purge_write_calls w :
  write_calls (snd (_maybe_purge w)) = write_calls w.
Proof.
  unfold _maybe_purge, bind, utcnow, get; simpl.
  destruct (_last_purge w) as [last|]; simpl; [destruct (_ <? _)|]; reflexivity.
Qed.


Lemma _maybe_purge_cache_dir w name data :
  cache_dir (snd (_maybe_purge w)) !! name = Some data ->
  cache_dir w !! name = Some data.
Proof.
  unfold _maybe_purge, bind, utcnow, get; simpl.
  destruct (_last_purge w) as [last|]; simpl; [destruct (_ <? _); simpl|];
    try done; rewrite purge_disk_lookup;
    destruct (cache_dir w !! name); try done; by destruct (stale _ _).
Qed.


(** *** [update_status], run on a job of the map *)
Lemma update_status_run w id l j st msg kwargs :
  _jobs w !! id = Some l ->
  heap w !! l = Some j ->
  let j1 := if truthy_str msg then set_message msg (set_status st j)
            else set_status st j in
  let j2 := snd (setattrs kwargs j1) in
  update_status id st msg kwargs w =
    match fst (setattrs kwargs j1) with
    | Raise e => (Raise e, with_heap (insert l j2) w)
    | Return _ =>
        if terminal st then
          let j3 := set_completed_at (Some (clock w (ticks w))) j2 in
          let w3 :=
            with_write_calls (write_calls w ++ [(job_id j3, json_of j3)])
              (with_heap (insert l j3) (with_ticks (S (ticks w)) w)) in
          if disk_writable w
          then (Return (Some l),
                snd (_maybe_purge
                       (with_cache_dir (insert (job_id j3) (json_of j3)) w3)))
          else (Raise OSError, w3)
        else (Return (Some l), snd (_maybe_purge (with_heap (insert l j2) w)))
    end.
Proof.
  intros Hid Hl j1 j2.
  unfold update_status. unfold bind at 1. unfold get at 1. rewrite Hid.
  rewrite (bind_Return _ _ _ _ _ (assign_run w l j (set_status st) Hl)).
  assert (H1 : (if truthy_str msg then assign l (set_message msg) else ret tt)
                 (with_heap (insert l (set_status st j)) w)
               = (Return tt, with_heap (insert l j1) w)).
  { subst j1. destruct (truthy_str msg).
    - erewrite assign_run by (simpl; apply lookup_insert_eq).
      by rewrite with_heap_insert_insert.
    - reflexivity. }
  rewrite (bind_Return _ _ _ _ _ H1).
  assert (H2 : for_each kwargs (setattr_at l) (with_heap (insert l j1) w)
               = (fst (setattrs kwargs j1), with_heap (insert l j2) w)).
  { erewrite for_each_setattr_at by (simpl; apply lookup_insert_eq).
    by rewrite with_heap_insert_insert. }
  destruct (fst (setattrs kwargs j1)) as [[]|e] eqn:E.
  2:{ by rewrite (bind_Raise _ _ _ _ _ H2). }
  rewrite (bind_Return _ _ _ _ _ H2).
  destruct (terminal st).
  - unfold bind at 1. unfold bind at 1. unfold utcnow at 1.
    erewrite bind_Return; cycle 1.
    { apply assign_run. simpl. apply lookup_insert_eq. }
    unfold _persist_job, bind at 1. unfold get at 1. world_simpl.
    rewrite lookup_insert_eq.
    unfold write_text, bind, modify, get. world_simpl.
    unfold with_cache_dir, with_write_calls, with_heap, with_ticks. world_simpl.
    rewrite insert_insert_eq.
    destruct (disk_writable w).
    + by rewrite _maybe_purge_run.
    + reflexivity.
  - unfold bind at 1. unfold ret at 1. unfold bind. rewrite _maybe_purge_run.
    reflexivity.
Qed.

(** *** Lookup *)

Lemma get_job_hydrates w id data j :
  _jobs w !! id = None ->
  cache_dir w !! id = Some data ->
  parse_cached data = Some j ->
  get_job id w =
    (Return (Some (next_loc w)),
     snd (_maybe_purge
            (with_jobs (insert (job_id j) (next_loc w))
               (with_next_loc (Pos.succ (next_loc w))
                  (with_heap (insert (next_loc w) j) w))))).
Proof.
  intros Hm Hf Hp. unfold get_job, bind, get. rewrite Hm, Hf, Hp.
  unfold new_object, modify. by rewrite _maybe_purge_run.
Qed.

(** C7 (lookup error handling): for an id with no in-memory entry,
    [get_job] returns [None] without raising; when there is no cache file
    either, nothing changes, so no disk entry is created; when the cache
    file parses as neither model, the only change is that the file is
    deleted. *)
Theorem get_job_not_found w id :
  _jobs w !! id = None ->
  (cache_dir w !! id = None -> get_job id w = (Return None, w)) /\
  (forall data, cache_dir w !! id = Some data -> parse_cached data = None ->
     get_job id w = (Return None, with_cache_dir (delete id) w)).
Proof.
  intros Hm. split.
  - intros Hf. unfold get_job, bind, get. by rewrite Hm, Hf.
  - intros data Hf Hp. unfold get_job, bind, get. by rewrite Hm, Hf, Hp.
Qed.

(** C10 (the transition never hydrates): for an id absent from the
    in-memory map, [update_status] returns [None] and changes nothing,
    neither the map nor the cache directory, even when the directory holds a
    valid file for the id, which [get_job] in the same world loads and
    returns. *)
Theorem update_status_never_hydrates w id status' message' kwargs :
  _jobs w !! id = None ->
  update_status id status' message' kwargs w = (Return None, w) /\
  (forall data j, cache_dir w !! id = Some data -> parse_cached data = Some j ->
     fst (get_job id w) = Return (Some (next_loc w)) /\
     heap (snd (get_job id w)) !! next_loc w = Some j).
Proof.
  intros Hm. split.
  - unfold update_status, bind, get. by rewrite Hm.
  - intros data j Hf Hp. rewrite (get_job_hydrates w id data j) by done.
    split; [done|]. simpl. rewrite _maybe_purge_heap. world_simpl.
    apply lookup_insert_eq.
Qed.

(** C5 (purge at the retention boundary): a purge pass takes the cutoff to
    be the clock's reading less the retention.  A job of the map whose
    [completed_at] is before the cutoff leaves the map; one whose
    [completed_at] is at or after the cutoff, or that has none, stays.  A
    cache file holding a job is deleted when the stored [completed_at] is
    before the cutoff, and stays when it is at or after the cutoff or
    absent: a file of a job that never completed is not deleted for age. *)
Theorem purge_old_jobs_retention w :
  let cutoff :=
    clock w (ticks w) - minutes (job_retention_minutes (settings w)) in
  let w' := snd (purge_old_jobs w) in
  fst (purge_old_jobs w) = Return tt /\
  (forall id l j, _jobs w !! id = Some l -> heap w !! l = Some j ->
     (forall t, completed_at j = Some t -> t < cutoff -> _jobs w' !! id = None) /\
     (forall t, completed_at j = Some t -> cutoff <= t -> _jobs w' !! id = Some l) /\
     (completed_at j = None -> _jobs w' !! id = Some l)) /\
  (forall name data j,
     cache_dir w !! name = Some data -> parse_cached data = Some j ->
     (forall t, completed_at j = Some t -> t < cutoff ->
        cache_dir w' !! name = None) /\
     (forall t, completed_at j = Some t -> cutoff <= t ->
        cache_dir w' !! name = Some data) /\
     (completed_at j = None -> cache_dir w' !! name = Some data)).
Proof.
  intros cutoff w'. subst w'. rewrite purge_old_jobs_run. cbn zeta. world_simpl.
  fold cutoff. split; [done|]. split.
  - intros id l j Hid Hl. unfold with_cache_dir, with_jobs. world_simpl.
    rewrite purge_memory_lookup, Hid. unfold expired, older_than. rewrite Hl.
    repeat split.
    + intros t -> Ht. apply Z.ltb_lt in Ht. by rewrite Ht.
    + intros t -> Ht. apply Z.ltb_ge in Ht. by rewrite Ht.
    + by intros ->.
  - intros name data j Hf Hp. unfold with_cache_dir, with_jobs. world_simpl.
    rewrite purge_disk_lookup, Hf. unfold stale, older_than. rewrite Hp.
    repeat split.
    + intros t -> Ht. apply Z.ltb_lt in Ht. by rewrite Ht.
    + intros t -> Ht. apply Z.ltb_ge in Ht. by rewrite Ht.
    + by intros ->.
Qed.


(** *** What the keyword loop leaves alone *)

Context {laws : JobLaws J St Kw}.

Lemma setattrs_status kwargs : forall j,
  status (snd (setattrs kwargs j)) = status j.
Proof.
  induction kwargs as [|kw kwargs IH]; intros j; simpl; [done|].
  destruct (setattr kw j) as [j1|e] eqn:E; simpl; [|done].
  rewrite IH. by apply status_setattr in E.
Qed.

Lemma setattrs_completed_at kwargs : forall j,
  Forall (fun kw => kwarg_key kw <> "completed_at") kwargs ->
  completed_at (snd (setattrs kwargs j)) = completed_at j.
Proof.
  induction kwargs as [|kw kwargs IH]; intros j HF; simpl; [done|].
  inversion HF; subst.
  destruct (setattr kw j) as [j1|e] eqn:E; simpl; [|done].
  rewrite IH by done. by apply completed_at_setattr in E.
Qed.

(** *** Transitions *)

(** The object that [update_status] leaves when its keyword loop ends
    without raising. *)
Lemma update_status_returned w id l j status' message' kwargs :
  _jobs w !! id = Some l ->
  heap w !! l = Some j ->
  fst (update_status id status' message' kwargs w) = Return (Some l) ->
  let j1 := if truthy_str message' then set_message message' (set_status status' j)
            else set_status status' j in
  let j2 := snd (setattrs kwargs j1) in
  let w' := snd (update_status id status' message' kwargs w) in
  if terminal status'
  then let j3 := set_completed_at (Some (clock w (ticks w))) j2 in
       heap w' !! l = Some j3 /\
       write_calls w' = (write_calls w ++ [(job_id j3, json_of j3)])%list
  else heap w' !! l = Some j2 /\
       write_calls w' = write_calls w /\
       forall name data, cache_dir w' !! name = Some data ->
                         cache_dir w !! name = Some data.
Proof.
  intros Hid Hl. rewrite (update_status_run w id l j) by done. cbn zeta.
  destruct (fst (setattrs kwargs _)) as [[]|e]; [|done].
  destruct (terminal status').
  - destruct (disk_writable w); [|done]. intros _. world_simpl.
    rewrite _maybe_purge_heap, _maybe_purge_write_calls. world_simpl.
    split; [apply lookup_insert_eq | done].
  - intros _. world_simpl.
    rewrite _maybe_purge_heap, _maybe_purge_write_calls. world_simpl.
    split; [apply lookup_insert_eq|]. split; [done|].
    intros name data H. by apply _maybe_purge_cache_dir in H.
Qed.


(** C1, as the code has it: [update_status] has no guard on the current
    status.  On a job of the map that is already in a terminal status, a
    call with a terminal status that returns leaves the job in the new
    status, with [completed_at] stamped anew with the clock's reading. *)
Theorem update_status_terminal_restamps w id l j status' message' kwargs :
  _jobs w !! id = Some l ->
  heap w !! l = Some j ->
  terminal (status j) = true ->
  terminal status' = true ->
  fst (update_status id status' message' kwargs w) = Return (Some l) ->
  let w' := snd (update_status id status' message' kwargs w) in
  exists j', heap w' !! l = Some j' /\
             status j' = status' /\
             completed_at j' = Some (clock w (ticks w)).
Proof.
  intros Hid Hl _ Hterm Hret.
  pose proof (update_status_returned _ _ _ _ _ _ _ Hid Hl Hret) as H.
  cbn zeta in *. rewrite Hterm in H. destruct H as [Hh _].
  eexists. split; [exact Hh|]. split; [|apply completed_at_set_completed_at].
  rewrite status_set_completed_at, setattrs_status.
  destruct (truthy_str message');
    by rewrite ?status_set_message, status_set_status.
Qed.

(** C8, as the code has it: nothing catches a failing [write_text].  When
    a call of [update_status] with a terminal status reaches the flush (its
    keyword loop has not raised), it returns the job if the directory takes
    the write; if not, it raises [OSError] to its caller, with the job
    already updated in memory, no file written and the purge check
    skipped. *)
Theorem update_status_write_failure_propagates w id l j status' message'
  kwargs :
  _jobs w !! id = Some l ->
  heap w !! l = Some j ->
  terminal status' = true ->
  let j1 := if truthy_str message' then set_message message' (set_status status' j)
            else set_status status' j in
  fst (setattrs kwargs j1) = Return tt ->
  let r := update_status id status' message' kwargs w in
  (disk_writable w = true -> fst r = Return (Some l)) /\
  (disk_writable w = false ->
     fst r = Raise OSError /\
     heap (snd r) !! l =
       Some (set_completed_at (Some (clock w (ticks w))) (snd (setattrs kwargs j1))) /\
     cache_dir (snd r) = cache_dir w /\
     _last_purge (snd r) = _last_purge w).
Proof.
  intros Hid Hl Hterm j1 Hkw r. subst r.
  rewrite (update_status_run w id l j) by done. cbn zeta. fold j1.
  rewrite Hkw, Hterm. split; intros ->; [done|].
  world_simpl. repeat split. apply lookup_insert_eq.
Qed.

End StoreFacts.

(** ** The two job classes *)

Lemma awx_agent_setattr kw (j j' : Job) :
  setattr kw j = Return j' ->
  status j' = status j /\
  (kwarg_key kw <> "completed_at" -> completed_at j' = completed_at j) /\
  (kwarg_key kw <> "requested_at" ->
   Job.requested_at j' = Job.requested_at j) /\
  (kwarg_key kw <> "request" -> Job.request j' = Job.request j).
Proof.
  destruct j as [a|o]; simpl.
  - destruct kw as [| | [r|r] | | | | | | | | | | | | | |]; simpl; intros H0;
      inversion H0; subst; simpl; repeat split; try done.
  - destruct kw as [| | [r|r] | | | | | | | | | | | | | |]; simpl; intros H0;
      inversion H0; subst; simpl; repeat split; try done.
Qed.

#[global] Instance awx_agent_laws : JobLaws Job AWXAgentJobStatus kwarg.
Proof.
  split.
  - by intros v [].
  - by intros v [].
  - by intros v [].
  - intros kw j j' E. by apply awx_agent_setattr in E as (? & _).
  - by intros v [].
  - by intros v [].
  - by intros v [].
  - intros kw j j' E Hk. apply awx_agent_setattr in E as (_ & Hc & _). auto.
Qed.

#[global] Instance dns_agent_laws
  : JobLaws RecordJob.t RecordJobStatus.t RecordJob.kwarg.
Proof.
  split; try (by intros v []).
  - intros [] j j' E; inversion E; by destruct j.
  - intros [] j j' E Hk; inversion E; destruct j; try done.
Qed.

(** ** Pydantic on written documents *)
Module PydanticFacts.
Import PydanticModel.

Lemma AWXAgentJobStatus_of_value s :
  AWXAgentJobStatus_of (AWXAgentJobStatus_value s) = Some s.
Proof. by destruct s. Qed.

Lemma AWXJobStatus_of_value s : AWXJobStatus_of (AWXJobStatus_value s) = Some s.
Proof. by destruct s. Qed.

Lemma p_dict_str_dump (d : list (string * string)) :
  p_dict_str (j_dict_str d) = Some d.
Proof.
  unfold p_dict_str, j_dict_str. induction d as [|[k v] d IH]; simpl; [done|].
  by rewrite IH.
Qed.

Lemma p_all_uuid (l : list N) : p_all p_uuid (map JUuid l) = Some l.
Proof. induction l as [|u l IH]; simpl; [done|]. by rewrite IH. Qed.

Lemma JobTemplateRequest_roundtrip r :
  JobTemplateRequest_validate (JobTemplateRequest_dump r) = Some r.
Proof.
  destruct r as [a b c d e f]. unfold JobTemplateRequest_validate,
    JobTemplateRequest_dump, with_default. cbn -[p_dict_str j_dict_str].
  rewrite p_dict_str_dump. by destruct a, b, d, e.
Qed.

(** [AWXJob.parse_raw] gives back the job that [json()] wrote. *)
Lemma AWXJob_roundtrip j : AWXJob_validate (AWXJob_dump j) = Some j.
Proof.
  destruct j as [a b c d e f g h i k l m n o p].
  unfold AWXJob_validate, AWXJob_dump, with_default, required.
  cbn -[JobTemplateRequest_validate JobTemplateRequest_dump p_all
        AWXAgentJobStatus_of AWXJobStatus_of].
  rewrite JobTemplateRequest_roundtrip, AWXAgentJobStatus_of_value, p_all_uuid.
  destruct d, f, g, h as [h|], i, k, l, m, o, p; cbn -[AWXJobStatus_of];
    rewrite ?AWXJobStatus_of_value; reflexivity.
Qed.

(** [AWXJob.parse_raw] also accepts what [OrchestrationJob.json()] wrote:
    the shared fields are read, the request is read as a
    [JobTemplateRequest] that keeps only [metadata], and the rest is
    ignored. *)
Lemma AWXJob_validate_OrchestrationJob_dump o :
  AWXJob_validate (OrchestrationJob_dump o) =
    Some (AWXJob.mk (OrchestrationJob.job_id o) (OrchestrationJob.status o)
            (OrchestrationJob.requested_at o) (OrchestrationJob.completed_at o)
            (JobTemplateRequest.mk None None [] None None
               (OrchestrationRequest.metadata (OrchestrationJob.request o)))
            (OrchestrationJob.message o)
            None None None None None None [] None None).
Proof.
  destruct o as [a b c d [rq cx md] f g h i k].
  unfold AWXJob_validate, OrchestrationJob_dump, with_default, required.
  cbn -[p_dict_str j_dict_str AWXAgentJobStatus_of].
  rewrite AWXAgentJobStatus_of_value, p_dict_str_dump.
  by destruct d, f.
Qed.

End PydanticFacts.

(** ** The store, run *)
Module StoreRuns.
Import PydanticModel PydanticFacts Examples.

(** C1, the claim as stated fails: the finished job, COMPLETED with
    [completed_at] at 9900 s, is FAILED with [completed_at] at 10000 s after
    [update_status(7, FAILED)]. *)
Lemma terminal_status_overwritten :
  let w' := snd (update_status 7%N FAILED None [] w_finished) in
  status <$> heap w_finished !! 1%positive = Some COMPLETED /\
  completed_at <$> heap w_finished !! 1%positive = Some (Some 9900000000) /\
  status <$> heap w' !! 1%positive = Some FAILED /\
  completed_at <$> heap w' !! 1%positive = Some (Some 10000000000).
Proof. vm_compute. repeat split. Qed.

Lemma update_status_terminal_restamps_witness :
  exists j', heap (snd (update_status 7%N CANCELED None [] w_finished)) !! 1%positive
             = Some j' /\
             status j' = CANCELED /\ completed_at j' = Some 10000000000.
Proof.
  exact (update_status_terminal_restamps w_finished 7%N 1%positive
           (IsAWXJob finished) CANCELED None ([] : list kwarg)
           eq_refl eq_refl eq_refl eq_refl eq_refl).
Defined.


(** C8, the claim as stated fails: with a directory that refuses the
    write, [update_status(7, COMPLETED)] raises [OSError] to its caller and
    returns no record. *)
Lemma write_failure_raises :
  disk_writable w_disk_full = false /\
  fst (update_status 7%N COMPLETED (Some "done") [] w_disk_full) = Raise OSError.
Proof. vm_compute. split; reflexivity. Qed.

Lemma update_status_write_failure_propagates_witness :
  (disk_writable w_disk_full = true ->
   fst (update_status 7%N FAILED (Some "failed") [] w_disk_full)
   = Return (Some 1%positive)) /\
  (disk_writable w_disk_full = false ->
   fst (update_status 7%N FAILED (Some "failed") [] w_disk_full) = Raise OSError /\
   heap (snd (update_status 7%N FAILED (Some "failed") [] w_disk_full)) !! 1%positive
   = Some (set_completed_at (Some 10000000000)
             (set_message (Some "failed") (set_status FAILED (IsAWXJob running)))) /\
   cache_dir (snd (update_status 7%N FAILED (Some "failed") [] w_disk_full)) = ∅ /\
   _last_purge (snd (update_status 7%N FAILED (Some "failed") [] w_disk_full)) = None).
Proof.
  exact (update_status_write_failure_propagates w_disk_full 7%N 1%positive
           (IsAWXJob running) FAILED (Some "failed") ([] : list kwarg)
           eq_refl eq_refl eq_refl eq_refl).
Defined.

Lemma get_job_not_found_witness :
  (cache_dir w_cold !! 9%N = None -> get_job 9%N w_cold = (Return None, w_cold)) /\
  (forall data, cache_dir w_cold !! 5%N = Some data ->
     parse_cached (J := Job) data = None ->
     get_job 5%N w_cold = (Return None, with_cache_dir (delete 5%N) w_cold)).
Proof.
  split.
  - exact (proj1 (get_job_not_found w_cold 9%N eq_refl)).
  - exact (proj2 (get_job_not_found w_cold 5%N eq_refl)).
Defined.

Lemma update_status_never_hydrates_witness :
  update_status 7%N FAILED (Some "late") [] w_cold = (Return None, w_cold) /\
  (forall data j, cache_dir w_cold !! 7%N = Some data ->
     parse_cached data = Some j ->
     fst (get_job 7%N w_cold) = Return (Some 10%positive) /\
     heap (snd (get_job 7%N w_cold)) !! 10%positive = Some j).
Proof.
  exact (update_status_never_hydrates w_cold 7%N FAILED (Some "late")
           ([] : list kwarg) eq_refl).
Defined.

(** The scenario of the specification at the boundary: after a purge pass
    the job that completed 61 minutes ago is gone from memory and disk, the
    one that completed 59 minutes ago and the running one are in both. *)
Lemma purge_old_jobs_boundary :
  let w' := snd (purge_old_jobs w_boundary) in
  (_jobs w' !! 11%N = None /\ cache_dir w' !! 11%N = None) /\
  (_jobs w' !! 12%N = Some 3%positive /\
   cache_dir w' !! 12%N = Some (Json (AWXJob_dump recent_job))) /\
  (_jobs w' !! 7%N = Some 1%positive /\
   cache_dir w' !! 7%N = Some (Json (AWXJob_dump running))).
Proof.
  pose proof (purge_old_jobs_retention w_boundary) as (_ & Hm & Hd).
  cbn zeta in *.
  destruct (Hm 11%N 2%positive (IsAWXJob old_job) eq_refl eq_refl) as (Hm11 & _).
  destruct (Hm 12%N 3%positive (IsAWXJob recent_job) eq_refl eq_refl) as (_ & Hm12 & _).
  destruct (Hm 7%N 1%positive (IsAWXJob running) eq_refl eq_refl) as (_ & _ & Hm7).
  destruct (Hd 11%N _ (IsAWXJob old_job) eq_refl eq_refl) as (Hd11 & _).
  destruct (Hd 12%N _ (IsAWXJob recent_job) eq_refl eq_refl) as (_ & Hd12 & _).
  destruct (Hd 7%N _ (IsAWXJob running) eq_refl eq_refl) as (_ & _ & Hd7).
  refine (conj (conj _ _) (conj (conj _ _) (conj _ _))).
  - apply (Hm11 6340000000); [reflexivity | vm_compute; reflexivity].
  - apply (Hd11 6340000000); [reflexivity | vm_compute; reflexivity].
  - apply (Hm12 6460000000); [reflexivity | vm_compute; discriminate].
  - apply (Hd12 6460000000); [reflexivity | vm_compute; discriminate].
  - apply Hm7; reflexivity.
  - apply Hd7; reflexivity.
Defined.

(** X4: An AWX job read back from its cache file is the job that was written,
    as an [AWXJob]. *)
Lemma awx_job_hydrates_equal {Env} (w : World Job Env) id j :
  _jobs w !! id = None ->
  cache_dir w !! id = Some (json_of (IsAWXJob j)) ->
  fst (get_job id w) = Return (Some (next_loc w)) /\
  heap (snd (get_job id w)) !! next_loc w = Some (IsAWXJob j).
Proof.
  intros Hm Hf.
  rewrite (get_job_hydrates w id _ (IsAWXJob j) Hm Hf).
  - split; [done|]. world_simpl. rewrite _maybe_purge_heap. world_simpl.
    apply lookup_insert_eq.
  - change (Job_parse_cached (Job_json (IsAWXJob j)) = Some (IsAWXJob j)).
    unfold Job_parse_cached, Job_json, AWXJob_parse_raw, AWXJob_json, parse_raw.
    by rewrite AWXJob_roundtrip.
Qed.

(** C2, where the code departs from the claim: an orchestration job read
    back from its cache file is an [AWXJob].  [get_job] tries
    [AWXJob.parse_raw] first, which accepts the document of an
    [OrchestrationJob], so the second parser is never tried: the record
    comes back under the other class, its request reduced to the metadata
    and its orchestration results dropped. *)
Theorem orchestration_job_hydrates_as_AWXJob {Env} (w : World Job Env) id o :
  _jobs w !! id = None ->
  cache_dir w !! id = Some (json_of (IsOrchestrationJob o)) ->
  fst (get_job id w) = Return (Some (next_loc w)) /\
  heap (snd (get_job id w)) !! next_loc w =
    Some (IsAWXJob
            (AWXJob.mk (OrchestrationJob.job_id o) (OrchestrationJob.status o)
               (OrchestrationJob.requested_at o)
               (OrchestrationJob.completed_at o)
               (JobTemplateRequest.mk None None [] None None
                  (OrchestrationRequest.metadata (OrchestrationJob.request o)))
               (OrchestrationJob.message o)
               None None None None None None [] None None)).
Proof.
  intros Hm Hf.
  set (j := IsAWXJob _).
  assert (Hp : parse_cached (json_of (IsOrchestrationJob o)) = Some j).
  { change (Job_parse_cached (Job_json (IsOrchestrationJob o)) = Some j).
    unfold Job_parse_cached, Job_json, AWXJob_parse_raw, OrchestrationJob_json,
      parse_raw.
    by rewrite AWXJob_validate_OrchestrationJob_dump. }
  rewrite (get_job_hydrates w id _ j Hm Hf Hp).
  split; [done|]. world_simpl. rewrite _maybe_purge_heap. world_simpl.
  apply lookup_insert_eq.
Qed.

(** The orchestration job completes and is flushed, its in-memory entry is
    removed, and [get_job] is asked for it. *)
Lemma orchestration_job_hydrates_as_AWXJob_witness :
  let w1 := snd (update_status 8%N COMPLETED
                   (Some "Orchestration completed successfully.")
                   ([] : list kwarg) w_orchestration) in
  let w2 := with_jobs (delete 8%N) w1 in
  heap w1 !! 1%positive =
    Some (IsOrchestrationJob
            (OrchestrationJob.mk 8%N COMPLETED 9000000000 (Some 10000000000)
               deploy (Some "Orchestration completed successfully.")
               [] [] None None)) /\
  fst (get_job 8%N w2) = Return (Some 10%positive) /\
  heap (snd (get_job 8%N w2)) !! 10%positive =
    Some (IsAWXJob
            (AWXJob.mk 8%N COMPLETED 9000000000 (Some 10000000000)
               (JobTemplateRequest.mk None None [] None None [("team", "ops")])
               (Some "Orchestration completed successfully.")
               None None None None None None [] None None)).
Proof.
  intros w1 w2. split; [reflexivity|].
  apply (orchestration_job_hydrates_as_AWXJob w2 8%N
           (OrchestrationJob.mk 8%N COMPLETED 9000000000 (Some 10000000000)
              deploy (Some "Orchestration completed successfully.")
              [] [] None None)); reflexivity.
Defined.

End StoreRuns.

(** ** The store of the DNS agent, run

    The same code over [RecordJob], whose terminal states are COMPLETED and
    FAILED. *)
Module RecordStoreRuns.
Import PydanticModel Examples RecordJobStatus.

(** The applied record job, COMPLETED with [completed_at] at 9900 s, is
    FAILED with [completed_at] at 10000 s after [update_status(9, FAILED)],
    and its file is rewritten. *)
Lemma record_job_status_overwritten :
  let w' := snd (update_status 9%N FAILED None [] (w_dns true)) in
  status <$> heap (w_dns true) !! 2%positive = Some COMPLETED /\
  completed_at <$> heap (w_dns true) !! 2%positive = Some (Some 9900000000) /\
  status <$> heap w' !! 2%positive = Some FAILED /\
  completed_at <$> heap w' !! 2%positive = Some (Some 10000000000) /\
  map fst (write_calls w') = [9%N].
Proof. vm_compute. repeat split. Qed.

(** A transition to a state that is not terminal writes nothing. *)
Lemma record_job_transition_not_flushed :
  let w' := snd (update_status 7%N VALIDATING (Some "Validating.") []
                   (w_dns true)) in
  status <$> heap w' !! 1%positive = Some VALIDATING /\
  completed_at <$> heap w' !! 1%positive = Some None /\
  write_calls w' = [] /\
  cache_dir w' !! 7%N = None.
Proof. vm_compute. repeat split. Qed.

(** With a directory that refuses the write, [update_status(7, COMPLETED)]
    raises [OSError] to its caller. *)
Lemma record_job_write_failure_raises :
  disk_writable (w_dns false) = false /\
  fst (update_status 7%N COMPLETED (Some "done") [] (w_dns false))
  = Raise OSError.
Proof. vm_compute. split; reflexivity. Qed.

(** A file that does not parse is deleted and the lookup reports nothing;
    an id with no file is reported as nothing. *)
Lemma record_job_not_found :
  fst (get_job 5%N (w_dns true)) = Return None /\
  cache_dir (snd (get_job 5%N (w_dns true))) !! 5%N = None /\
  fst (get_job 6%N (w_dns true)) = Return None.
Proof. vm_compute. repeat split. Qed.

(** The applied job, dropped from memory, is read back from its file by
    [get_job], and not by [update_status]. *)
Lemma record_job_hydrates :
  let w := with_jobs (delete 9%N) (w_dns true) in
  fst (update_status 9%N FAILED None [] w) = Return None /\
  fst (get_job 9%N w) = Return (Some 10%positive) /\
  heap (snd (get_job 9%N w)) !! 10%positive = Some applied.
Proof. vm_compute. repeat split. Qed.

End RecordStoreRuns.

(** ** The authenticated request *)
Module AWXAdapterFacts.
Import AWXAdapter.

Ltac adapter_simpl :=
  cbn [fst snd with_token with_requests with_time_reads username password
       _token _token_expires server requests time_time time_reads] in *.

(** [_get_token] sends no API request: at most the token request. *)
Lemma _get_token_requests a :
  requests (snd (_get_token a)) = requests a \/
  requests (snd (_get_token a)) =
    (requests a ++ [TokenPost (username a) (password a)])%list.
Proof.
  unfold _get_token, bind, now, get. adapter_simpl.
  destruct (must_refresh _ _); [|by left].
  unfold send, bind. adapter_simpl.
  destruct (server a _ _) as [rt|e]; [|by right].
  unfold raise_for_status.
  destruct (_ && _); unfold ret, raise; [|by right].
  destruct (token rt); unfold modify, raise; by right.
Qed.

Lemma _get_token_server a : server (snd (_get_token a)) = server a.
Proof.
  unfold _get_token, bind, now, get. adapter_simpl.
  destruct (must_refresh _ _); [|done].
  unfold send, bind. adapter_simpl.
  destruct (server a _ _) as [rt|e]; [|done].
  unfold raise_for_status.
  destruct (_ && _); unfold ret, raise; [|done].
  destruct (token rt); unfold modify, raise; done.
Qed.

(** With no token in hand, [_get_token] asks for one. *)
Lemma _get_token_refreshes a rt tok' :
  _token a = None ->
  server a (length (requests a)) (TokenPost (username a) (password a)) = Return rt ->
  200 <= status_code rt <= 299 ->
  token rt = Some tok' ->
  _get_token a =
    (Return (Some tok'),
     with_token (Some tok') (Some (time_time a (time_reads a) + 3600 * 1000000))
       (with_requests (requests a ++ [TokenPost (username a) (password a)])
          (with_time_reads (S (time_reads a)) a))).
Proof.
  intros Hnone Hs [Hlo Hhi] Htok.
  unfold _get_token, bind, now, get. adapter_simpl.
  unfold must_refresh. adapter_simpl. rewrite Hnone.
  unfold send. adapter_simpl. rewrite Hs.
  unfold raise_for_status.
  apply Z.leb_le in Hlo, Hhi. rewrite Hlo, Hhi. cbn [andb]. unfold ret.
  rewrite Htok. unfold modify. adapter_simpl. reflexivity.
Qed.


Lemma _get_token_count_calls a :
  count_calls (requests (snd (_get_token a))) = count_calls (requests a).
Proof.
  destruct (_get_token_requests a) as [-> | ->]; [done|].
  unfold count_calls. rewrite List.filter_app. simpl.
  by rewrite app_nil_r.
Qed.

Lemma send_count_calls a s :
  count_calls (requests (snd (send s a))) = (count_calls (requests a) + if is_call s then 1 else 0)%nat.
Proof.
  unfold send, count_calls. adapter_simpl. rewrite List.filter_app. simpl.
  destruct (is_call s); simpl; rewrite ?length_app; simpl; lia.
Qed.

(** One call of [_request] sends at most two API requests. *)
Lemma _request_count_calls method path payload a :
  (count_calls (requests (snd (_request method path payload a)))
   <= count_calls (requests a) + 2)%nat.
Proof.
  unfold _request. unfold bind at 1.
  pose proof (_get_token_count_calls a) as H0.
  destruct (_get_token a) as [[tok|e] a1]; adapter_simpl; [|lia].
  unfold bind at 1.
  pose proof (send_count_calls a1 (Call method path tok payload)) as H1.
  destruct (send _ a1) as [[r1|e] a2]; adapter_simpl; cbn [is_call] in H1; [|lia].
  unfold bind at 1.
  destruct (status_code r1 =? 401).
  - unfold bind at 1. unfold modify at 1.
    pose proof (_get_token_count_calls (with_token None None a2)) as H2.
    adapter_simpl. unfold bind at 1.
    destruct (_get_token (with_token None None a2)) as [[tok'|e] a3];
      adapter_simpl; [|lia].
    pose proof (send_count_calls a3 (Call method path tok' payload)) as H3.
    destruct (send _ a3) as [[r2|e] a4]; adapter_simpl; cbn [is_call] in H3; [|lia].
    unfold raise_for_status, bind.
    destruct (_ && _); unfold ret, raise; adapter_simpl; lia.
  - unfold ret at 1. unfold raise_for_status, bind.
    destruct (_ && _); unfold ret, raise; adapter_simpl; lia.
Qed.

(** C6 (auth-retry): once [_request] holds a token, a 401 answer makes it
    drop the token, fetch a new one and send the request again with it,
    once.  The second answer decides: a success is returned to the caller,
    a second 401 is raised as [HTTPStatusError].  The requests sent are the
    first attempt, the token request and the second attempt, and in no
    state does one call of [_request] send more than two API requests. *)
Theorem _request_retries_once a a1 tok method path payload r1 rt tok' r2 :
  _get_token a = (Return tok, a1) ->
  server a (length (requests a1)) (Call method path tok payload) = Return r1 ->
  status_code r1 = 401 ->
  server a (S (length (requests a1))) (TokenPost (username a1) (password a1))
  = Return rt ->
  200 <= status_code rt <= 299 ->
  token rt = Some tok' ->
  server a (S (S (length (requests a1)))) (Call method path (Some tok') payload)
  = Return r2 ->
  let out := _request method path payload a in
  requests (snd out) =
    (requests a1 ++ [Call method path tok payload;
                     TokenPost (username a1) (password a1);
                     Call method path (Some tok') payload])%list /\
  _token (snd out) = Some tok' /\
  (200 <= status_code r2 <= 299 -> fst out = Return r2) /\
  (status_code r2 = 401 -> fst out = Raise (HTTPStatusError 401)) /\
  (forall a0, (count_calls (requests (snd (_request method path payload a0)))
               <= count_calls (requests a0) + 2)%nat).
Proof.
  intros H0 Hs1 H401 Hst Hrt Htok Hs2 out.
  assert (Hsrv : server a1 = server a).
  { rewrite <- (_get_token_server a). by rewrite H0. }
  assert (Hrun : exists a', out =
            (if (200 <=? status_code r2) && (status_code r2 <=? 299)
             then Return r2 else Raise (HTTPStatusError (status_code r2)), a') /\
            requests a' =
              (requests a1 ++ [Call method path tok payload;
                               TokenPost (username a1) (password a1);
                               Call method path (Some tok') payload])%list /\
            _token a' = Some tok').
  { subst out. unfold _request. rewrite (bind_Return _ _ _ _ _ H0).
    unfold bind at 1. unfold send at 1. rewrite Hsrv, Hs1.
    unfold bind at 1. rewrite H401. cbn [Z.eqb Pos.eqb].
    unfold bind at 1. unfold modify at 1.
    erewrite bind_Return; cycle 1.
    { apply (_get_token_refreshes _ rt tok'); adapter_simpl;
        [done | | done | done].
      rewrite Hsrv, length_app. simpl. by rewrite Nat.add_1_r. }
    unfold send at 1. adapter_simpl.
    rewrite Hsrv, !length_app. simpl. rewrite !Nat.add_1_r, Hs2.
    rewrite <- !app_assoc. simpl.
    unfold raise_for_status, bind.
    destruct ((200 <=? status_code r2) && (status_code r2 <=? 299));
      unfold ret, raise; eexists; (split; [reflexivity|]); adapter_simpl; done. }
  destruct Hrun as (a' & -> & Hreq & Htk). adapter_simpl.
  split; [done|]. split; [done|]. split; [|split].
  - intros [Hlo Hhi]. apply Z.leb_le in Hlo, Hhi. by rewrite Hlo, Hhi.
  - by intros ->.
  - apply _request_count_calls.
Qed.

Import Examples.

Lemma _request_retries_once_witness :
  let out := _request "GET" "/api/v2/jobs/31/" JNull (adapter expired_once) in
  requests (snd out) =
    ([] ++ [Call "GET" "/api/v2/jobs/31/" (Some "t1") JNull;
            TokenPost "holmes" "secret";
            Call "GET" "/api/v2/jobs/31/" (Some "t2") JNull])%list /\
  _token (snd out) = Some "t2" /\
  (200 <= 200 <= 299 -> fst out = Return ok) /\
  (200 = 401 -> fst out = Raise (HTTPStatusError 401)) /\
  (forall a0,
     (count_calls (requests (snd (_request "GET" "/api/v2/jobs/31/" JNull a0)))
      <= count_calls (requests a0) + 2)%nat).
Proof.
  apply (_request_retries_once (adapter expired_once)
           (with_time_reads 1 (adapter expired_once)) (Some "t1")
           "GET" "/api/v2/jobs/31/" JNull unauthorized new_token "t2" ok);
    try reflexivity.
  vm_compute. split; discriminate.
Defined.

(** Two 401 answers in a row: the error reaches the caller after the second
    attempt, and the server has seen two API requests and one token
    request. *)
Lemma _request_rejected_twice :
  let out := _request "GET" "/api/v2/jobs/31/" JNull (adapter rejected_twice) in
  fst out = Raise (HTTPStatusError 401) /\
  requests (snd out) =
    [Call "GET" "/api/v2/jobs/31/" (Some "t1") JNull;
     TokenPost "holmes" "secret";
     Call "GET" "/api/v2/jobs/31/" (Some "t2") JNull].
Proof. vm_compute. split; reflexivity. Qed.

End AWXAdapterFacts.


(** ** The workers *)

Lemma hoare_bind {W A B} (P : W -> Prop) (c : M W A)
  (k : A -> M W B)
  (Q1 : outcome A -> W -> Prop) (Q : outcome B -> W -> Prop) :
  hoare P c Q1 ->
  (forall a, hoare (Q1 (Return a)) (k a) Q) ->
  (forall e w, Q1 (Raise e) w -> Q (Raise e) w) ->
  hoare P (bind c k) Q.
Proof.
  intros Hc Hk He w Hw. unfold bind. specialize (Hc w Hw).
  destruct (c w) as [[a|e] w1]; simpl in *.
  - by apply Hk.
  - by apply He.
Qed.






Section StoreEnv.
Context {J St Kw Env : Type} {job_class : JobClass J St Kw}.
Context {laws : JobLaws J St Kw}.
Implicit Types (w : World J Env) (j : J) (l : loc) (id : UUID).

Lemma _maybe_purge_env w : env (snd (_maybe_purge w)) = env w.
Proof.
  unfold _maybe_purge, bind, utcnow, get; simpl.
  destruct (_last_purge w) as [last|]; simpl; [destruct (_ <? _)|]; reflexivity.
Qed.

(** The store leaves the surroundings of the service alone. *)
Lemma update_status_env w id l j status' message' kwargs :
  _jobs w !! id = Some l ->
  heap w !! l = Some j ->
  env (snd (update_status id status' message' kwargs w)) = env w.
Proof.
  intros Hid Hl. rewrite (update_status_run w id l j) by done. cbn zeta.
  destruct (fst (setattrs kwargs _)) as [[]|e]; [|done].
  destruct (terminal status'); [destruct (disk_writable w)|];
    world_simpl; by rewrite ?_maybe_purge_env.
Qed.

End StoreEnv.

Section WorkerFacts.
Implicit Types (w : AWXWorld) (l : loc) (id : UUID).































End WorkerFacts.

(** ** The workers, run *)
Module WorkerRuns.
Import PydanticModel Examples.



(** C3, where the code departs from the claim.  The request decomposes
    into two steps; the launch of the first is refused.  No second step is
    launched (three adapter calls: two template searches and the refused
    launch), and the worker, which never reads the error that the
    orchestrator reports, ends the job COMPLETED, with no AWX job
    recorded. *)
Theorem orchestration_step_failure_ends_completed :
  let r := process_orchestration_job 8%N (w_orchestrating awx_refusing) in
  fst r = Return tt /\
  awx_calls (env (snd r)) = 3%nat /\
  exists o, heap (snd r) !! 1%positive = Some (IsOrchestrationJob o) /\
    OrchestrationJob.status o = COMPLETED /\
    OrchestrationJob.message o
    = Some "Orchestration completed (no AWX jobs launched)." /\
    OrchestrationJob.awx_jobs o = [] /\
    length (OrchestrationJob.decomposed_tasks o) = 2%nat /\
    (dict_get "status" <$> OrchestrationJob.decomposed_tasks o !! 0%nat)
    = Some (Some (JStr "failed")) /\
    OrchestrationJob.llm_error o = None.
Proof.
  vm_compute. split; [reflexivity|]. split; [reflexivity|].
  eexists. split; [reflexivity|]. repeat split.
Qed.

(** The same when the first step is launched and its AWX job fails: the
    second step is not launched (four adapter calls) and the job ends
    COMPLETED, with the failed AWX job as its one child. *)
Lemma orchestration_failed_job_ends_completed :
  let r := process_orchestration_job 8%N (w_orchestrating (awx_with "failed")) in
  fst r = Return tt /\
  awx_calls (env (snd r)) = 4%nat /\
  exists o, heap (snd r) !! 1%positive = Some (IsOrchestrationJob o) /\
    OrchestrationJob.status o = COMPLETED /\
    OrchestrationJob.message o = Some "Orchestration completed successfully." /\
    map AWXJob.awx_job_id (OrchestrationJob.awx_jobs o) = [Some 31] /\
    (dict_get "awx_status" <$> OrchestrationJob.decomposed_tasks o !! 0%nat)
    = Some (Some (JStr "failed")).
Proof.
  vm_compute. split; [reflexivity|]. split; [reflexivity|].
  eexists. split; [reflexivity|]. repeat split.
Qed.

End WorkerRuns.

Section StartupFacts.
Context {J St Kw Env : Type} {job_class : JobClass J St Kw}.
Implicit Types (w : World J Env) (j : J) (l : loc) (id : UUID).

(** A job that has not completed is out of the reach of the purge check. *)
Lemma _maybe_purge_keeps_uncompleted w id l j :
  _jobs w !! id = Some l ->
  heap w !! l = Some j ->
  completed_at j = None ->
  _jobs (snd (_maybe_purge w)) !! id = Some l.
Proof.
  intros Hid Hl Hc.
  assert (He : forall cutoff, expired cutoff (heap w) l = false).
  { intros cutoff. unfold expired, older_than. by rewrite Hl, Hc. }
  unfold _maybe_purge, bind, utcnow, get; simpl.
  destruct (_last_purge w) as [last|]; simpl; [destruct (_ <? _); simpl|];
    try done; by rewrite purge_memory_lookup, Hid, He.
Qed.

Lemma get_job_hit w id l :
  _jobs w !! id = Some l -> get_job id w = (Return (Some l), w).
Proof. intros H. unfold get_job, bind, get. by rewrite H. Qed.

(** X1: [add_job] returns the job it was given and leaves no cache file under
    the id of the job; a job that has not completed is then in the map
    under its id, where [get_job] finds that same object and changes
    nothing. *)
Theorem add_job_registers w l j :
  heap w !! l = Some j ->
  let w' := snd (add_job l w) in
  fst (add_job l w) = Return l /\
  heap w' = heap w /\
  cache_dir w' !! job_id j = None /\
  (completed_at j = None ->
   _jobs w' !! job_id j = Some l /\
   get_job (job_id j) w' = (Return (Some l), w')).
Proof.
  intros Hl.
  set (w1 := with_jobs (insert (job_id j) l) w).
  set (w2 := snd (_maybe_purge w1)).
  assert (Hrun : add_job l w =
                 (Return l,
                  if bool_decide (is_Some (cache_dir w2 !! job_id j))
                  then with_cache_dir (delete (job_id j)) w2 else w2)).
  { unfold add_job, bind, get. rewrite Hl. unfold modify. fold w1.
    rewrite _maybe_purge_run. fold w2. by case_bool_decide. }
  assert (Hj : completed_at j = None -> _jobs w2 !! job_id j = Some l).
  { intros Hc. apply (_maybe_purge_keeps_uncompleted w1 _ l j); [|done|done].
    subst w1. world_simpl. apply lookup_insert_eq. }
  assert (Hh : heap w2 = heap w).
  { subst w2. by rewrite _maybe_purge_heap. }
  rewrite Hrun. cbn zeta. world_simpl. split; [done|].
  case_bool_decide as Hfile; world_simpl.
  - split; [done|]. split; [apply lookup_delete_eq|].
    intros Hc. split; [by apply Hj|]. apply get_job_hit. world_simpl.
    by apply Hj.
  - split; [done|]. split; [by apply eq_None_not_Some|].
    intros Hc. split; [by apply Hj|]. apply get_job_hit. by apply Hj.
Qed.

Lemma named_by_job_id_lookup (files : gmap UUID file_text) name data j :
  named_by_job_id files = true ->
  files !! name = Some data ->
  parse_cached data = Some j ->
  job_id j = name.
Proof.
  unfold named_by_job_id. rewrite forallb_forall. intros Hall Hf Hp.
  specialize (Hall (name, data)). simpl in Hall. rewrite Hp in Hall.
  apply N.eqb_eq, Hall. apply list_elem_of_In. by apply elem_of_map_to_list.
Qed.

(** The loop of [_load_cached_jobs] over a listing without repeated names, in
    which every readable file sits under its job's id. *)
Lemma load_loop cutoff files : forall w,
  NoDup (fst <$> files) ->
  (forall name data j, (name, data) ∈ files -> parse_cached data = Some j ->
                       job_id j = name) ->
  let r := for_each files (load_cache_file cutoff) w in
  fst r = Return tt /\
  (next_loc w <= next_loc (snd r))%positive /\
  (forall l, (l < next_loc w)%positive -> heap (snd r) !! l = heap w !! l) /\
  (forall id,
     ((forall data, (id, data) ∉ files) ->
      _jobs (snd r) !! id = _jobs w !! id /\
      cache_dir (snd r) !! id = cache_dir w !! id) /\
     (forall data, (id, data) ∈ files -> stale cutoff data = true ->
      _jobs (snd r) !! id = _jobs w !! id /\
      cache_dir (snd r) !! id = None) /\
     (forall data j, (id, data) ∈ files -> parse_cached data = Some j ->
      older_than cutoff j = false ->
      exists l, (next_loc w <= l)%positive /\
                _jobs (snd r) !! id = Some l /\
                heap (snd r) !! l = Some j /\
                cache_dir (snd r) !! id = cache_dir w !! id)).
Proof.
  induction files as [|[n d] files IH]; intros w Hnd Hid; cbn zeta.
  { simpl. split; [done|]. split; [lia|]. split; [done|]. intros id.
    split; [done|]. split.
    - intros data Hin. by apply elem_of_nil in Hin.
    - intros data j Hin. by apply elem_of_nil in Hin. }
  simpl in Hnd. apply NoDup_cons in Hnd as [Hn Hnd].
  assert (Hn' : forall data, (n, data) ∉ files).
  { intros data Hin. apply Hn. apply list_elem_of_fmap. by exists (n, data). }
  assert (Hid' : forall name data j, (name, data) ∈ files ->
                   parse_cached data = Some j -> job_id j = name).
  { intros name data j Hin. apply Hid. by right. }
  assert (H1 : exists w1,
    load_cache_file cutoff (n, d) w = (Return tt, w1) /\
    (next_loc w <= next_loc w1)%positive /\
    (forall l, (l < next_loc w)%positive -> heap w1 !! l = heap w !! l) /\
    (forall id, id <> n -> _jobs w1 !! id = _jobs w !! id /\
                           cache_dir w1 !! id = cache_dir w !! id) /\
    (stale cutoff d = true ->
     _jobs w1 !! n = _jobs w !! n /\ cache_dir w1 !! n = None) /\
    (forall j, parse_cached d = Some j -> older_than cutoff j = false ->
     _jobs w1 !! n = Some (next_loc w) /\
     heap w1 !! next_loc w = Some j /\
     (next_loc w < next_loc w1)%positive /\
     cache_dir w1 !! n = cache_dir w !! n)).
  { unfold load_cache_file, stale. cbn [fst snd].
    destruct (parse_cached d) as [j|] eqn:Hp.
    - specialize (Hid n d j (list_elem_of_here _ _) Hp).
      destruct (older_than cutoff j) eqn:Ho.
      + eexists. split; [reflexivity|]. world_simpl.
        split; [lia|]. split; [done|].
        split; [intros id Hne; by rewrite lookup_delete_ne|].
        split; [intros _; by rewrite lookup_delete_eq|].
        intros j' Hj'. inversion Hj'; subst j'. congruence.
      + eexists. split; [reflexivity|]. world_simpl.
        split; [lia|].
        split; [intros l Hlt; rewrite lookup_insert_ne by lia; done|].
        split; [intros id Hne; rewrite Hid, lookup_insert_ne by done; done|].
        split; [done|].
        intros j' Hj' _. inversion Hj'; subst j'.
        rewrite Hid, !lookup_insert_eq. repeat split; lia || done.
    - eexists. split; [reflexivity|]. world_simpl.
      split; [lia|]. split; [done|].
      split; [intros id Hne; by rewrite lookup_delete_ne|].
      split; [intros _; by rewrite lookup_delete_eq|]. done. }
  destruct H1 as (w1 & Hrun & Hnl & Hheap & Hother & Hstale & Hfresh).
  replace (for_each ((n, d) :: files) (load_cache_file cutoff) w)
    with (for_each files (load_cache_file cutoff) w1)
    by (cbn [for_each]; unfold bind; by rewrite Hrun).
  destruct (IH w1 Hnd Hid') as (Hret & Hnl' & Hheap' & Hfiles). cbn zeta in *.
  split; [done|]. split; [lia|].
  split; [intros l Hlt; rewrite Hheap' by lia; by apply Hheap|].
  intros id. destruct (Hfiles id) as (Ha & Hb & Hc).
  split; [|split].
  - intros Hnot. assert (id <> n).
    { intros ->. apply (Hnot d). by left. }
    destruct Ha as [-> ->]; [|by apply Hother].
    intros data Hin. apply (Hnot data). by right.
  - intros data Hin Hst. apply elem_of_cons in Hin as [Heq|Hin].
    + inversion Heq; subst id data. destruct (Ha Hn') as [-> ->].
      by apply Hstale.
    + assert (id <> n) by (intros ->; by apply (Hn' data)).
      destruct (Hb data Hin Hst) as [-> ->]. split; [by apply Hother|done].
  - intros data j Hin Hp Ho. apply elem_of_cons in Hin as [Heq|Hin].
    + inversion Heq; subst id data. destruct (Ha Hn') as [-> ->].
      destruct (Hfresh j Hp Ho) as (Hm & Hh & Hlt & Hc').
      exists (next_loc w). split; [lia|]. split; [done|].
      split; [by rewrite Hheap'|done].
    + assert (id <> n) by (intros ->; by apply (Hn' data)).
      destruct (Hc data j Hin Hp Ho) as (l & Hle & Hm & Hh & Hcd).
      exists l. split; [lia|]. split; [done|]. split; [done|].
      rewrite Hcd. by apply Hother.
Qed.

Lemma load_loop_last_purge cutoff files : forall w,
  _last_purge (snd (for_each files (load_cache_file cutoff) w)) = _last_purge w.
Proof.
  induction files as [|[n d] files IH]; intros w; [done|].
  cbn [for_each]. unfold bind.
  destruct (load_cache_file cutoff (n, d) w) as [[[]|e] w1] eqn:E.
  - rewrite IH. revert E. unfold load_cache_file. cbn [fst snd].
    destruct (parse_cached d) as [j|]; [destruct (older_than cutoff j)|];
      intros E; inversion E; done.
  - revert E. unfold load_cache_file. cbn [fst snd].
    destruct (parse_cached d) as [j|]; [destruct (older_than cutoff j)|];
      intros E; inversion E.
Qed.

(** X2: Start of the process: the map holds the jobs of the cache files that
    parse and are within retention, each equal to what its file holds and
    found by [get_job] without another read; every other file is deleted
    and nothing else is in the map. *)
Theorem init_loads_cache w :
  named_by_job_id (cache_dir w) = true ->
  let cutoff :=
    clock w (ticks w) - minutes (job_retention_minutes (settings w)) in
  let w' := snd (__init__ w) in
  fst (__init__ w) = Return tt /\
  _last_purge w' = None /\
  forall id,
    match cache_dir w !! id with
    | Some data =>
        match parse_cached data with
        | Some j =>
            if older_than cutoff j
            then _jobs w' !! id = None /\ cache_dir w' !! id = None
            else exists l, _jobs w' !! id = Some l /\
                           heap w' !! l = Some j /\
                           cache_dir w' !! id = Some data /\
                           get_job id w' = (Return (Some l), w')
        | None => _jobs w' !! id = None /\ cache_dir w' !! id = None
        end
    | None => _jobs w' !! id = None /\ cache_dir w' !! id = None
    end.
Proof.
  intros Hnamed. cbn zeta.
  set (cutoff := clock w (ticks w) - minutes (job_retention_minutes (settings w))).
  set (w0 := with_ticks (S (ticks w))
               (with_last_purge None (with_jobs (fun _ => ∅) w))).
  assert (Hrun : __init__ w =
                 for_each (map_to_list (cache_dir w)) (load_cache_file cutoff) w0)
    by reflexivity.
  rewrite Hrun.
  destruct (load_loop cutoff (map_to_list (cache_dir w)) w0) as
    (Hret & _ & _ & Hfiles).
  { apply NoDup_fst_map_to_list. }
  { intros name data j Hin. apply elem_of_map_to_list in Hin.
    by apply (named_by_job_id_lookup (cache_dir w) name data j). }
  cbn zeta in Hfiles. split; [done|].
  split; [by rewrite load_loop_last_purge|].
  intros id. destruct (Hfiles id) as (Ha & Hb & Hc).
  destruct (cache_dir w !! id) as [data|] eqn:Hf.
  - assert (Hin : (id, data) ∈ map_to_list (cache_dir w))
      by by apply elem_of_map_to_list.
    destruct (parse_cached data) as [j|] eqn:Hp.
    + destruct (older_than cutoff j) eqn:Ho.
      * apply (Hb data Hin). unfold stale. by rewrite Hp.
      * destruct (Hc data j Hin Hp Ho) as (l & _ & Hm & Hh & Hcd).
        exists l. split; [done|]. split; [done|].
        split; [by rewrite Hcd|]. by apply get_job_hit.
    + apply (Hb data Hin). unfold stale. by rewrite Hp.
  - destruct Ha as [-> ->]; [|done].
    intros data Hin. apply elem_of_map_to_list in Hin. congruence.
Qed.

End StartupFacts.

Section TransitionErrors.
Context {J St Kw Env : Type} {job_class : JobClass J St Kw}.
Context {laws : JobLaws J St Kw}.
Implicit Types (w : World J Env) (j : J) (l : loc) (id : UUID).

(** X3: A keyword that [setattr] refuses ends [update_status] with the error of
    [setattr]: the object keeps the new status, the message and the
    keywords applied before the refused one, and that is all that has
    happened: no [completed_at] stamp, no write, no purge check. *)
Theorem update_status_keyword_error w id l j status' message' kwargs e :
  _jobs w !! id = Some l ->
  heap w !! l = Some j ->
  let j1 := if truthy_str message'
            then set_message message' (set_status status' j)
            else set_status status' j in
  fst (setattrs kwargs j1) = Raise e ->
  let r := update_status id status' message' kwargs w in
  fst r = Raise e /\
  snd r = with_heap (insert l (snd (setattrs kwargs j1))) w /\
  status (snd (setattrs kwargs j1)) = status' /\
  (Forall (fun kw => kwarg_key kw <> "completed_at") kwargs ->
   completed_at (snd (setattrs kwargs j1)) = completed_at j).
Proof.
  intros Hid Hl j1 He r. subst r.
  rewrite (update_status_run w id l j) by done. cbn zeta. fold j1.
  rewrite He. split; [done|]. split; [done|].
  rewrite setattrs_status. split.
  - subst j1. destruct (truthy_str message');
      by rewrite ?status_set_message, status_set_status.
  - intros Hkw. rewrite setattrs_completed_at by done.
    subst j1. destruct (truthy_str message');
      by rewrite ?completed_at_set_message, completed_at_set_status.
Qed.

End TransitionErrors.

Module StartupRuns.
Import PydanticModel Examples.

(** The running job, added again, with a stale file under its id. *)
Lemma add_job_registers_witness :
  let w := with_cache_dir (insert 7%N (NotJson "{")) w_running in
  let w' := snd (add_job 1%positive w) in
  fst (add_job 1%positive w) = Return 1%positive /\
  heap w' = heap w /\
  cache_dir w' !! 7%N = None /\
  (completed_at (IsAWXJob running) = None ->
   _jobs w' !! 7%N = Some 1%positive /\
   get_job 7%N w' = (Return (Some 1%positive), w')).
Proof.
  exact (add_job_registers
           (with_cache_dir (insert 7%N (NotJson "{")) w_running)
           1%positive (IsAWXJob running) eq_refl).
Defined.

(** A process started next to the file of the finished job and a file that
    is not JSON. *)
Lemma init_loads_cache_witness :
  let w' := snd (__init__ w_cold) in
  (exists l, _jobs w' !! 7%N = Some l /\
             heap w' !! l = Some (IsAWXJob finished) /\
             cache_dir w' !! 7%N = Some (Json (AWXJob_dump finished)) /\
             get_job 7%N w' = (Return (Some l), w')) /\
  (_jobs w' !! 5%N = None /\ cache_dir w' !! 5%N = None).
Proof.
  pose proof (init_loads_cache w_cold eq_refl) as (_ & _ & H).
  split; [exact (H 7%N) | exact (H 5%N)].
Defined.

(** [awx_job_id] is no field of an orchestration job. *)
Lemma update_status_keyword_error_witness :
  let kwargs := [kw_llm_response (Some "ok"); kw_awx_job_id (Some 31)] in
  let r := update_status 8%N MONITORING (Some "Launched.") kwargs
             w_orchestration in
  fst r = Raise no_field /\
  heap (snd r) !! 1%positive =
    Some (IsOrchestrationJob
            (OrchestrationJob.set_llm_response (Some "ok")
               (OrchestrationJob.set_message (Some "Launched.")
                  (OrchestrationJob.set_status MONITORING orchestration)))).
Proof.
  destruct (update_status_keyword_error (job_class := awx_agent_jobs)
              w_orchestration 8%N 1%positive
              (IsOrchestrationJob orchestration) MONITORING (Some "Launched.")
              [kw_llm_response (Some "ok"); kw_awx_job_id (Some 31)] no_field
              eq_refl eq_refl eq_refl) as (H1 & H2 & _).
  cbn zeta. split; [exact H1|]. rewrite H2. reflexivity.
Defined.

End StartupRuns.

(** ** Strings *)

Lemma lower_ascii_idem c : lower_ascii (lower_ascii c) = lower_ascii c.
Proof. destruct c as [[] [] [] [] [] [] [] []]; reflexivity. Qed.

Lemma lower_ascii_dot c :
  Ascii.eqb (lower_ascii c) "." = Ascii.eqb c ".".
Proof. destruct c as [[] [] [] [] [] [] [] []]; reflexivity. Qed.

Lemma lower_idem s : lower (lower s) = lower s.
Proof. induction s as [|c s IH]; simpl; [done|]. by rewrite lower_ascii_idem, IH. Qed.

Lemma rstrip_dots_lower s : rstrip_dots (lower s) = lower (rstrip_dots s).
Proof.
  induction s as [|c s IH]; simpl; [done|]. rewrite IH.
  destruct (rstrip_dots s) as [|c' s']; simpl.
  - rewrite lower_ascii_dot. by destruct (Ascii.eqb c ".").
  - done.
Qed.

Lemma rstrip_dots_idem s : rstrip_dots (rstrip_dots s) = rstrip_dots s.
Proof.
  induction s as [|c s IH]; simpl; [done|].
  destruct (rstrip_dots s) as [|c' s'] eqn:E.
  - destruct (Ascii.eqb c ".") eqn:Ec; simpl; [done|]. by rewrite Ec.
  - simpl in *. by rewrite IH.
Qed.

Module ModelFacts.
Import PydanticModel PydanticFacts.

Lemma RecordType_of_value t : RecordType.of_value (RecordType.value t) = Some t.
Proof. by destruct t. Qed.

Lemma RecordJobStatus_of_value s :
  RecordJobStatus.of_value (RecordJobStatus.value s) = Some s.
Proof. by destruct s. Qed.

Lemma p_all_str (l : list string) : p_all p_str (map JStr l) = Some l.
Proof. induction l as [|u l IH]; simpl; [done|]. by rewrite IH. Qed.

Lemma p_all_dict_any (l : list dict_any) :
  p_all p_dict_any (map JObj l) = Some l.
Proof. induction l as [|u l IH]; simpl; [done|]. by rewrite IH. Qed.

Lemma p_all_AWXJob (l : list AWXJob.t) :
  p_all AWXJob_validate (map AWXJob_dump l) = Some l.
Proof.
  induction l as [|u l IH]; [done|].
  cbn [map p_all]. by rewrite AWXJob_roundtrip, IH.
Qed.

(** What [lower_case_fqdn] lets through is in lower case and ends in no
    dot. *)
Lemma lower_case_fqdn_normal v s :
  lower_case_fqdn v = Some s -> lower s = s /\ rstrip_dots s = s.
Proof.
  unfold lower_case_fqdn. destruct (p_str v) as [value|]; [|done].
  destruct (contains "." value); [|done]. intros H; inversion H; subst s.
  split; [apply lower_idem|].
  by rewrite rstrip_dots_lower, rstrip_dots_idem.
Qed.

Lemma p_ttl_range v n : p_ttl v = Some n -> 1 <= n <= 86400.
Proof.
  unfold p_ttl. destruct (p_int v) as [m|]; [|done].
  destruct (1 <=? m) eqn:E1; [|done]. destruct (m <=? 86400) eqn:E2; [|done].
  simpl. intros H; inversion H; subst. lia.
Qed.

(** X6: A document with an ASCII zone and name and a TTL that, when it
    is given, is a JSON integer (no coercion is modelled), when
    [RecordRequest] accepts it, gives a request with the zone and the name
    in lower case and without a trailing dot, and a TTL between 1 and
    86400, which is 60 when the document has none. *)
Theorem RecordRequest_validate_normalizes v r :
  ascii_member "zone" v = true ->
  ascii_member "name" v = true ->
  int_member "ttl" v = true ->
  RecordRequest_validate v = Some r ->
  (lower (RecordRequest.zone r) = RecordRequest.zone r /\
   rstrip_dots (RecordRequest.zone r) = RecordRequest.zone r) /\
  (lower (RecordRequest.name r) = RecordRequest.name r /\
   rstrip_dots (RecordRequest.name r) = RecordRequest.name r) /\
  1 <= RecordRequest.ttl r <= 86400 /\
  (has_member "ttl" v = false -> RecordRequest.ttl r = 60).
Proof.
  intros _ _ _.
  unfold RecordRequest_validate, has_member.
  destruct v as [| | | | | | |kvs]; try done.
  destruct (required lower_case_fqdn "zone" kvs) as [a|] eqn:Ea; [|done].
  destruct (required lower_case_fqdn "name" kvs) as [b|] eqn:Eb; [|done].
  destruct (with_default p_RecordType _ _ kvs) as [c|]; [|done].
  destruct (required p_str _ kvs) as [d|]; [|done].
  destruct (with_default p_ttl _ _ kvs) as [e|] eqn:Ee; [|done].
  destruct (with_default p_dict_str _ _ kvs) as [f|]; [|done].
  intros H; inversion H; subst r; simpl.
  unfold required in Ea, Eb. unfold with_default in Ee.
  destruct (lookup_key "zone" kvs); [|done].
  destruct (lookup_key "name" kvs); [|done].
  split; [by eapply lower_case_fqdn_normal|].
  split; [by eapply lower_case_fqdn_normal|].
  destruct (lookup_key "ttl" kvs).
  - split; [by eapply p_ttl_range | done].
  - inversion Ee. split; [lia | done].
Qed.

Lemma RecordRequest_validate_dump r :
  RecordRequest_validate (RecordRequest_dump r) =
    if contains "." (RecordRequest.zone r) && contains "." (RecordRequest.name r)
       && ((1 <=? RecordRequest.ttl r) && (RecordRequest.ttl r <=? 86400))
    then Some (RecordRequest.mk
                 (lower (rstrip_dots (RecordRequest.zone r)))
                 (lower (rstrip_dots (RecordRequest.name r)))
                 (RecordRequest.record_type r) (RecordRequest.content r)
                 (RecordRequest.ttl r) (RecordRequest.metadata r))
    else None.
Proof.
  destruct r as [z n t c l m].
  unfold RecordRequest_validate, RecordRequest_dump, with_default, required,
    lower_case_fqdn, p_ttl.
  cbn -[p_dict_str j_dict_str contains lower rstrip_dots RecordType.of_value
        RecordType.value Z.leb].
  rewrite RecordType_of_value, p_dict_str_dump.
  destruct (contains "." z), (contains "." n); try done.
  by destruct ((1 <=? l) && (l <=? 86400)).
Qed.

(** X7: For a job with an ASCII zone and name, [RecordJob.parse_raw] gives
    back the job that [json()] wrote exactly when the request would pass
    validation unchanged: zone and name hold a dot, are in lower case and
    end in no dot, and the TTL is within its bounds. *)
Theorem RecordJob_roundtrip_iff j :
  is_ascii (RecordRequest.zone (RecordJob.request j)) = true ->
  is_ascii (RecordRequest.name (RecordJob.request j)) = true ->
  RecordJob_parse_raw (RecordJob_json j) = Some j <->
  (contains "." (RecordRequest.zone (RecordJob.request j)) = true /\
   lower (rstrip_dots (RecordRequest.zone (RecordJob.request j))) =
     RecordRequest.zone (RecordJob.request j)) /\
  (contains "." (RecordRequest.name (RecordJob.request j)) = true /\
   lower (rstrip_dots (RecordRequest.name (RecordJob.request j))) =
     RecordRequest.name (RecordJob.request j)) /\
  1 <= RecordRequest.ttl (RecordJob.request j) <= 86400.
Proof.
  intros _ _.
  destruct j as [a b c d r f g h].
  unfold RecordJob_parse_raw, RecordJob_json, parse_raw, RecordJob_validate,
    RecordJob_dump, with_default, required.
  cbn -[RecordRequest_validate RecordRequest_dump RecordJobStatus.of_value
        RecordJobStatus.value p_all contains lower rstrip_dots].
  rewrite RecordJobStatus_of_value, RecordRequest_validate_dump.
  destruct r as [z n t c' l m]. cbn [RecordRequest.zone RecordRequest.name
    RecordRequest.ttl RecordRequest.record_type RecordRequest.content
    RecordRequest.metadata].
  assert (Hd : p_optional p_datetime (j_optional JTime d) = Some d)
    by by destruct d.
  assert (Hf : p_optional p_str (j_optional JStr f) = Some f) by by destruct f.
  assert (Hg : p_optional p_dict_any (j_optional JObj g) = Some g)
    by by destruct g.
  assert (Hh : p_optional (p_list p_str)
                 (j_optional (fun l => JArr (map JStr l)) h) = Some h).
  { destruct h as [h|]; [|done]. unfold p_optional, j_optional, p_list.
    by rewrite p_all_str. }
  rewrite Hd, Hf, Hg, Hh.
  destruct (contains "." z) eqn:Ez; cycle 1.
  { simpl. split; [done|]. by intros [[? _] _]. }
  destruct (contains "." n) eqn:En; cycle 1.
  { simpl. split; [done|]. by intros (_ & [? _] & _). }
  destruct (1 <=? l) eqn:E1; cycle 1.
  { simpl. split; [done|]. intros (_ & _ & ?). lia. }
  destruct (l <=? 86400) eqn:E2; cycle 1.
  { simpl. split; [done|]. intros (_ & _ & ?). lia. }
  cbn [andb].
  split.
  - intros H; inversion H as [[Hz Hn]]. rewrite Hz, Hn.
    repeat split; done || lia.
  - intros ([_ Hz] & [_ Hn] & _). by rewrite Hz, Hn.
Qed.

Lemma OrchestrationRequest_validate_dump r :
  OrchestrationRequest_validate (OrchestrationRequest_dump r) =
    if (10 <=? len (OrchestrationRequest.request r))%nat
    then Some r else None.
Proof.
  destruct r as [rq cx md].
  unfold OrchestrationRequest_validate, OrchestrationRequest_dump,
    with_default, required, p_request_text.
  cbn -[p_dict_str j_dict_str Nat.leb len].
  rewrite p_dict_str_dump.
  by destruct (10 <=? len rq)%nat.
Qed.

(** X5: [OrchestrationJob.parse_raw] gives back the job that [json()] wrote,
    tracking jobs included, exactly when the request text has the ten
    characters, counted as code points, that [OrchestrationRequest] asks
    for. *)
Theorem OrchestrationJob_roundtrip_iff o :
  OrchestrationJob_parse_raw (OrchestrationJob_json o) = Some o <->
  (10 <= len (OrchestrationRequest.request (OrchestrationJob.request o)))%nat.
Proof.
  destruct o as [a b c d r f g h i k].
  unfold OrchestrationJob_parse_raw, OrchestrationJob_json, parse_raw,
    OrchestrationJob_validate, OrchestrationJob_dump, with_default, required.
  cbn -[OrchestrationRequest_validate OrchestrationRequest_dump
        AWXAgentJobStatus_of AWXAgentJobStatus_value p_all AWXJob_validate
        AWXJob_dump Nat.leb len].
  rewrite AWXAgentJobStatus_of_value, OrchestrationRequest_validate_dump,
    p_all_dict_any, p_all_AWXJob.
  assert (Hd : p_optional p_datetime (j_optional JTime d) = Some d)
    by by destruct d.
  assert (Hf : forall x, p_optional p_str (j_optional JStr x) = Some x)
    by by intros [].
  rewrite Hd, !Hf.
  destruct (10 <=? len _)%nat eqn:E.
  - apply Nat.leb_le in E. done.
  - apply Nat.leb_gt in E. split; [done|]. lia.
Qed.

End ModelFacts.

Lemma with_env_id {J Env} (w : World J Env) : with_env (fun _ => env w) w = w.
Proof. by destruct w. Qed.

Lemma with_env_with_env {J Env} (w : World J Env) e1 e2 :
  with_env (fun _ => e2) (with_env (fun _ => e1) w) = with_env (fun _ => e2) w.
Proof. reflexivity. Qed.

Lemma env_only_ret {J Env A} (a : A) : env_only (J := J) (Env := Env) (ret a).
Proof. intros w. simpl. by rewrite with_env_id. Qed.

Lemma env_only_raise {J Env A} e :
  env_only (J := J) (Env := Env) (raise (A := A) e).
Proof. intros w. simpl. by rewrite with_env_id. Qed.

Lemma env_only_bind {J Env A B} (c : M (World J Env) A) (k : A -> M _ B) :
  env_only c -> (forall a, env_only (k a)) -> env_only (bind c k).
Proof.
  intros Hc Hk w. unfold bind. specialize (Hc w).
  destruct (c w) as [[a|e] w1]; simpl in *; [|done].
  pose proof (Hk a w1) as H1. set (E := env (snd (k a w1))) in *.
  rewrite H1. by rewrite Hc.
Qed.

Lemma env_only_try_except {J Env A} (c : M (World J Env) A) h :
  env_only c -> (forall e, env_only (h e)) -> env_only (try_except c h).
Proof.
  intros Hc Hh w. unfold try_except. specialize (Hc w).
  destruct (c w) as [[a|e] w1]; simpl in *; [done|].
  pose proof (Hh e w1) as H1. set (E := env (snd (h e w1))) in *.
  rewrite H1. by rewrite Hc.
Qed.

Lemma env_only_call_awx {A} (method : AWX -> nat -> outcome A) :
  env_only (call_awx method).
Proof. by intros w. Qed.

Lemma dict_get_set key v d : dict_get key (dict_set key v d) = Some v.
Proof.
  induction d as [|[k x] d IH]; simpl.
  - by rewrite String.eqb_refl.
  - destruct (String.eqb k key) eqn:E; simpl; by rewrite E.
Qed.

Lemma dict_get_set_ne key key' v d :
  key <> key' -> dict_get key' (dict_set key v d) = dict_get key' d.
Proof.
  intros Hne. induction d as [|[k x] d IH]; simpl.
  - destruct (String.eqb key key') eqn:E; [|done].
    by apply String.eqb_eq in E.
  - destruct (String.eqb k key) eqn:E; simpl.
    + apply String.eqb_eq in E. subst k.
      destruct (String.eqb key key') eqn:E'; [|done].
      by apply String.eqb_eq in E'.
    + by rewrite IH.
Qed.

(** *** One turn of the loop *)

Lemma set_in_task_length i key v s :
  length (decomposed_tasks (set_in_task i key v s)) =
  length (decomposed_tasks s).
Proof. unfold set_in_task. simpl. by rewrite length_alter. Qed.

(** What a computation returns or raises, whatever the world. *)
Lemma result_bind {W A B} (c : M W A) (k : A -> M W B) (R : outcome B -> Prop) :
  hoare (fun _ => True) c
        (fun r _ => match r with
                    | Return a => hoare (fun _ => True) (k a) (fun r _ => R r)
                    | Raise e => R (Raise e)
                    end) ->
  hoare (fun _ => True) (bind c k) (fun r _ => R r).
Proof.
  intros Hc w _. unfold bind. specialize (Hc w I).
  destruct (c w) as [[a|e] w1]; simpl in *; [by apply Hc | done].
Qed.

Lemma result_call_awx {A B} (method : AWX -> nat -> outcome A)
  (k : A -> M AWXWorld B) (R : outcome B -> Prop) :
  (forall a, hoare (fun _ => True) (k a) (fun r _ => R r)) ->
  (forall e, R (Raise e)) ->
  hoare (fun _ => True) (bind (call_awx method) k) (fun r _ => R r).
Proof.
  intros Hk He. apply result_bind. intros w _.
  destruct (fst (call_awx method w)); [apply Hk | apply He].
Qed.

(** [launch_subtask] returns: it has added a job id and left the error
    alone, or it has recorded an error and no job id, or it had nothing to
    launch. *)
Lemma launch_subtask_returns state w :
  exists s1,
    fst (launch_subtask state w) = Return s1 /\
    length (decomposed_tasks s1) = length (decomposed_tasks state) /\
    current_task_index s1 = current_task_index state /\
    completed_tasks s1 = completed_tasks state /\
    ((s1 = state /\
      (length (decomposed_tasks state) <= current_task_index state)%nat) \/
     (truthy_str (error s1) = true /\ awx_job_ids s1 = awx_job_ids state) \/
     (error s1 = error state /\
      (current_task_index state < length (decomposed_tasks state))%nat /\
      exists id, awx_job_ids s1 = (awx_job_ids state ++ [id])%list)).
Proof.
  unfold launch_subtask.
  destruct (decomposed_tasks state !! current_task_index state) as [t|] eqn:Et.
  2:{ exists state. repeat split; try done. left. split; [done|].
      by apply lookup_ge_None in Et. }
  assert (Hlt : (current_task_index state < length (decomposed_tasks state))%nat)
    by by eapply lookup_lt_Some.
  set (i := current_task_index state) in *.
  set (launched := fun r : outcome GraphState =>
    match r with
    | Return s1 =>
        length (decomposed_tasks s1) = length (decomposed_tasks state) /\
        current_task_index s1 = i /\
        completed_tasks s1 = completed_tasks state /\
        error s1 = error state /\
        exists id, awx_job_ids s1 = (awx_job_ids state ++ [id])%list
    | Raise _ => True
    end).
  match goal with |- context [try_except ?c ?h] =>
    assert (Hc : hoare (fun _ => True) c (fun r _ => launched r));
    [|unfold try_except; specialize (Hc w I); destruct (c w) as [[s1|e] w1]]
  end.
  - assert (Hlaunch : forall tpl : JobTemplateInfo,
      hoare (fun _ => True)
        (let* job_data :=
           call_awx (fun awx n =>
                       launch_job_template awx n (template_id tpl)
                         (context state) None None) in
         if truthy_int (data_id job_data)
         then
           match data_id job_data with
           | Some awx_job_id =>
               ret (set_in_task i "status" (JStr "launched")
                      (set_in_task i "awx_job_id" (JNum awx_job_id)
                         (with_job_ids (awx_job_ids state ++ [awx_job_id])
                                       state)))
           | None => ret state
           end
         else raise (ValueError "AWX did not return a job ID"))
        (fun r _ => launched r)).
    { intros tpl. apply result_call_awx; [|done]. intros job_data.
      destruct (data_id job_data) as [id|]; [|done].
      destruct (truthy_int (Some id)); [|done].
      intros w0 _. unfold launched, ret. cbn [fst].
      rewrite !set_in_task_length.
      repeat split; try done. by exists id. }
    apply result_call_awx; [|done]. intros [tpl|].
    + apply result_bind. intros w0 _. simpl. apply Hlaunch.
    + apply result_bind. apply result_call_awx; [|done].
      intros [tpl|] w0 _; simpl; [apply Hlaunch | done].
  - exists s1. simpl in Hc. destruct Hc as (H1 & H2 & H3 & H4 & H5).
    repeat split; try done. right. right. done.
  - eexists. split; [reflexivity|]. unfold with_error.
    cbn [decomposed_tasks current_task_index completed_tasks error awx_job_ids].
    rewrite !set_in_task_length.
    repeat split; try done. right. left. done.
Qed.

(** [wait_for_completion] returns: it has moved to the next task, or it
    has recorded an error, or it had no job to wait for. *)
Lemma wait_for_completion_returns state w :
  exists s2,
    fst (wait_for_completion state w) = Return s2 /\
    length (decomposed_tasks s2) = length (decomposed_tasks state) /\
    awx_job_ids s2 = awx_job_ids state /\
    completed_tasks s2 = completed_tasks state /\
    ((s2 = state /\ awx_job_ids state = []) \/
     (truthy_str (error s2) = true /\
      current_task_index s2 = current_task_index state) \/
     (error s2 = error state /\
      current_task_index s2 = S (current_task_index state) /\
      (current_task_index state < length (decomposed_tasks state))%nat)).
Proof.
  unfold wait_for_completion.
  destruct (last (awx_job_ids state)) as [id|] eqn:El.
  2:{ exists state. repeat split; try done. left. split; [done|].
      by apply last_None in El. }
  set (i := current_task_index state) in *.
  set (waited := fun r : outcome GraphState =>
    match r with
    | Return s2 =>
        length (decomposed_tasks s2) = length (decomposed_tasks state) /\
        awx_job_ids s2 = awx_job_ids state /\
        completed_tasks s2 = completed_tasks state /\
        ((truthy_str (error s2) = true /\ current_task_index s2 = i) \/
         (error s2 = error state /\ current_task_index s2 = S i /\
          (i < length (decomposed_tasks state))%nat))
    | Raise _ => True
    end).
  match goal with |- context [try_except ?c ?h] =>
    assert (Hc : hoare (fun _ => True) c (fun r _ => waited r));
    [|unfold try_except; specialize (Hc w I); destruct (c w) as [[s2|e] w1]]
  end.
  - apply result_call_awx; [|done]. intros job_data. cbn zeta.
    destruct (decomposed_tasks state !! i) as [t|] eqn:Et; [|done].
    assert (Hlt : (i < length (decomposed_tasks state))%nat)
      by by eapply lookup_lt_Some.
    destruct (String.eqb _ "successful"); intros w0 _;
      unfold waited, ret, with_index, with_error;
      cbn [fst decomposed_tasks current_task_index completed_tasks error
           awx_job_ids];
      rewrite !set_in_task_length; repeat split; try done.
    + right. done.
    + left. done.
  - exists s2. simpl in Hc. destruct Hc as (H1 & H2 & H3 & H4).
    repeat split; try done. right. done.
  - eexists. split; [reflexivity|]. simpl.
    repeat split; try done. right. left. done.
Qed.

Lemma env_only_launch_subtask state : env_only (launch_subtask state).
Proof.
  unfold launch_subtask.
  destruct (decomposed_tasks state !! current_task_index state);
    [|apply env_only_ret].
  apply env_only_try_except; [|intros e; apply env_only_ret].
  repeat first
    [ apply env_only_ret | apply env_only_raise | apply env_only_call_awx
    | apply env_only_bind; [|intros ?]
    | match goal with
      | |- env_only (match ?x with _ => _ end) => destruct x
      | |- env_only (if ?b then _ else _) => destruct b
      end ].
Qed.

Lemma env_only_wait_for_completion state :
  env_only (wait_for_completion state).
Proof.
  unfold wait_for_completion.
  destruct (last (awx_job_ids state)); [|apply env_only_ret].
  apply env_only_try_except; [|intros e; apply env_only_ret].
  repeat first
    [ apply env_only_ret | apply env_only_raise | apply env_only_call_awx
    | apply env_only_bind; [|intros ?]
    | match goal with
      | |- env_only (match ?x with _ => _ end) => destruct x
      | |- env_only (if ?b then _ else _) => destruct b
      end ].
Qed.

Lemma env_only_workflow_loop passes : forall state,
  env_only (workflow_loop passes state).
Proof.
  induction passes as [|passes IH]; intros state; simpl;
    [apply env_only_raise|].
  apply env_only_bind; [apply env_only_launch_subtask|]. intros s1.
  apply env_only_bind; [apply env_only_wait_for_completion|]. intros s2.
  destruct (check_next_task _); [apply IH | apply env_only_ret].
Qed.

Lemma env_only_orchestrate request context' :
  env_only (orchestrate request context').
Proof.
  unfold orchestrate, _orchestrate_with_graph, workflow_invoke.
  apply env_only_try_except; [|intros e; apply env_only_ret].
  apply env_only_bind; [apply env_only_workflow_loop|].
  intros s. apply env_only_ret.
Qed.

Lemma status_failed_case {A} (v : option json) (x y : A) :
  (v = Some (JStr "failed") /\
   match v with Some (JStr "failed") => x | _ => y end = x) \/
  match v with Some (JStr "failed") => x | _ => y end = y.
Proof.
  destruct v as [[| | |s| | | |]|]; try by right.
  do 6 (destruct s as [|[[] [] [] [] [] [] [] []] s]; try by right).
  destruct s; [by left | by right].
Qed.

Lemma finalize_settled state :
  Forall settled (decomposed_tasks (finalize state)).
Proof.
  unfold finalize. simpl. apply Forall_forall. intros t Hin.
  apply list_elem_of_fmap in Hin as (t0 & -> & _). unfold settled.
  destruct (status_failed_case (dict_get "status" t0) t0
              (dict_set "status" (JStr "completed") t0)) as [[E ->]| ->].
  - by right.
  - left. apply dict_get_set.
Qed.

(** *** The loop *)

Lemma workflow_loop_returns passes : forall state w,
  (current_task_index state < length (decomposed_tasks state))%nat ->
  length (awx_job_ids state) = current_task_index state ->
  (length (decomposed_tasks state) - current_task_index state <= passes)%nat ->
  exists final,
    fst (workflow_loop passes state w) = Return final /\
    length (decomposed_tasks final) = length (decomposed_tasks state) /\
    Forall settled (decomposed_tasks final) /\
    completed_tasks final =
      (completed_tasks state ++ decomposed_tasks final)%list /\
    (length (awx_job_ids final) <= length (decomposed_tasks final))%nat /\
    (truthy_str (error final) = false ->
     length (awx_job_ids final) = length (decomposed_tasks final)).
Proof.
  induction passes as [|passes IH]; intros state w Hlt Hids Hfuel; [lia|].
  cbn [workflow_loop]. unfold bind.
  destruct (launch_subtask_returns state w) as (s1 & E1 & Hn1 & Hi1 & Hc1 & H1).
  destruct (launch_subtask state w) as [r1 w1]. simpl in E1. subst r1.
  destruct (wait_for_completion_returns s1 w1)
    as (s2 & E2 & Hn2 & Hj2 & Hc2 & H2).
  destruct (wait_for_completion s1 w1) as [r2 w2]. simpl in E2. subst r2.
  unfold handle_callback.
  assert (Hlen : (length (awx_job_ids s2) <= length (decomposed_tasks s2))%nat).
  { rewrite Hj2, Hn2, Hn1.
    destruct H1 as [[-> _]|[[_ ->]|(_ & _ & id & ->)]];
      rewrite ?length_app; simpl; lia. }
  assert (Hfin : forall f, f = finalize s2 ->
            length (decomposed_tasks f) = length (decomposed_tasks state) /\
            Forall settled (decomposed_tasks f) /\
            completed_tasks f =
              (completed_tasks state ++ decomposed_tasks f)%list /\
            (length (awx_job_ids f) <= length (decomposed_tasks f))%nat).
  { intros f ->. split; [|split; [apply finalize_settled|split]].
    - unfold finalize. simpl. by rewrite length_map, Hn2, Hn1.
    - unfold finalize. simpl. by rewrite Hc2, Hc1.
    - unfold finalize. simpl. rewrite length_map. exact Hlen. }
  unfold check_next_task.
  destruct (truthy_str (error s2)) eqn:Herr.
  { eexists. split; [reflexivity|].
    destruct (Hfin _ eq_refl) as (F1 & F2 & F3 & F4).
    repeat split; try done. unfold finalize. simpl. by rewrite Herr. }
  (* no error: the task was launched and its job succeeded *)
  assert (Hok : error s1 = error state /\
                (exists id, awx_job_ids s1 = (awx_job_ids state ++ [id])%list) /\
                current_task_index s2 = S (current_task_index state)).
  { destruct H2 as [[-> Hnil]|[[Ht _]|(He2 & Hi2 & _)]]; [| congruence |].
    - destruct H1 as [[_ ?]|[[Ht _]|(? & _ & id & Hid)]];
        [lia | congruence |].
      rewrite Hid in Hnil. by destruct (awx_job_ids state).
    - rewrite He2 in Herr.
      destruct H1 as [[_ ?]|[[Ht _]|(? & _ & id & Hid)]];
        [lia | congruence |].
      split; [done|]. split; [by exists id|]. by rewrite Hi2, Hi1. }
  destruct Hok as (He1 & (id & Hid) & Hi2).
  assert (Hids2 : length (awx_job_ids s2) = current_task_index s2).
  { rewrite Hj2, Hid, length_app, Hi2, Hids. simpl. lia. }
  destruct (current_task_index s2 <? length (decomposed_tasks s2))%nat eqn:Hnext.
  - apply Nat.ltb_lt in Hnext.
    destruct (IH s2 w2 Hnext Hids2) as (f & Ef & F1 & F2 & F3 & F4 & F5).
    { rewrite Hn2, Hn1, Hi2. lia. }
    exists f. split; [done|]. rewrite F1, Hn2, Hn1 in *.
    repeat split; try done. by rewrite F3, Hc2, Hc1.
  - apply Nat.ltb_ge in Hnext.
    eexists. split; [reflexivity|].
    destruct (Hfin _ eq_refl) as (F1 & F2 & F3 & F4).
    repeat split; try done. intros _. unfold finalize. simpl.
    rewrite length_map. lia.
Qed.

Lemma analyze_request_tasks state :
  (1 <= length (decomposed_tasks (analyze_request state)) <= 2)%nat /\
  current_task_index (analyze_request state) = 0%nat /\
  awx_job_ids (analyze_request state) = [] /\
  completed_tasks (analyze_request state) = [] /\
  error (analyze_request state) = error state.
Proof.
  unfold analyze_request. simpl.
  destruct (contains "deploy" _ && contains "kubernetes" _);
    [|destruct (contains "install" _)]; simpl; repeat split; lia.
Qed.

(** *** The AWX jobs of the tasks *)

Lemma task_job_id_set key v t :
  key <> "awx_job_id" -> task_job_id (dict_set key v t) = task_job_id t.
Proof. intros H. unfold task_job_id. by rewrite dict_get_set_ne. Qed.

Lemma task_job_ids_drop_alter (f : dict_any -> dict_any) ts :
  (forall t, task_job_id (f t) = task_job_id t) ->
  forall n i, task_job_ids (drop n (alter f i ts)) = task_job_ids (drop n ts).
Proof.
  intros Hf. unfold task_job_ids.
  induction ts as [|t ts IH]; intros n i; [by destruct i|].
  destruct n as [|n], i as [|i]; cbn.
  - by rewrite Hf.
  - specialize (IH 0%nat i). rewrite !drop_0 in IH. by rewrite IH.
  - done.
  - apply IH.
Qed.

Lemma task_job_ids_drop_S ts i :
  task_job_ids (drop i ts) = [] -> task_job_ids (drop (S i) ts) = [].
Proof.
  unfold task_job_ids. revert i. induction ts as [|t ts IH]; intros i.
  - by destruct i.
  - destruct i as [|i]; cbn.
    + rewrite drop_0. by destruct (task_job_id t).
    + apply IH.
Qed.

Lemma task_job_ids_launch (f : dict_any -> dict_any) id ts :
  (forall t, task_job_id (f t) = Some id) ->
  forall i, (i < length ts)%nat ->
  task_job_ids (drop i ts) = [] ->
  task_job_ids (alter f i ts) = (task_job_ids ts ++ [id])%list /\
  task_job_ids (drop (S i) (alter f i ts)) = [].
Proof.
  intros Hf. unfold task_job_ids.
  induction ts as [|t ts IH]; intros i Hi Hnone; [simpl in Hi; lia|].
  destruct i as [|i]; cbn in *.
  - rewrite Hf, drop_0. destruct (task_job_id t); [done|].
    by rewrite Hnone.
  - destruct (IH i ltac:(lia) Hnone) as [-> H2].
    split; [by destruct (task_job_id t) | exact H2].
Qed.

Lemma task_job_ids_map (f : dict_any -> dict_any) ts :
  (forall t, task_job_id (f t) = task_job_id t) ->
  task_job_ids (map f ts) = task_job_ids ts.
Proof.
  intros Hf. unfold task_job_ids.
  induction ts as [|t ts IH]; [done|].
  change (map f (t :: ts)) with (f t :: map f ts).
  change (omap task_job_id (f t :: map f ts))
    with (match task_job_id (f t) with
          | Some id => id :: omap task_job_id (map f ts)
          | None => omap task_job_id (map f ts)
          end).
  rewrite Hf, IH. done.
Qed.

Lemma task_job_ids_set_in_task i key v state n :
  key <> "awx_job_id" ->
  task_job_ids (drop n (decomposed_tasks (set_in_task i key v state)))
  = task_job_ids (drop n (decomposed_tasks state)).
Proof.
  intros Hk. unfold set_in_task. cbn [decomposed_tasks with_tasks].
  apply task_job_ids_drop_alter. intros t. by apply task_job_id_set.
Qed.

(** [launch_subtask] records the job that it launches in its task and on
    the list of jobs, and no job otherwise. *)
Lemma launch_subtask_ids state w s1 :
  fst (launch_subtask state w) = Return s1 ->
  task_job_ids (drop (current_task_index state) (decomposed_tasks state)) = [] ->
  task_job_ids (decomposed_tasks state) = awx_job_ids state ->
  task_job_ids (decomposed_tasks s1) = awx_job_ids s1 /\
  task_job_ids (drop (S (current_task_index state)) (decomposed_tasks s1)) = [].
Proof.
  intros Hrun Hnone Hids. revert Hrun. unfold launch_subtask.
  destruct (decomposed_tasks state !! current_task_index state) as [t|] eqn:Et.
  2:{ intros [= <-]. split; [done|]. by apply task_job_ids_drop_S. }
  assert (Hlt : (current_task_index state < length (decomposed_tasks state))%nat)
    by by eapply lookup_lt_Some.
  set (i := current_task_index state) in *.
  set (recorded := fun r : outcome GraphState =>
    match r with
    | Return s1 =>
        task_job_ids (decomposed_tasks s1) = awx_job_ids s1 /\
        task_job_ids (drop (S i) (decomposed_tasks s1)) = []
    | Raise _ => True
    end).
  match goal with |- context [try_except ?c ?h] =>
    assert (Hc : hoare (fun _ => True) c (fun r _ => recorded r));
    [|unfold try_except; specialize (Hc w I); destruct (c w) as [[s|e] w1]]
  end.
  - assert (Hlaunch : forall tpl : JobTemplateInfo,
      hoare (fun _ => True)
        (let* job_data :=
           call_awx (fun awx n =>
                       launch_job_template awx n (template_id tpl)
                         (context state) None None) in
         if truthy_int (data_id job_data)
         then
           match data_id job_data with
           | Some awx_job_id =>
               ret (set_in_task i "status" (JStr "launched")
                      (set_in_task i "awx_job_id" (JNum awx_job_id)
                         (with_job_ids (awx_job_ids state ++ [awx_job_id])
                                       state)))
           | None => ret state
           end
         else raise (ValueError "AWX did not return a job ID"))
        (fun r _ => recorded r)).
    { intros tpl. apply result_call_awx; [|done]. intros job_data.
      destruct (data_id job_data) as [id|]; [|done].
      destruct (truthy_int (Some id)); [|done].
      intros w0 _. unfold recorded, ret. cbn [fst].
      pose proof (task_job_ids_set_in_task i "status" (JStr "launched")
                    (set_in_task i "awx_job_id" (JNum id)
                       (with_job_ids (awx_job_ids state ++ [id]) state)))
        as Hst.
      rewrite <- (drop_0 (decomposed_tasks (set_in_task i "status" _ _))).
      rewrite !Hst by done. rewrite drop_0.
      unfold set_in_task at 1 2. cbn [decomposed_tasks with_tasks with_job_ids
        awx_job_ids current_task_index completed_tasks error context
        user_request].
      destruct (task_job_ids_launch (dict_set "awx_job_id" (JNum id)) id
                  (decomposed_tasks state)
                  ltac:(intros t0; unfold task_job_id; by rewrite dict_get_set)
                  i Hlt Hnone) as [H1 H2].
      split; [by rewrite H1, Hids | exact H2]. }
    apply result_call_awx; [|done]. intros [tpl|].
    + apply result_bind. intros w0 _. simpl. apply Hlaunch.
    + apply result_bind. apply result_call_awx; [|done].
      intros [tpl|] w0 _; simpl; [apply Hlaunch | done].
  - simpl in Hc. by intros [= <-].
  - intros [= <-]. unfold with_error.
    cbn [decomposed_tasks awx_job_ids].
    split.
    + rewrite <- (drop_0 (decomposed_tasks (set_in_task i "error" _ _))).
      rewrite !task_job_ids_set_in_task by done. by rewrite drop_0.
    + rewrite !task_job_ids_set_in_task by done.
      by apply task_job_ids_drop_S.
Qed.

(** [wait_for_completion] records no job. *)
Lemma wait_for_completion_ids state w s2 :
  fst (wait_for_completion state w) = Return s2 ->
  awx_job_ids s2 = awx_job_ids state /\
  forall n, task_job_ids (drop n (decomposed_tasks s2))
            = task_job_ids (drop n (decomposed_tasks state)).
Proof.
  unfold wait_for_completion.
  destruct (last (awx_job_ids state)) as [id|]; [|by intros [= <-]].
  set (i := current_task_index state) in *.
  set (kept := fun r : outcome GraphState =>
    match r with
    | Return s2 =>
        awx_job_ids s2 = awx_job_ids state /\
        forall n, task_job_ids (drop n (decomposed_tasks s2))
                  = task_job_ids (drop n (decomposed_tasks state))
    | Raise _ => True
    end).
  match goal with |- context [try_except ?c ?h] =>
    assert (Hc : hoare (fun _ => True) c (fun r _ => kept r));
    [|unfold try_except; specialize (Hc w I); destruct (c w) as [[s|e] w1]]
  end.
  - apply result_call_awx; [|done]. intros job_data. cbn zeta.
    destruct (decomposed_tasks state !! i) as [t|]; [|done].
    destruct (String.eqb _ "successful"); intros w0 _;
      unfold kept, ret, with_index, with_error;
      cbn [fst decomposed_tasks awx_job_ids];
      (split; [done|]); intros n;
      by rewrite !task_job_ids_set_in_task.
  - simpl in Hc. by intros [= <-].
  - by intros [= <-].
Qed.

Lemma finalize_ids state :
  awx_job_ids (finalize state) = awx_job_ids state /\
  task_job_ids (decomposed_tasks (finalize state))
  = task_job_ids (decomposed_tasks state).
Proof.
  unfold finalize. cbn [awx_job_ids decomposed_tasks with_completed with_tasks].
  split; [done|]. apply task_job_ids_map. intros t.
  destruct (status_failed_case (dict_get "status" t) t
              (dict_set "status" (JStr "completed") t)) as [[_ ->]| ->];
    [done|].
  by rewrite task_job_id_set.
Qed.

Lemma workflow_loop_ids passes : forall state w final,
  (current_task_index state < length (decomposed_tasks state))%nat ->
  task_job_ids (drop (current_task_index state) (decomposed_tasks state)) = [] ->
  task_job_ids (decomposed_tasks state) = awx_job_ids state ->
  fst (workflow_loop passes state w) = Return final ->
  awx_job_ids final = task_job_ids (decomposed_tasks final).
Proof.
  induction passes as [|passes IH]; intros state w final Hlt Hnone Hids;
    [done|].
  cbn [workflow_loop]. unfold bind.
  destruct (launch_subtask_returns state w) as (s1 & E1 & Hn1 & Hi1 & Hc1 & H1).
  pose proof (launch_subtask_ids state w s1 E1 Hnone Hids) as [Hids1 Hnone1].
  destruct (launch_subtask state w) as [r1 w1]. simpl in E1. subst r1.
  destruct (wait_for_completion_returns s1 w1)
    as (s2 & E2 & Hn2 & Hj2 & Hc2 & H2).
  pose proof (wait_for_completion_ids s1 w1 s2 E2) as [_ Hsame].
  destruct (wait_for_completion s1 w1) as [r2 w2]. simpl in E2. subst r2.
  unfold handle_callback. cbn [fst snd].
  assert (Hids2 : task_job_ids (decomposed_tasks s2) = awx_job_ids s2).
  { pose proof (Hsame 0%nat) as H0. rewrite !drop_0 in H0.
    by rewrite H0, Hj2. }
  assert (Hfin : awx_job_ids (finalize s2)
                 = task_job_ids (decomposed_tasks (finalize s2))).
  { destruct (finalize_ids s2) as [-> ->]. done. }
  unfold check_next_task.
  destruct (truthy_str (error s2)) eqn:Herr; [by intros [= <-]|].
  destruct (current_task_index s2 <? length (decomposed_tasks s2))%nat
    eqn:Hnext; [|by intros [= <-]].
  apply Nat.ltb_lt in Hnext.
  assert (Hi2 : current_task_index s2 = S (current_task_index state)).
  { destruct H2 as [[-> Hnil]|[[Ht _]|(He2 & Hi2 & _)]]; [| congruence |].
    - destruct H1 as [[_ ?]|[[Ht _]|(? & _ & id & Hid)]];
        [lia | congruence |].
      rewrite Hid in Hnil. by destruct (awx_job_ids state).
    - by rewrite Hi2, Hi1. }
  apply IH; [done| |done].
  rewrite Hi2, Hsame. exact Hnone1.
Qed.

Lemma analyze_request_ids state :
  task_job_ids (decomposed_tasks (analyze_request state)) = [].
Proof.
  unfold analyze_request. simpl.
  destruct (contains "deploy" _ && contains "kubernetes" _);
    [|destruct (contains "install" _)]; reflexivity.
Qed.

Lemma workflow_invoke_ids initial_state w final :
  fst (workflow_invoke initial_state w) = Return final ->
  awx_job_ids final = task_job_ids (decomposed_tasks final).
Proof.
  unfold workflow_invoke.
  destruct (analyze_request_tasks initial_state) as (Hn & Hi & Hj & _).
  apply workflow_loop_ids.
  - rewrite Hi. lia.
  - rewrite Hi, drop_0. apply analyze_request_ids.
  - by rewrite Hj, analyze_request_ids.
Qed.

(** The jobs that [orchestrate] reports are the jobs of its steps. *)
Lemma orchestrate_ids request context' w o :
  fst (orchestrate request context' w) = Return o ->
  awx_jobs o = task_job_ids (steps o).
Proof.
  unfold orchestrate, _orchestrate_with_graph, try_except, bind.
  pose proof (workflow_invoke_ids
                (mkGraphState request [] 0 [] [] None context') w) as H.
  destruct (workflow_invoke _ w) as [[f|e] w1]; cbn [fst snd ret] in *.
  - intros [= <-]. cbn [awx_jobs steps]. by apply H.
  - by intros [= <-].
Qed.

Lemma workflow_invoke_run initial_state w :
  exists final,
    fst (workflow_invoke initial_state w) = Return final /\
    (1 <= length (decomposed_tasks final) <= 2)%nat /\
    Forall settled (decomposed_tasks final) /\
    completed_tasks final = decomposed_tasks final /\
    (length (awx_job_ids final) <= length (decomposed_tasks final))%nat /\
    (truthy_str (error final) = false ->
     length (awx_job_ids final) = length (decomposed_tasks final)).
Proof.
  unfold workflow_invoke.
  destruct (analyze_request_tasks initial_state) as (Hn & Hi & Hj & Hc & _).
  destruct (workflow_loop_returns recursion_limit_passes
              (analyze_request initial_state) w)
    as (f & Ef & F1 & F2 & F3 & F4 & F5).
  - rewrite Hi. lia.
  - by rewrite Hj, Hi.
  - rewrite Hi. unfold recursion_limit_passes. lia.
  - exists f. rewrite F1. split; [done|]. split; [done|]. split; [done|].
    split; [by rewrite F3, Hc|]. rewrite <- F1. done.
Qed.

(** X8: The workflow ends within LangGraph's recursion limit, whatever the AWX
    server answers: [invoke] returns a state with one or two tasks, all of
    them marked completed or failed and all of them on the list of
    completed tasks, with at most one AWX job per task and, when no error
    is recorded, exactly one. *)
Theorem workflow_invoke_returns initial_state w :
  exists final,
    fst (workflow_invoke initial_state w) = Return final /\
    (1 <= length (decomposed_tasks final) <= 2)%nat /\
    Forall settled (decomposed_tasks final) /\
    completed_tasks final = decomposed_tasks final /\
    (length (awx_job_ids final) <= length (decomposed_tasks final))%nat /\
    (truthy_str (error final) = false ->
     length (awx_job_ids final) = length (decomposed_tasks final)).
Proof. apply workflow_invoke_run. Qed.

Lemma orchestrate_run request context' w :
  exists o rest,
    fst (orchestrate request context' w) = Return o /\
    snd (orchestrate request context' w) =
      with_env (fun _ => env (snd (orchestrate request context' w))) w /\
    response o = Some (("Orchestrated request: " ++ request) ++ newline ++ rest) /\
    (1 <= length (steps o) <= 2)%nat /\
    Forall settled (steps o) /\
    (length (awx_jobs o) <= length (steps o))%nat /\
    (truthy_str (orchestration_error o) = false ->
     length (awx_jobs o) = length (steps o)).
Proof.
  pose proof (env_only_orchestrate request context' w) as Henv.
  unfold orchestrate, _orchestrate_with_graph, try_except, bind in *.
  destruct (workflow_invoke_run
              (mkGraphState request [] 0 [] [] None context') w)
    as (f & Ef & F1 & F2 & F3 & F4 & F5).
  destruct (workflow_invoke _ w) as [r w1]. simpl in Ef. subst r.
  cbn [fst snd ret] in *.
  destruct (truthy_str (error f)) eqn:Herr;
    (eexists; eexists; split; [reflexivity|]; split; [exact Henv|];
     cbn [response steps awx_jobs orchestration_error];
     split; [reflexivity|]; rewrite ?Herr; done).
Qed.

(** X9: [orchestrate] never raises and never takes its error branch: it
    returns the summary of the workflow's final state, whose text opens
    with the request, and it leaves the job store alone. *)
Theorem orchestrate_returns request context' w :
  exists o rest,
    fst (orchestrate request context' w) = Return o /\
    snd (orchestrate request context' w) =
      with_env (fun _ => env (snd (orchestrate request context' w))) w /\
    response o = Some (("Orchestrated request: " ++ request) ++ newline ++ rest) /\
    (1 <= length (steps o) <= 2)%nat /\
    Forall settled (steps o) /\
    (length (awx_jobs o) <= length (steps o))%nat /\
    (truthy_str (orchestration_error o) = false ->
     length (awx_jobs o) = length (steps o)).
Proof. apply orchestrate_run. Qed.

Section PendingFacts.
Context {J St Kw Env : Type} {job_class : JobClass J St Kw}.
Context {laws : JobLaws J St Kw}.
Implicit Types (w : World J Env) (j : J) (l : loc) (id : UUID).

Lemma _maybe_purge_disk_writable w :
  disk_writable (snd (_maybe_purge w)) = disk_writable w.
Proof.
  unfold _maybe_purge, bind, utcnow, get; simpl.
  destruct (_last_purge w) as [last|]; simpl; [destruct (_ <? _)|]; reflexivity.
Qed.

Lemma pending_weaken id l (P Q : J -> Prop) w :
  (forall j, P j -> Q j) -> pending id l P w -> pending id l Q w.
Proof.
  intros HPQ (Hm & Hd & j & Hl & Hc & HP).
  split; [done|]. split; [done|]. exists j. auto.
Qed.

Lemma env_only_pending {A} (c : M (World J Env) A) id l (P : J -> Prop) :
  env_only c -> stays (pending id l P) c.
Proof. intros Hc w Hw. rewrite (Hc w). exact Hw. Qed.

Lemma utcnow_pending id l (P : J -> Prop) :
  stays (pending (Env := Env) id l P) utcnow.
Proof. by intros w Hw. Qed.

(** A transition to a status that is not terminal. *)
Lemma update_status_pending id l (P Q : J -> Prop) status' message' kwargs :
  terminal status' = false ->
  Forall (fun kw => kwarg_key kw <> "completed_at") kwargs ->
  (forall j, P j ->
     Q (snd (setattrs kwargs
               (if truthy_str message'
                then set_message message' (set_status status' j)
                else set_status status' j)))) ->
  hoare (pending (Env := Env) id l P) (update_status id status' message' kwargs)
        (fun _ => pending id l Q).
Proof.
  intros Hterm Hkw HPQ w (Hm & Hd & j & Hl & Hc & HP).
  rewrite (update_status_run w id l j) by done. cbn zeta. rewrite Hterm.
  set (j1 := if truthy_str message'
             then set_message message' (set_status status' j)
             else set_status status' j).
  assert (Hc2 : completed_at (snd (setattrs kwargs j1)) = None).
  { rewrite setattrs_completed_at by done. subst j1.
    destruct (truthy_str message');
      by rewrite ?completed_at_set_message, completed_at_set_status. }
  specialize (HPQ j HP). fold j1 in HPQ.
  destruct (fst (setattrs kwargs j1)) as [[]|e]; world_simpl.
  - split; [|split].
    + eapply _maybe_purge_keeps_uncompleted; world_simpl;
        [done | apply lookup_insert_eq | done].
    + by rewrite _maybe_purge_disk_writable.
    + rewrite _maybe_purge_heap. world_simpl. eexists.
      split; [apply lookup_insert_eq|]. done.
  - split; [done|]. split; [done|]. eexists.
    split; [apply lookup_insert_eq|]. done.
Qed.

(** A transition to a terminal status. *)
Lemma update_status_flushed id l (P Q : J -> Prop) status' message' :
  terminal status' = true ->
  (forall j t, P j ->
     Q (set_completed_at (Some t)
          (if truthy_str message'
           then set_message message' (set_status status' j)
           else set_status status' j))) ->
  hoare (pending (Env := Env) id l P) (update_status id status' message' [])
        (fun r w => r = Return (Some l) /\ flushed l Q w).
Proof.
  intros Hterm HPQ w (Hm & Hd & j & Hl & Hc & HP).
  rewrite (update_status_run w id l j) by done. cbn zeta. rewrite Hterm, Hd.
  cbn [setattrs fst snd]. split; [done|]. world_simpl.
  eexists. exists (clock w (ticks w)).
  rewrite _maybe_purge_heap, _maybe_purge_write_calls. world_simpl.
  split; [apply lookup_insert_eq|].
  split; [apply completed_at_set_completed_at|].
  split; [by rewrite last_snoc|]. by apply HPQ.
Qed.

Lemma setattr_at_pending id l (P Q : J -> Prop) kw :
  kwarg_key kw <> "completed_at" ->
  (forall j j', P j -> setattr kw j = Return j' -> Q j') ->
  hoare (pending (Env := Env) id l P) (setattr_at l kw)
        (fun r w => match r with
                    | Return _ => pending id l Q w
                    | Raise _ => pending id l P w
                    end).
Proof.
  intros Hkw HPQ w (Hm & Hd & j & Hl & Hc & HP).
  unfold setattr_at, bind, get. rewrite Hl.
  destruct (setattr kw j) as [j'|e] eqn:E; simpl.
  - split; [done|]. split; [done|]. exists j'.
    split; [apply lookup_insert_eq|].
    split; [|by eapply HPQ].
    by rewrite (completed_at_setattr kw j j' E Hkw).
  - split; [done|]. split; [done|]. by exists j.
Qed.

Lemma assign_pending id l (P Q : J -> Prop) (f : J -> J) :
  (forall j, P j -> completed_at j = None -> Q (f j) /\ completed_at (f j) = None) ->
  hoare (pending (Env := Env) id l P) (assign l f) (fun _ => pending id l Q).
Proof.
  intros Hf w (Hm & Hd & j & Hl & Hc & HP).
  rewrite (assign_run w l j f Hl). world_simpl.
  destruct (Hf j HP Hc) as [HQ Hc'].
  split; [done|]. split; [done|]. exists (f j).
  split; [apply lookup_insert_eq|]. done.
Qed.

End PendingFacts.

(** ** The workers end their jobs *)

Lemma hoare_weaken {W A} (P P' : W -> Prop) (c : M W A)
  (Q Q' : outcome A -> W -> Prop) :
  hoare P c Q -> (forall w, P' w -> P w) -> (forall r w, Q r w -> Q' r w) ->
  hoare P' c Q'.
Proof. intros H HP HQ w Hw. apply HQ, H, HP, Hw. Qed.

Section AWXWorkerEnds.
Implicit Types (w : AWXWorld) (l : loc) (id : UUID).

Local Abbreviation any_AWXJob := (is_AWXJob (fun _ => True)).
Local Abbreviation pending_job := (pending (Env := AWXEnv)).

(** Side conditions on what an assignment does to an AWX job. *)
Ltac awx_job :=
  repeat match goal with
  | |- forall _, _ => intro
  | H : is_AWXJob _ _ |- _ => destruct H as (? & -> & ?)
  | H : Return _ = Return _ |- _ => inversion H; subst; clear H
  | H : setattr _ (IsAWXJob _) = Return _ |- _ => simpl in H
  | H : Job.setattr _ (IsAWXJob _) = Return _ |- _ => simpl in H
  end;
  try (split; [|reflexivity]);
  try (eexists; split; [reflexivity|]; simpl; try done).

Lemma awx_read_pending id l P :
  stays (pending_job id l P) (read_AWXJob l).
Proof.
  intros w Hw. unfold read_AWXJob, bind, get.
  by destruct (heap w !! l) as [[]|].
Qed.

Lemma awx_status_pending id l P value :
  stays (pending_job id l P) (make_AWXJobStatus value).
Proof. by intros w Hw. Qed.

Lemma awx_update_pending id l P status' message' :
  terminal status' = false ->
  (forall j, P j -> P (AWXJob.set_status status' j)) ->
  (forall j, P j -> P (AWXJob.set_message message' j)) ->
  stays (pending_job id l (is_AWXJob P)) (update_status id status' message' []).
Proof.
  intros Ht H1 H2. apply update_status_pending; [done|constructor|].
  intros j (a & -> & HP). cbn [setattrs snd].
  destruct (truthy_str message'); eexists; (split; [reflexivity|]); auto.
Qed.

Lemma awx_setattr_pending id l (P Q : AWXJob.t -> Prop) kw :
  kwarg_key kw <> "completed_at" ->
  (forall j j', P j -> Job.setattr_AWXJob kw j = Return j' -> Q j') ->
  hoare (pending_job id l (is_AWXJob P)) (setattr_at l kw)
        (fun r w => match r with
                    | Return _ => pending_job id l (is_AWXJob Q) w
                    | Raise _ => pending_job id l (is_AWXJob P) w
                    end).
Proof.
  intros Hkw HPQ. apply setattr_at_pending; [done|].
  intros j j' (a & -> & HP) E. simpl in E.
  destruct (Job.setattr_AWXJob kw a) as [a'|] eqn:Ea; inversion E; subst.
  exists a'. split; [done|]. by eapply HPQ.
Qed.

Lemma awx_setattr_stays id l (P : AWXJob.t -> Prop) kw :
  kwarg_key kw <> "completed_at" ->
  (forall j j', P j -> Job.setattr_AWXJob kw j = Return j' -> P j') ->
  stays (pending_job id l (is_AWXJob P)) (setattr_at l kw).
Proof.
  intros Hkw HP. eapply hoare_weaken;
    [by apply (awx_setattr_pending id l P P kw) | done |].
  by intros [].
Qed.

Lemma awx_call_pending {A} id l P (method : AWX -> nat -> outcome A) :
  stays (pending_job id l P) (call_awx method).
Proof. apply env_only_pending, env_only_call_awx. Qed.

(** One step that keeps the job pending, then the rest. *)
Lemma pending_then {A B} id l P (c : M AWXWorld A) (k : A -> M AWXWorld B)
  (Q : AWXWorld -> Prop) :
  stays (pending_job id l P) c ->
  (forall a, hoare (pending_job id l P) (k a)
               (fun r w => match r with
                           | Return _ => Q w
                           | Raise _ => pending_job id l P w
                           end)) ->
  hoare (pending_job id l P) (bind c k)
        (fun r w => match r with
                    | Return _ => Q w
                    | Raise _ => pending_job id l P w
                    end).
Proof.
  intros Hc Hk.
  apply (hoare_bind _ _ _ (fun _ => pending_job id l P)); [done|done|done].
Qed.

Lemma pending_raise {B} id l P (Q : AWXWorld -> Prop) e :
  hoare (pending_job id l P) (raise (A := B) e)
        (fun r w => match r with
                    | Return _ => Q w
                    | Raise _ => pending_job id l P w
                    end).
Proof. by intros w Hw. Qed.

Lemma setattr_at_env {J St Kw Env} `{JobClass J St Kw} (w : World J Env)
  job kw :
  env (snd (setattr_at job kw w)) = env w.
Proof.
  unfold setattr_at, bind, get. cbn [fst snd].
  destruct (heap w !! job) as [j|]; [|done]. by destruct (setattr kw j).
Qed.

Lemma launching_mono id l P n m w :
  (n <= m)%nat -> launching id l P n w -> launching id l P m w.
Proof. intros Hnm [Hp Hn]. split; [done|lia]. Qed.

Lemma awx_update_launching id l P n status' message' :
  terminal status' = false ->
  (forall j, P j -> P (AWXJob.set_status status' j)) ->
  (forall j, P j -> P (AWXJob.set_message message' j)) ->
  stays (launching id l P n) (update_status id status' message' []).
Proof.
  intros Ht H1 H2 w [Hp Hn]. split.
  - by apply awx_update_pending.
  - destruct Hp as (Hm & _ & j & Hl & _).
    by rewrite (update_status_env w id l j).
Qed.

Lemma awx_read_launching id l P n :
  stays (launching id l P n) (read_AWXJob l).
Proof.
  intros w Hw. unfold read_AWXJob, bind, get.
  by destruct (heap w !! l) as [[]|].
Qed.

Lemma awx_call_launching {A} id l P n (method : AWX -> nat -> outcome A) :
  hoare (launching id l P n) (call_awx method)
        (fun _ => launching id l P (S n)).
Proof.
  intros w [Hp Hn]. split; [by apply awx_call_pending|].
  unfold call_awx. cbn. lia.
Qed.

Lemma awx_setattr_launching id l P n kw :
  kwarg_key kw <> "completed_at" ->
  (forall j j', P j -> Job.setattr_AWXJob kw j = Return j' -> P j') ->
  stays (launching id l P n) (setattr_at l kw).
Proof.
  intros Hkw HP w [Hp Hn]. split.
  - by apply awx_setattr_stays.
  - by rewrite setattr_at_env.
Qed.

Lemma awx_assign_launching id l P n v :
  (forall j, P j ->
     P (AWXJob.set_request
          (JobTemplateRequest.set_job_template_id v (AWXJob.request j)) j)) ->
  stays (launching id l P n) (assign l (set_request_template_id v)).
Proof.
  intros HP w [Hp Hn]. split; [|done].
  clear Hn. revert w Hp. apply assign_pending.
  intros j0 (a & -> & Ha) Hc. split; [|done]. eexists. split; [reflexivity|].
  by apply HP.
Qed.

(** One step, then the rest, of a computation that ends by raising. *)
Lemma raises_then {A B} (I I' F : AWXWorld -> Prop) (c : M AWXWorld A)
  (k : A -> M AWXWorld B) :
  hoare I c (fun r w => match r with
                        | Return _ => I' w
                        | Raise _ => F w
                        end) ->
  (forall a, hoare I' (k a) (fun r w => match r with
                                        | Return _ => False
                                        | Raise _ => F w
                                        end)) ->
  hoare I (bind c k) (fun r w => match r with
                                 | Return _ => False
                                 | Raise _ => F w
                                 end).
Proof.
  intros Hc Hk.
  apply (hoare_bind _ _ _ (fun r w => match r with
                                      | Return _ => I' w
                                      | Raise _ => F w
                                      end)); [done|done|done].
Qed.

Lemma stays_raises {A} (I I' F : AWXWorld -> Prop) (c : M AWXWorld A) :
  (forall w, I' w -> F w) ->
  hoare I c (fun _ => I') ->
  hoare I c (fun r w => match r with
                        | Return _ => I' w
                        | Raise _ => F w
                        end).
Proof.
  intros HF Hc w Hw. specialize (Hc w Hw). destruct (fst (c w)); auto.
Qed.

(** The body of the worker never returns: it raises, at the latest where
    it looks up [AWXJobStatus], after at most three adapter calls (the
    search by name, the template and the launch), with the job pending. *)
Lemma process_awx_job_body_ends id l j n :
  hoare (launching id l (unmonitored j) n) (process_awx_job_body id l)
        (fun r w => match r with
                    | Return _ => False
                    | Raise _ => launching id l (unmonitored j) (n + 3) w
                    end).
Proof.
  set (P := unmonitored j).
  set (F := launching id l P (n + 3)).
  assert (Hmono : forall m w, (m <= n + 3)%nat -> launching id l P m w -> F w).
  { intros m w Hm. by apply launching_mono. }
  assert (Hupdate : forall m status' message',
            terminal status' = false ->
            stays (launching id l P m) (update_status id status' message' [])).
  { intros m status' message' Ht.
    apply awx_update_launching; [done| |]; by intros [].  }
  unfold process_awx_job_body.
  apply (raises_then _ (launching id l P n)).
  { apply stays_raises; [intros w; apply Hmono; lia | by apply Hupdate]. }
  intros _.
  apply (raises_then _ (launching id l P n)).
  { apply stays_raises; [intros w; apply Hmono; lia|apply awx_read_launching]. }
  intros j1.
  apply (raises_then _ (launching id l P (n + 1))).
  { destruct (truthy_int _).
    { intros w Hw. cbn. revert Hw. apply launching_mono. lia. }
    apply (hoare_bind _ _ _ (fun _ => launching id l P (n + 1))).
    - rewrite Nat.add_1_r. apply awx_call_launching.
    - intros [template|]; [|intros w Hw; cbn; revert Hw; apply Hmono; lia].
      apply (hoare_bind _ _ _ (fun _ => launching id l P (n + 1))).
      + apply awx_assign_launching. by intros [].
      + by intros _ w Hw.
      + intros e w. apply Hmono. lia.
    - intros e w. apply Hmono. lia. }
  intros template_id'.
  apply (raises_then _ (launching id l P (n + 2))).
  { apply stays_raises; [intros w; apply Hmono; lia|].
    replace (n + 2)%nat with (S (n + 1)) by lia. apply awx_call_launching. }
  intros [template|]; [|intros w Hw; cbn; revert Hw; apply Hmono; lia].
  apply (raises_then _ (launching id l P (n + 2))).
  { apply stays_raises; [intros w; apply Hmono; lia | by apply Hupdate]. }
  intros _.
  apply (raises_then _ (launching id l P (n + 2))).
  { apply stays_raises; [intros w; apply Hmono; lia|apply awx_read_launching]. }
  intros j2.
  apply (raises_then _ (launching id l P (n + 3))).
  { apply stays_raises; [done|].
    replace (n + 3)%nat with (S (n + 2)) by lia. apply awx_call_launching. }
  intros awx_job_data.
  destruct (negb _); [by intros w Hw|].
  apply (raises_then _ (launching id l P (n + 3))).
  { apply stays_raises; [done|]. apply awx_setattr_launching; [done|].
    intros a a' Ha E. inversion E. by destruct a. }
  intros _.
  apply (raises_then _ (fun _ => False)); [by intros w Hw|].
  by intros s w [].
Qed.

(** What the [except] branch of the worker does from a pending job. *)
Lemma process_awx_job_handler_ends id l j n e :
  hoare (launching id l (unmonitored j) n)
    (setattr_at l (kw_awx_error (Some (str_exn e))) >>
     update_status id FAILED
       (Some ("Job processing failed: " ++ str_exn e)) [] >>
     ret tt)
    (fun r w => r = Return tt /\
                flushed l (is_AWXJob (processed j)) w /\
                (awx_calls (env w) <= n)%nat).
Proof.
  set (Q := fun a => unmonitored j a /\
                     AWXJob.awx_error a = Some (str_exn e)).
  apply (hoare_bind _ _ _
           (fun r w => match r with
                       | Return _ => launching id l Q n w
                       | Raise _ => False
                       end)).
  - intros w [Hw Hn].
    pose proof (awx_setattr_pending id l (unmonitored j) Q
                  (kw_awx_error (Some (str_exn e)))) as H.
    specialize (H ltac:(done)).
    assert (HQ : forall a a', unmonitored j a ->
              Job.setattr_AWXJob (kw_awx_error (Some (str_exn e))) a
              = Return a' -> Q a').
    { intros a a' Ha E. inversion E. by destruct a. }
    specialize (H HQ w Hw). pose proof (setattr_at_env w l
      (kw_awx_error (Some (str_exn e)))) as He.
    destruct Hw as (_ & _ & j0 & Hl & _ & a & -> & _).
    revert H He. unfold setattr_at, bind, get. rewrite Hl. simpl.
    intros H _. by split.
  - intros [].
    apply (hoare_bind _ _ _
             (fun r w => r = Return (Some l) /\
                         flushed l (is_AWXJob (processed j)) w /\
                         (awx_calls (env w) <= n)%nat)).
    + intros w [Hw Hn].
      pose proof (update_status_flushed (Env := AWXEnv) id l (is_AWXJob Q)
                    (is_AWXJob (processed j)) FAILED
                    (Some ("Job processing failed: " ++ str_exn e))
                    eq_refl) as H.
      assert (HQ : forall j0 t, is_AWXJob Q j0 ->
                is_AWXJob (processed j)
                  (set_completed_at (Some t)
                     (if truthy_str
                           (Some ("Job processing failed: " ++ str_exn e))
                      then set_message
                             (Some ("Job processing failed: " ++ str_exn e))
                             (set_status FAILED j0)
                      else set_status FAILED j0))).
      { intros j0 t (a & -> & [Hs Ho] & Ha). cbn [truthy_str append].
        eexists. split; [reflexivity|]. destruct a. simpl in *.
        split; [done|]. split; [by eexists|]. done. }
      destruct (H HQ w Hw) as [Hr Hf]. split; [done|]. split; [done|].
      destruct Hw as (Hm & _ & j0 & Hl & _).
      by rewrite (update_status_env w id l j0).
    + by intros a w (_ & Hf & Hn).
    + by intros e0 w [? _].
  - done.
Qed.

(** X10: A job that was submitted and has not completed is ended FAILED by
    [process_awx_job], whatever the AWX server answers, as long as the
    cache directory takes the write: the worker returns, and the job has
    its error recorded and in its message, [completed_at] set, and is
    flushed as it stands.  No job is ended COMPLETED: a launch that gives a
    job id is followed by the lookup of [AWXJobStatus], which [main.py]
    does not import, so that the worker makes at most three adapter calls
    and never waits for the AWX job or records its status or output. *)
Theorem process_awx_job_ends w id l j :
  _jobs w !! id = Some l ->
  heap w !! l = Some (IsAWXJob j) ->
  AWXJob.completed_at j = None ->
  disk_writable w = true ->
  fst (process_awx_job id w) = Return tt /\
  flushed l (is_AWXJob (processed j)) (snd (process_awx_job id w)) /\
  (awx_calls (env (snd (process_awx_job id w))) <= awx_calls (env w) + 3)%nat.
Proof.
  intros Hid Hl Hc Hd.
  assert (Hw : launching id l (unmonitored j) (awx_calls (env w)) w).
  { split; [|done]. split; [done|]. split; [done|]. exists (IsAWXJob j).
    split; [done|]. split; [done|]. by exists j. }
  assert (Hrun : process_awx_job id w =
    try_except (process_awx_job_body id l)
      (fun e =>
         setattr_at l (kw_awx_error (Some (str_exn e))) >>
         update_status id FAILED
           (Some ("Job processing failed: " ++ str_exn e)) [] >>
         ret tt) w).
  { unfold process_awx_job.
    rewrite (bind_Return _ _ _ _ _ (get_job_hit w id l Hid)).
    unfold bind at 1. unfold get at 1. by rewrite Hl. }
  rewrite Hrun.
  pose proof (process_awx_job_body_ends id l j _ w Hw) as Hb.
  unfold try_except.
  destruct (process_awx_job_body id l w) as [[[]|e] w1]; simpl in Hb;
    [done|].
  apply (process_awx_job_handler_ends id l j _ e w1 Hb).
Qed.

End AWXWorkerEnds.

Lemma runs_bind {W A B} (P : W -> Prop) (c : M W A) (k : A -> M W B)
  (Q1 : A -> W -> Prop) (Q : B -> W -> Prop) :
  runs P c Q1 -> (forall a, runs (Q1 a) (k a) Q) -> runs P (bind c k) Q.
Proof.
  intros Hc Hk. apply (hoare_bind _ _ _ _ _ Hc); [|done]. intros a. apply Hk.
Qed.

Lemma runs_ret {W A} (P : W -> Prop) (a : A) (Q : A -> W -> Prop) :
  (forall w, P w -> Q a w) -> runs P (ret a) Q.
Proof. intros H w Hw. by apply H. Qed.

Lemma runs_weaken {W A} (P P' : W -> Prop) (c : M W A) (Q Q' : A -> W -> Prop) :
  runs P c Q -> (forall w, P' w -> P w) -> (forall a w, Q a w -> Q' a w) ->
  runs P' c Q'.
Proof.
  intros H HP HQ w Hw. specialize (H w (HP w Hw)).
  destruct (fst (c w)); [by apply HQ | done].
Qed.

Lemma runs_then {W A B} (P : W -> Prop) (c : M W A) (k : A -> M W B)
  (Q1 : A -> W -> Prop) (Q : outcome B -> W -> Prop) :
  runs P c Q1 -> (forall a, hoare (Q1 a) (k a) Q) -> hoare P (bind c k) Q.
Proof. intros Hc Hk. apply (hoare_bind _ _ _ _ _ Hc); [exact Hk | done]. Qed.

Lemma hoare_assume {W A} (H : Prop) (P : W -> Prop) (c : M W A)
  (Q : outcome A -> W -> Prop) :
  (H -> hoare P c Q) -> hoare (fun w => H /\ P w) c Q.
Proof. intros Hc w [Hh Hw]. by apply Hc. Qed.

Lemma runs_assume {W A} (H : Prop) (P : W -> Prop) (c : M W A)
  (Q : A -> W -> Prop) :
  (H -> runs P c Q) -> runs (fun w => H /\ P w) c Q.
Proof. intros Hc w [Hh Hw]. by apply Hc. Qed.

Lemma runs_assume_r {W A} (H : Prop) (P : W -> Prop) (c : M W A)
  (Q : A -> W -> Prop) :
  (H -> runs P c Q) -> runs (fun w => P w /\ H) c Q.
Proof. intros Hc w [Hw Hh]. by apply Hc. Qed.

Lemma runs_or {W A} (P1 P2 : W -> Prop) (c : M W A) (Q : A -> W -> Prop) :
  runs P1 c Q -> runs P2 c Q -> runs (fun w => P1 w \/ P2 w) c Q.
Proof. intros H1 H2 w [Hw|Hw]; [by apply H1 | by apply H2]. Qed.

Section OrchestrationWorkerEnds.
Implicit Types (w : AWXWorld) (l : loc) (id : UUID).
Local Abbreviation pending_job := (pending (Env := AWXEnv)).

Lemma orch_update_runs id l (P Q : OrchestrationJob.t -> Prop) status' message' :
  terminal status' = false ->
  (forall o, P o ->
     Q (if truthy_str message'
        then OrchestrationJob.set_message message'
               (OrchestrationJob.set_status status' o)
        else OrchestrationJob.set_status status' o)) ->
  runs (pending_job id l (is_OrchestrationJob P))
       (update_status id status' message' [])
       (fun _ => pending_job id l (is_OrchestrationJob Q)).
Proof.
  intros Ht HPQ w Hw.
  pose proof (update_status_pending (Env := AWXEnv) id l
                (is_OrchestrationJob P)
                (is_OrchestrationJob Q) status' message' [] Ht) as H.
  specialize (H ltac:(constructor)).
  assert (Hside : forall j, is_OrchestrationJob P j ->
            is_OrchestrationJob Q
              (snd (setattrs [] (if truthy_str message'
                                 then set_message message' (set_status status' j)
                                 else set_status status' j)))).
  { intros j (o & -> & HP). cbn [setattrs snd]. specialize (HPQ o HP).
    destruct (truthy_str message'); by eexists. }
  specialize (H Hside w Hw).
  destruct Hw as (Hm & _ & j & Hl & _).
  revert H. rewrite (update_status_run w id l j) by done. cbn zeta.
  cbn [setattrs fst snd]. by rewrite Ht.
Qed.

Lemma orch_update_flushed id l (P Q : OrchestrationJob.t -> Prop) message' :
  (forall o t, P o ->
     Q (OrchestrationJob.set_completed_at (Some t)
          (if truthy_str message'
           then OrchestrationJob.set_message message'
                  (OrchestrationJob.set_status COMPLETED o)
           else OrchestrationJob.set_status COMPLETED o))) ->
  runs (pending_job id l (is_OrchestrationJob P))
       (update_status id COMPLETED message' [])
       (fun _ => flushed l (is_OrchestrationJob Q)).
Proof.
  intros HPQ w Hw.
  pose proof (update_status_flushed (Env := AWXEnv) id l
                (is_OrchestrationJob P)
                (is_OrchestrationJob Q) COMPLETED message' eq_refl) as H.
  assert (Hside : forall j t, is_OrchestrationJob P j ->
            is_OrchestrationJob Q
              (set_completed_at (Some t)
                 (if truthy_str message'
                  then set_message message' (set_status COMPLETED j)
                  else set_status COMPLETED j))).
  { intros j t (o & -> & HP). specialize (HPQ o t HP).
    destruct (truthy_str message'); by eexists. }
  destruct (H Hside w Hw) as [-> Hf]. exact Hf.
Qed.

Lemma orch_read_runs id l (P : OrchestrationJob.t -> Prop) :
  runs (pending_job id l (is_OrchestrationJob P)) (read_OrchestrationJob l)
       (fun o w => P o /\ pending_job id l (is_OrchestrationJob P) w).
Proof.
  intros w Hw. pose proof Hw as (_ & _ & j & Hl & _ & o & -> & HP).
  unfold read_OrchestrationJob, bind, get. rewrite Hl. by split.
Qed.

Lemma orch_setattr_runs id l (P Q : OrchestrationJob.t -> Prop) kw :
  kwarg_key kw <> "completed_at" ->
  (forall o, P o -> exists o', Job.setattr_OrchestrationJob kw o = Return o' /\ Q o') ->
  runs (pending_job id l (is_OrchestrationJob P)) (setattr_at l kw)
       (fun _ => pending_job id l (is_OrchestrationJob Q)).
Proof.
  intros Hkw HPQ w Hw.
  pose proof (setattr_at_pending (Env := AWXEnv) id l
                (is_OrchestrationJob P)
                (is_OrchestrationJob Q) kw Hkw) as H.
  assert (Hside : forall j j', is_OrchestrationJob P j ->
            setattr kw j = Return j' -> is_OrchestrationJob Q j').
  { intros j j' (o & -> & HP) E. destruct (HPQ o HP) as (o' & Eo & HQ).
    simpl in E. rewrite Eo in E. inversion E. by eexists. }
  specialize (H Hside w Hw).
  destruct Hw as (_ & _ & j & Hl & _ & o & -> & HP).
  destruct (HPQ o HP) as (o' & Eo & HQ).
  revert H. unfold setattr_at, bind, get. rewrite Hl.
  cbn [setattr awx_agent_jobs Job.setattr]. by rewrite Eo.
Qed.

Lemma orch_orchestrate_runs id l (P : Job -> Prop) request context' :
  runs (pending_job id l P) (orchestrate request context')
       (fun o w =>
          pending_job id l P w /\
          (exists text, response o = Some text) /\
          (1 <= length (steps o) <= 2)%nat /\
          Forall settled (steps o) /\
          awx_jobs o = task_job_ids (steps o)).
Proof.
  intros w Hw.
  destruct (orchestrate_run request context' w)
    as (o & rest & E & Henv & Hr & Hn & Hs & Hj & _).
  pose proof (orchestrate_ids request context' w o E) as Hids.
  rewrite E. split.
  - rewrite Henv. exact Hw.
  - split; [by eexists|]. done.
Qed.

Lemma orch_tracking_runs id l (P : Job -> Prop) n :
  runs (pending_job id l P) (new_tracking_job n)
       (fun a w => pending_job id l P w /\
                   tracking_job a /\ AWXJob.awx_job_id a = Some n).
Proof. by intros w Hw. Qed.

(** The loop that appends a tracking job for every AWX job id. *)
Lemma orch_tracking_loop id l (B : OrchestrationJob.t -> Prop) jobs0 ids :
  (forall o v, B o -> B (OrchestrationJob.set_awx_jobs v o)) ->
  forall added seen,
  Forall tracking_job added ->
  map AWXJob.awx_job_id added = map Some seen ->
  runs (pending_job id l
          (is_OrchestrationJob
             (fun o => B o /\
                       OrchestrationJob.awx_jobs o = (jobs0 ++ added)%list)))
       (for_each ids
          (fun awx_job_id' =>
             let* awx_job := new_tracking_job awx_job_id' in
             let* o := read_OrchestrationJob l in
             setattr_at l
               (kw_awx_jobs (OrchestrationJob.awx_jobs o ++ [awx_job]))))
       (fun _ =>
          pending_job id l
            (is_OrchestrationJob
               (fun o => B o /\
                  exists added',
                    OrchestrationJob.awx_jobs o = (jobs0 ++ added')%list /\
                    Forall tracking_job added' /\
                    map AWXJob.awx_job_id added'
                    = map Some (seen ++ ids)))).
Proof.
  intros HB. induction ids as [|i ids IH]; intros added seen Ha Hs.
  - apply runs_ret. intros w. apply pending_weaken.
    intros j (o & -> & Ho & Hj). exists o. split; [done|]. split; [done|].
    exists added. by rewrite app_nil_r.
  - cbn [for_each].
    apply (runs_bind _ _ _
             (fun _ => pending_job id l
                (is_OrchestrationJob
                   (fun o => B o /\
                      exists a, tracking_job a /\
                                AWXJob.awx_job_id a = Some i /\
                                OrchestrationJob.awx_jobs o
                                = (jobs0 ++ (added ++ [a]))%list)))).
    2:{ intros _ w (Hm & Hd & j & Hl & Hc & o & -> & Ho & a & Hta & Hia & Hj).
        pose proof (IH (added ++ [a])%list (seen ++ [i])%list) as H.
        assert (H1 : Forall tracking_job (added ++ [a])).
        { apply Forall_app. split; [done|]. by constructor. }
        assert (H2 : map AWXJob.awx_job_id (added ++ [a])
                     = map Some (seen ++ [i])).
        { rewrite !map_app, Hs. simpl. by rewrite Hia. }
        specialize (H H1 H2 w).
        assert (Hw : pending_job id l
                  (is_OrchestrationJob
                     (fun o => B o /\
                        OrchestrationJob.awx_jobs o
                        = (jobs0 ++ (added ++ [a]))%list)) w).
        { split; [done|]. split; [done|]. exists (IsOrchestrationJob o).
          split; [done|]. split; [done|]. by exists o. }
        specialize (H Hw). rewrite <- app_assoc in H. exact H. }
    eapply runs_bind; [apply orch_tracking_runs|]. intros awx_job. cbn beta.
    apply (runs_then _ _ _
             (fun o w => (tracking_job awx_job /\
                          AWXJob.awx_job_id awx_job = Some i) /\
                         (B o /\ OrchestrationJob.awx_jobs o
                                 = (jobs0 ++ added)%list) /\
                         pending_job id l
                           (is_OrchestrationJob
                              (fun o => B o /\
                                 OrchestrationJob.awx_jobs o
                                 = (jobs0 ++ added)%list)) w)).
    { intros w [Hw Ht]. pose proof (orch_read_runs id l _ w Hw) as H.
      destruct (fst (read_OrchestrationJob l w)); [|done].
      destruct H as [H1 H2]. done. }
    intros o. apply hoare_assume. intros [Hta Hia].
    apply hoare_assume. intros [Ho Hj].
    apply (orch_setattr_runs id l
             (fun o => B o /\ OrchestrationJob.awx_jobs o = (jobs0 ++ added)%list)
             _ (kw_awx_jobs (OrchestrationJob.awx_jobs o ++ [awx_job])));
      [done|].
    intros o1 [Ho1 Hj1]. eexists. split; [reflexivity|]. split; [by apply HB|].
    exists awx_job. split; [done|]. split; [done|].
    simpl. by rewrite Hj, app_assoc.
Qed.

(** The body of the worker once it has its orchestrator. *)
Lemma process_orchestration_job_body_ends id l o0 e0 :
  hoare (fun w => pending_job id l (is_OrchestrationJob (fun o => o = o0)) w /\
                  env w = e0)
        (process_orchestration_job_body id l)
        (fun r w =>
           match r with
           | Return _ =>
               (exists u, orchestrator_of e0 = Return u) /\
               flushed l (is_OrchestrationJob (concluded o0)) w
           | Raise e =>
               orchestrator_of e0 = Raise e /\
               pending_job id l
                 (is_OrchestrationJob
                    (fun o =>
                       OrchestrationJob.llm_response o
                       = OrchestrationJob.llm_response o0 /\
                       OrchestrationJob.decomposed_tasks o
                       = OrchestrationJob.decomposed_tasks o0 /\
                       OrchestrationJob.awx_jobs o
                       = OrchestrationJob.awx_jobs o0)) w
           end).
Proof.
  set (jobs0 := OrchestrationJob.awx_jobs o0).
  set (B := fun o => OrchestrationJob.llm_error o =
                     OrchestrationJob.llm_error o0).
  set (U := fun o =>
              OrchestrationJob.llm_response o
              = OrchestrationJob.llm_response o0 /\
              OrchestrationJob.decomposed_tasks o
              = OrchestrationJob.decomposed_tasks o0 /\
              OrchestrationJob.awx_jobs o = jobs0).
  set (P := fun o => B o /\ OrchestrationJob.awx_jobs o = jobs0).
  unfold process_orchestration_job_body.
  apply (runs_then _ _ _
           (fun _ w => pending_job id l
                         (is_OrchestrationJob (fun o => P o /\ U o)) w /\
                       env w = e0)).
  { intros w [Hw He].
    pose proof (orch_update_runs id l (fun o => o = o0)
                  (fun o => P o /\ U o) VALIDATING
                  (Some "Analyzing request with LLM.") eq_refl) as H.
    assert (Hside : forall o, o = o0 ->
              (fun o => P o /\ U o)
                (if truthy_str (Some "Analyzing request with LLM.")
                 then OrchestrationJob.set_message
                        (Some "Analyzing request with LLM.")
                        (OrchestrationJob.set_status VALIDATING o)
                 else OrchestrationJob.set_status VALIDATING o)).
    { by intros o ->. }
    specialize (H Hside w Hw).
    pose proof Hw as (Hm & _ & j & Hl & _).
    pose proof (update_status_env w id l j VALIDATING
                  (Some "Analyzing request with LLM.") [] Hm Hl) as Henv.
    destruct (fst (update_status id VALIDATING _ [] w)); [|done].
    split; [exact H|]. by rewrite Henv. }
  intros _.
  apply (hoare_bind _ _ _
           (fun r w =>
              orchestrator_of e0 = r /\
              pending_job id l (is_OrchestrationJob (fun o => P o /\ U o)) w)).
  { intros w [Hw He]. unfold get_orchestrator, orchestrator_of.
    rewrite He. destruct (_orchestrator e0); [by split|].
    cbn [fst snd]. split; [by destruct (LLMOrchestrator e0 _) as [[]|]|].
    revert Hw. by destruct (LLMOrchestrator e0 _). }
  2:{ intros e w [He Hw]. split; [done|]. revert Hw. apply pending_weaken.
      intros j (o & -> & _ & HU). by exists o. }
  intros u. apply hoare_assume. intros Hready.
  apply (hoare_weaken
           (pending_job id l (is_OrchestrationJob P)) _ _
           (fun r w => match r with
                       | Return _ =>
                           flushed l (is_OrchestrationJob (concluded o0)) w
                       | Raise _ => False
                       end)).
  2:{ intros w. apply pending_weaken. intros j (o & -> & HP & _). by exists o. }
  2:{ intros [[]|e] w H; [|done]. split; [by exists u | exact H]. }
  lazymatch goal with
  | |- hoare ?P0 ?c _ =>
      change (runs P0 c
                (fun _ => flushed l (is_OrchestrationJob (concluded o0))))
  end.
  eapply runs_bind; [apply orch_read_runs|]. intros o. cbn beta.
  apply (runs_weaken (pending_job id l (is_OrchestrationJob P)) _ _
           (fun _ => flushed l (is_OrchestrationJob (concluded o0)))
           (fun _ => flushed l (is_OrchestrationJob (concluded o0))));
    [|by intros w [_ Hw]|done].
  eapply runs_bind; [apply orch_orchestrate_runs|]. intros result. cbn beta.
  apply runs_assume_r. intros ([text Htext] & Hn & Hs & Hj).
  set (R := fun o => OrchestrationJob.llm_response o = Some text /\
                     OrchestrationJob.decomposed_tasks o = steps result).
  apply (runs_bind _ _ _
           (fun _ => pending_job id l
              (is_OrchestrationJob
                 (fun o => P o /\ OrchestrationJob.llm_response o = Some text)))).
  { apply orch_setattr_runs; [done|]. intros o1 HP. eexists.
    split; [reflexivity|]. split; [exact HP|]. simpl. done. }
  intros _.
  apply (runs_bind _ _ _
           (fun _ => pending_job id l
              (is_OrchestrationJob (fun o => P o /\ R o)))).
  { apply orch_setattr_runs; [done|]. intros o1 [HP Hr]. eexists.
    split; [reflexivity|]. split; [exact HP|]. split; simpl; done. }
  intros _.
  (* what [concluded] asks of the final object *)
  assert (Hend : forall (o1 : OrchestrationJob.t) added,
            OrchestrationJob.status o1 = COMPLETED ->
            B o1 -> R o1 ->
            OrchestrationJob.awx_jobs o1 = (jobs0 ++ added)%list ->
            Forall tracking_job added ->
            map AWXJob.awx_job_id added = map Some (awx_jobs result) ->
            concluded o0 o1).
  { intros o1 added H1 H2 [H3 H4] H5 H6 H7. unfold concluded. rewrite H4.
    split; [done|]. split; [done|]. split; [by exists text|].
    split; [done|]. split; [done|]. exists added. by rewrite <- Hj. }
  apply (runs_bind _ _ _
           (fun _ w =>
              flushed l (is_OrchestrationJob (concluded o0)) w \/
              pending_job id l
                (is_OrchestrationJob
                   (fun o => OrchestrationJob.status o = MONITORING /\
                             concluded o0
                               (OrchestrationJob.set_status COMPLETED o))) w)).
  { destruct (awx_jobs result) as [|i ids] eqn:Eids.
    - apply (runs_bind _ _ _
               (fun _ => flushed l (is_OrchestrationJob (concluded o0))));
        [|intros _; apply runs_ret; intros w Hw; left; exact Hw].
      apply orch_update_flushed. intros o1 t [[HB Hn0] HR].
      cbn [truthy_str]. apply (Hend _ []); try done.
      simpl. by rewrite app_nil_r.
    - eapply runs_weaken; [|done|intros a w Hw; right; exact Hw].
      apply (runs_bind _ _ _
               (fun _ => pending_job id l
                  (is_OrchestrationJob
                     (fun o => (B o /\ R o /\
                                OrchestrationJob.status o = MONITORING) /\
                               OrchestrationJob.awx_jobs o
                               = (jobs0 ++ [])%list)))).
      { apply orch_update_runs; [done|]. intros o1 [[HB Hn0] HR].
        rewrite app_nil_r. by destruct (truthy_str _). }
      intros _.
      eapply runs_weaken;
        [apply (orch_tracking_loop id l
                  (fun o => B o /\ R o /\
                            OrchestrationJob.status o = MONITORING)
                  jobs0 (i :: ids) ltac:(by intros o1 v (HB & HR & Hst))
                  [] [] ltac:(constructor) eq_refl)| done |].
      intros a w. apply pending_weaken.
      intros j (o1 & -> & (HB & HR & Hst) & added & Hj1 & Hta & Hids).
      exists o1. split; [done|]. split; [done|].
      apply (Hend _ added); try done. }
  intros _. apply runs_or.
  - intros w Hf.
    destruct Hf as (j & t & Hl & Hc & Hlast & o1 & -> & Hconc).
    unfold read_OrchestrationJob, bind, get. rewrite Hl. cbn [ret fst snd].
    destruct Hconc as (Hst & Hrest). rewrite Hst. cbn [ret fst snd].
    exists (IsOrchestrationJob o1), t. repeat split; try done.
    exists o1. split; [done|]. by split.
  - eapply runs_bind; [apply orch_read_runs|]. intros o1. cbn beta.
    apply runs_assume. intros [Hst _]. rewrite Hst.
    apply (runs_bind _ _ _
             (fun _ => flushed l (is_OrchestrationJob (concluded o0))));
      [|intros _; apply runs_ret; intros w Hw; exact Hw].
    apply orch_update_flushed. intros o2 t [_ Hc2]. cbn [truthy_str].
    revert Hc2. unfold concluded. by destruct o2.
Qed.

(** What the [except] branch of the worker does from a pending job. *)
Lemma process_orchestration_job_handler_ends id l o0 e :
  hoare (pending_job id l
           (is_OrchestrationJob
              (fun o =>
                 OrchestrationJob.llm_response o
                 = OrchestrationJob.llm_response o0 /\
                 OrchestrationJob.decomposed_tasks o
                 = OrchestrationJob.decomposed_tasks o0 /\
                 OrchestrationJob.awx_jobs o
                 = OrchestrationJob.awx_jobs o0)))
    (setattr_at l (kw_llm_error (Some (str_exn e))) >>
     update_status id FAILED
       (Some ("Orchestration failed: " ++ str_exn e)) [] >>
     ret tt)
    (fun r w => r = Return tt /\
                flushed l (is_OrchestrationJob (abandoned e o0)) w).
Proof.
  set (U := fun o =>
              OrchestrationJob.llm_response o
              = OrchestrationJob.llm_response o0 /\
              OrchestrationJob.decomposed_tasks o
              = OrchestrationJob.decomposed_tasks o0 /\
              OrchestrationJob.awx_jobs o = OrchestrationJob.awx_jobs o0).
  set (Q := fun o => U o /\ OrchestrationJob.llm_error o = Some (str_exn e)).
  apply (hoare_weaken (pending_job id l (is_OrchestrationJob U)) _ _
           (fun r w => match r with
                       | Return _ =>
                           flushed l (is_OrchestrationJob (abandoned e o0)) w
                       | Raise _ => False
                       end)); [|done|by intros [[]|] w H].
  lazymatch goal with
  | |- hoare ?P0 ?c _ =>
      change (runs P0 c
                (fun _ => flushed l (is_OrchestrationJob (abandoned e o0))))
  end.
  apply (runs_bind _ _ _
           (fun _ => pending_job id l (is_OrchestrationJob Q))).
  { apply orch_setattr_runs; [done|]. intros o HU. eexists.
    split; [reflexivity|]. split; [|done]. by destruct o. }
  intros _.
  apply (runs_bind _ _ _
           (fun _ => flushed l (is_OrchestrationJob (abandoned e o0))));
    [|intros _; apply runs_ret; intros w Hw; exact Hw].
  intros w Hw.
  pose proof (update_status_flushed (Env := AWXEnv) id l
                (is_OrchestrationJob Q)
                (is_OrchestrationJob (abandoned e o0)) FAILED
                (Some ("Orchestration failed: " ++ str_exn e)) eq_refl) as H.
  assert (Hside : forall j t, is_OrchestrationJob Q j ->
            is_OrchestrationJob (abandoned e o0)
              (set_completed_at (Some t)
                 (if truthy_str (Some ("Orchestration failed: " ++ str_exn e))
                  then set_message
                         (Some ("Orchestration failed: " ++ str_exn e))
                         (set_status FAILED j)
                  else set_status FAILED j))).
  { intros j t (o & -> & (H1 & H2 & H3) & H4). cbn [truthy_str append].
    eexists. split; [reflexivity|]. destruct o. simpl in *. by repeat split. }
  destruct (H Hside w Hw) as [-> Hf]. exact Hf.
Qed.

(** X11: A job that was submitted and has not completed is ended by
    [process_orchestration_job], whatever the AWX server answers, as long
    as the cache directory takes the write.  With an orchestrator, the one
    that exists or the one that [get_orchestrator] makes, the job ends
    COMPLETED, whether or not the workflow has recorded an error, with one
    tracking job appended for each AWX job that a step has recorded, in the
    order of the steps and with its id; when [LLMOrchestrator()] raises,
    the job ends FAILED with that error and with the answer, the steps and
    the AWX jobs that it had. *)
Theorem process_orchestration_job_ends w id l o :
  _jobs w !! id = Some l ->
  heap w !! l = Some (IsOrchestrationJob o) ->
  OrchestrationJob.completed_at o = None ->
  disk_writable w = true ->
  fst (process_orchestration_job id w) = Return tt /\
  flushed l (is_OrchestrationJob (orchestration_ended (env w) o))
    (snd (process_orchestration_job id w)).
Proof.
  intros Hid Hl Hc Hd.
  assert (Hw : pending_job id l (is_OrchestrationJob (fun o' => o' = o)) w).
  { split; [done|]. split; [done|]. exists (IsOrchestrationJob o).
    split; [done|]. split; [done|]. by exists o. }
  assert (Hrun : process_orchestration_job id w =
    try_except (process_orchestration_job_body id l)
      (fun e =>
         setattr_at l (kw_llm_error (Some (str_exn e))) >>
         update_status id FAILED
           (Some ("Orchestration failed: " ++ str_exn e)) [] >>
         ret tt) w).
  { unfold process_orchestration_job.
    rewrite (bind_Return _ _ _ _ _ (get_job_hit w id l Hid)).
    unfold bind at 1. unfold get at 1. by rewrite Hl. }
  rewrite Hrun.
  pose proof (process_orchestration_job_body_ends id l o (env w) w
                (conj Hw eq_refl)) as Hb.
  unfold try_except, orchestration_ended.
  destruct (process_orchestration_job_body id l w) as [[[]|e] w1];
    cbn [fst snd] in Hb.
  - destruct Hb as [[u ->] Hf]. split; [reflexivity | exact Hf].
  - destruct Hb as [-> Hp].
    apply (process_orchestration_job_handler_ends id l o e w1 Hp).
Qed.

End OrchestrationWorkerEnds.

(** ** The inventory file *)

Lemma prefix_app (a b : string) : String.prefix a (a ++ b) = true.
Proof.
  induction a as [|c a IH]; simpl; [by destruct b|].
  by destruct (ascii_dec c c).
Qed.

Lemma contains_prefix (needle text : string) :
  String.prefix needle text = true -> contains needle text = true.
Proof. intros H. destruct text; cbn [contains]; by rewrite H. Qed.

Lemma contains_app (needle a b : string) :
  contains needle (a ++ needle ++ b) = true.
Proof.
  induction a as [|c a IH].
  - apply contains_prefix. exact (prefix_app needle b).
  - change (String.prefix needle (String c (a ++ needle ++ b))
            || contains needle (a ++ needle ++ b) = true).
    by rewrite IH, orb_true_r.
Qed.

Lemma prefix_app_r (needle a b : string) :
  String.prefix needle a = true -> String.prefix needle (a ++ b) = true.
Proof.
  revert a. induction needle as [|c n IH]; intros a H;
    [by destruct (a ++ b)|].
  destruct a as [|c' a]; [discriminate H|]. simpl in *.
  destruct (ascii_dec c c'); [by apply IH | done].
Qed.

Lemma contains_app_r (needle a b : string) :
  contains needle a = true -> contains needle (a ++ b) = true.
Proof.
  induction a as [|c a IH]; cbn [contains]; intros H.
  - rewrite orb_false_r in H. apply contains_prefix.
    exact (prefix_app_r needle "" b H).
  - apply orb_true_iff in H as [H|H].
    + apply contains_prefix. exact (prefix_app_r needle (String c a) b H).
    + change (String.prefix needle (String c (a ++ b))
              || contains needle (a ++ b) = true).
      by rewrite (IH H), orb_true_r.
Qed.

(** X12: [append_ipam_notes] never raises.  A missing file, a file that cannot
    be read and a file that does not take the write are left as they are,
    with the rest of the world; otherwise the file is what it was, with the
    heading of the notes added after its last line when it had none,
    followed by the notes, one per line; it holds the heading, so that the
    next call adds none. *)
Theorem append_ipam_notes_appends notes w :
  let w' := snd (append_ipam_notes notes w) in
  fst (append_ipam_notes notes w) = Return tt /\
  match IPAM_FILE (env w) with
  | Some (Return content) =>
      if ipam_writable (env w)
      then exists kept,
             kept = (if contains sentinel content then content
                     else rstrip content ++ sentinel ++ newline) /\
             contains sentinel
               (kept ++ String.concat newline notes ++ newline) = true /\
             w' = with_env (fun e =>
                    mkDNSEnv (dns_backend e) (technitium_adapter e)
                      (pdns_adapter e) (dns_calls e) (isoformat e)
                      (Some (Return (kept ++ String.concat newline notes
                                     ++ newline)))
                      (ipam_writable e)) w
      else w' = w
  | _ => w' = w
  end.
Proof.
  cbn zeta. unfold append_ipam_notes, bind, get. cbn [fst snd].
  destruct (IPAM_FILE (env w)) as [[content|e]|] eqn:Ef; cycle 1.
  { by unfold try_except. }
  { done. }
  unfold try_except, write_ipam, bind, get. cbn [fst snd].
  destruct (ipam_writable (env w)) eqn:Ew; cbn [fst snd modify raise ret];
    [|done].
  split; [done|]. eexists. split; [reflexivity|].
  destruct (contains sentinel content) eqn:Ec; cbn [negb].
  - split; [by apply contains_app_r|]. reflexivity.
  - split; [|reflexivity]. apply contains_app_r.
    exact (contains_app sentinel (rstrip content) newline).
Qed.

(** ** The worker of the DNS agent *)

Section StoreFlush.
Context {J St Kw Env : Type} {job_class : JobClass J St Kw}.
Context {laws : JobLaws J St Kw}.
Implicit Types (w : World J Env) (j : J) (l : loc) (id : UUID).

(** A transition to a terminal status, with keywords. *)
Lemma update_status_flushed_with id l (P Q : J -> Prop) status' message' kwargs :
  terminal status' = true ->
  (forall j t, P j ->
     let j1 := if truthy_str message'
               then set_message message' (set_status status' j)
               else set_status status' j in
     fst (setattrs kwargs j1) = Return tt /\
     Q (set_completed_at (Some t) (snd (setattrs kwargs j1)))) ->
  hoare (pending (Env := Env) id l P) (update_status id status' message' kwargs)
        (fun r w => r = Return (Some l) /\ flushed l Q w).
Proof.
  intros Hterm HPQ w (Hm & Hd & j & Hl & Hc & HP).
  rewrite (update_status_run w id l j) by done. cbn zeta. rewrite Hterm, Hd.
  destruct (HPQ j (clock w (ticks w)) HP) as [Hret HQ]. cbn zeta in *.
  rewrite Hret. split; [done|]. world_simpl.
  eexists. exists (clock w (ticks w)).
  rewrite _maybe_purge_heap, _maybe_purge_write_calls. world_simpl.
  split; [apply lookup_insert_eq|].
  split; [apply completed_at_set_completed_at|].
  split; [by rewrite last_snoc|]. done.
Qed.

End StoreFlush.

Section RecordWorkerEnds.
Implicit Types (w : DNSWorld) (l : loc) (id : UUID).

Lemma adapter_view_adapter (e e' : DNSEnv) extra :
  adapter_view e = view_after e' extra ->
  adapter e = adapter e' /\ backend_name e = backend_name e' /\
  dns_calls e = (dns_calls e' ++ extra)%list.
Proof.
  unfold adapter_view, view_after, adapter, backend_name. intros H.
  inversion H as [[H1 H2 H3 H4]]. by rewrite H1, H2, H3.
Qed.

Lemma dns_update_runs id l (P Q : RecordJob.t -> Prop) e extra
  status' message' :
  terminal status' = false ->
  (forall j, P j ->
     Q (if truthy_str message'
        then RecordJob.set_message message' (RecordJob.set_status status' j)
        else RecordJob.set_status status' j)) ->
  runs (working id l P e extra) (update_status id status' message' [])
       (fun _ => working id l Q e extra).
Proof.
  intros Ht HPQ w [Hw Hv].
  pose proof (update_status_pending (Env := DNSEnv) id l P Q status' message'
                [] Ht ltac:(constructor)) as H.
  specialize (H HPQ w Hw).
  pose proof Hw as (Hm & _ & j & Hl & _).
  pose proof (update_status_env w id l j status' message' [] Hm Hl) as He.
  revert H He. rewrite (update_status_run w id l j) by done. cbn zeta.
  cbn [setattrs fst snd]. rewrite Ht. cbn [fst snd]. intros H He.
  split; [exact H|]. by rewrite He.
Qed.

Lemma dns_update_flushed id l (P Q : RecordJob.t -> Prop) e extra
  status' message' kwargs :
  terminal status' = true ->
  (forall j t, P j ->
     let j1 := if truthy_str message'
               then RecordJob.set_message message'
                      (RecordJob.set_status status' j)
               else RecordJob.set_status status' j in
     fst (setattrs kwargs j1) = Return tt /\
     Q (RecordJob.set_completed_at (Some t) (snd (setattrs kwargs j1)))) ->
  runs (working id l P e extra) (update_status id status' message' kwargs)
       (fun _ w => flushed l Q w /\ adapter_view (env w) = view_after e extra).
Proof.
  intros Ht HPQ w [Hw Hv].
  pose proof (update_status_flushed_with (Env := DNSEnv) id l P Q status'
                message' kwargs Ht HPQ w Hw) as [Hr Hf].
  pose proof Hw as (Hm & _ & j & Hl & _).
  pose proof (update_status_env w id l j status' message' kwargs Hm Hl) as He.
  rewrite Hr. split; [exact Hf|]. by rewrite He.
Qed.

Lemma dns_read_runs id l (P : RecordJob.t -> Prop) e extra :
  runs (working id l P e extra) (read_RecordJob l)
       (fun j w => P j /\ working id l P e extra w).
Proof.
  intros w [Hw Hv]. pose proof Hw as (_ & _ & j & Hl & _ & HP).
  unfold read_RecordJob, bind, get. rewrite Hl. by split.
Qed.

Lemma dns_call_adapter {A} id l (P : RecordJob.t -> Prop) e extra call
  (answer : nat -> outcome A) :
  hoare (working id l P e extra) (call_adapter call answer)
        (fun r w =>
           r = answer (length (dns_calls e ++ extra)) /\
           working id l P e (extra ++ [call]) w).
Proof.
  intros w [Hw Hv].
  destruct (adapter_view_adapter _ _ _ Hv) as (_ & _ & Hc).
  unfold call_adapter. cbn [fst snd]. rewrite Hc. split; [done|].
  split; [exact Hw|]. revert Hv. unfold adapter_view, view_after. world_simpl.
  intros Hv. inversion Hv as [[H1 H2 H3 H4]]. simpl.
  by rewrite H4, app_assoc.
Qed.

Lemma dns_note_runs id l (P : RecordJob.t -> Prop) e extra fqdn content :
  runs (working id l P e extra) (build_ipam_note fqdn content)
       (fun _ => working id l P e extra).
Proof. by intros w [Hw Hv]. Qed.

Lemma dns_ipam_runs id l (P : RecordJob.t -> Prop) e extra notes :
  runs (working id l P e extra) (append_ipam_notes notes)
       (fun _ => working id l P e extra).
Proof.
  intros w [Hw Hv]. unfold append_ipam_notes, bind, get. cbn [fst snd].
  destruct (IPAM_FILE (env w)) as [[content|e']|]; [| by split | by split].
  unfold try_except, write_ipam, bind, get. cbn [fst snd].
  destruct (ipam_writable (env w)); by split.
Qed.

Lemma zone_ensured_answer e r :
  zone_ensured e r =
    match ensure_zone (adapter e) (length (dns_calls e)) (RecordRequest.zone r)
    with
    | Return answer => fst answer
    | Raise _ => false
    end.
Proof.
  unfold zone_ensured. by destruct (ensure_zone _ _ _) as [[[] ?]|].
Qed.

Lemma record_applied_answer e r :
  zone_ensured e r = true ->
  record_applied e r =
    match upsert_record (adapter e) (S (length (dns_calls e)))
            (RecordRequest.zone r) (RecordRequest.name r)
            (RecordType.value (RecordRequest.record_type r))
            (RecordRequest.content r) (RecordRequest.ttl r)
    with
    | Return answer => fst answer
    | Raise _ => false
    end.
Proof.
  unfold record_applied. intros ->. cbn [andb].
  by destruct (upsert_record _ _ _ _ _ _ _) as [[[] ?]|].
Qed.

(** The body of the worker: it returns with the job COMPLETED and written,
    or raises with the job pending, in both cases after the adapter calls
    of [calls_for]. *)
Lemma process_record_job_body_ends id l e r :
  hoare (working id l (fun j => RecordJob.request j = r) e [])
        (process_record_job_body id l)
        (fun res w =>
           match res with
           | Return _ =>
               record_applied e r = true /\
               flushed l (record_processed e r) w /\
               adapter_view (env w) = view_after e (calls_for e r)
           | Raise _ =>
               record_applied e r = false /\
               working id l (fun j => RecordJob.request j = r) e
                 (calls_for e r) w
           end).
Proof.
  set (R := fun j : RecordJob.t => RecordJob.request j = r).
  unfold process_record_job_body.
  apply (runs_then _ _ _
           (fun w0 w => adapter (env w0) = adapter e /\
                        working id l R e [] w)).
  { intros w Hw. split; [|exact Hw]. destruct Hw as [_ Hv].
    by destruct (adapter_view_adapter _ _ _ Hv) as (Ha & _). }
  intros w0. apply hoare_assume. intros Hw0. cbn zeta. rewrite Hw0.
  apply (runs_then _ _ _ (fun _ => working id l R e [])).
  { apply dns_update_runs; [done|]. intros j Hj. cbn [truthy_str].
    revert Hj. unfold R. by destruct j. }
  intros _.
  apply (runs_then _ _ _ (fun j w => R j /\ working id l R e [] w));
    [apply dns_read_runs|]. intros j.
  apply hoare_assume. intros Hj. unfold R in Hj. rewrite Hj. clear j Hj.
  eapply hoare_bind; [apply dns_call_adapter| |]; cbn beta;
    rewrite app_nil_r; cbn [app]; cycle 1.
  { intros exc w [He Hw].
    assert (Hz : zone_ensured e r = false)
      by (by rewrite zone_ensured_answer, <- He).
    unfold record_applied, calls_for. by rewrite Hz. }
  intros [ok err]. apply hoare_assume. intros He. cbn [fst snd].
  assert (Hz : zone_ensured e r = ok)
    by (by rewrite zone_ensured_answer, <- He).
  destruct ok; cbn [negb]; cycle 1.
  { intros w Hw. unfold bind, raise. cbn [fst snd].
    unfold record_applied, calls_for. by rewrite Hz. }
  set (upsert := UpsertRecord (RecordRequest.zone r) (RecordRequest.name r)
                   (RecordType.value (RecordRequest.record_type r))
                   (RecordRequest.content r) (RecordRequest.ttl r)).
  assert (Hcalls : calls_for e r = [EnsureZone (RecordRequest.zone r); upsert])
    by (unfold calls_for; by rewrite Hz).
  rewrite Hcalls.
  set (extra := [EnsureZone (RecordRequest.zone r)]).
  apply (runs_then _ _ _ (fun _ => working id l R e extra));
    [by intros w Hw|]. intros _.
  apply (runs_then _ _ _ (fun _ => working id l R e extra)).
  { apply dns_update_runs; [done|]. intros j Hj. cbn [truthy_str].
    revert Hj. unfold R. by destruct j. }
  intros _.
  apply (runs_then _ _ _ (fun j w => R j /\ working id l R e extra w));
    [apply dns_read_runs|]. intros j.
  apply hoare_assume. intros Hj. unfold R in Hj. rewrite Hj. clear j Hj.
  fold upsert.
  eapply hoare_bind; [apply dns_call_adapter| |]; cbn beta;
    unfold extra; cbn [app]; rewrite length_app, Nat.add_1_r; cycle 1.
  { intros exc w [Hu Hw]. split; [|exact Hw].
    by rewrite (record_applied_answer e r Hz), <- Hu. }
  fold extra.
  intros [ok err']. apply hoare_assume. intros Hu. cbn [fst snd].
  assert (Ha : record_applied e r = ok)
    by (by rewrite (record_applied_answer e r Hz), <- Hu).
  destruct ok; cbn [negb]; cycle 1.
  { intros w Hw. unfold bind, raise. cbn [fst snd]. by split. }
  set (made := [EnsureZone (RecordRequest.zone r); upsert]).
  apply (runs_then _ _ _ (fun _ => working id l R e made));
    [by intros w Hw|]. intros _.
  apply (runs_then _ _ _ (fun _ => working id l R e made)).
  { apply dns_update_runs; [done|]. intros j Hj. cbn [truthy_str].
    revert Hj. unfold R. by destruct j. }
  intros _.
  apply (runs_then _ _ _ (fun j w => R j /\ working id l R e made w));
    [apply dns_read_runs|]. intros j.
  apply hoare_assume. intros _.
  apply (runs_then _ _ _ (fun _ => working id l R e made));
    [apply dns_note_runs|]. intros note.
  apply (runs_then _ _ _ (fun _ => working id l R e made));
    [apply dns_ipam_runs|]. intros _.
  apply (runs_then _ _ _
           (fun _ w => flushed l (record_processed e r) w /\
                       adapter_view (env w) = view_after e made));
    [|by intros _ w [Hf Hv]].
  apply dns_update_flushed; [done|]. intros j' t Hj'. cbn [truthy_str].
  unfold record_processed. rewrite Ha. revert Hj'. unfold R.
  destruct j'. simpl. intros ->. eauto 6.
Qed.

(** X13: A job that was submitted and has not completed is ended by
    [process_record_job], which returns, as long as the cache directory
    takes the write: COMPLETED, with its message and one line of
    documentation, when the adapter reports the zone as present and then
    takes the record, and FAILED otherwise, also when the adapter raises.
    The worker asks for the zone once and, only when the zone is there, for
    the record once, and makes no other adapter call; the request of the job
    is what it was. *)
Theorem process_record_job_ends w id l j :
  _jobs w !! id = Some l ->
  heap w !! l = Some j ->
  RecordJob.completed_at j = None ->
  disk_writable w = true ->
  let w' := snd (process_record_job id w) in
  fst (process_record_job id w) = Return tt /\
  flushed l (record_processed (env w) (RecordJob.request j)) w' /\
  dns_calls (env w') =
    (dns_calls (env w) ++ calls_for (env w) (RecordJob.request j))%list.
Proof.
  intros Hid Hl Hc Hd. cbn zeta.
  set (e := env w). set (r := RecordJob.request j).
  set (R := fun j' : RecordJob.t => RecordJob.request j' = r).
  assert (Hw : working id l R e [] w).
  { split.
    - split; [done|]. split; [done|]. exists j. by repeat split.
    - unfold adapter_view, view_after. by rewrite app_nil_r. }
  assert (Hrun : process_record_job id w =
    try_except (process_record_job_body id l)
      (fun exc =>
         update_status id RecordJobStatus.FAILED (Some (str_exn exc)) []
         >> ret tt) w).
  { unfold process_record_job.
    by rewrite (bind_Return _ _ _ _ _ (get_job_hit w id l Hid)). }
  rewrite Hrun.
  pose proof (process_record_job_body_ends id l e r w Hw) as Hb.
  unfold try_except.
  destruct (process_record_job_body id l w) as [[[]|exc] w1];
    cbn [fst snd] in Hb.
  - destruct Hb as (_ & Hf & Hv). cbn [fst snd]. split; [done|].
    split; [exact Hf|]. by inversion Hv.
  - destruct Hb as [Ha Hw1].
    assert (Hh : runs (working id l R e (calls_for e r))
                   (update_status id RecordJobStatus.FAILED
                      (Some (str_exn exc)) [] >> ret tt)
                   (fun _ w' =>
                      flushed l (record_processed e r) w' /\
                      adapter_view (env w') =
                        view_after e (calls_for e r))).
    { apply (runs_bind _ _ _
               (fun _ w' =>
                  flushed l (record_processed e r) w' /\
                  adapter_view (env w') = view_after e (calls_for e r)));
        [|by intros _ w' Hw'].
      apply dns_update_flushed; [done|]. intros j' t Hj'. split; [done|].
      unfold record_processed. rewrite Ha. revert Hj'. unfold R.
      destruct (truthy_str (Some (str_exn exc))); by destruct j'. }
    specialize (Hh w1 Hw1).
    destruct ((update_status id RecordJobStatus.FAILED (Some (str_exn exc)) []
               >> ret tt) w1) as [[[]|exc'] w2]; cbn [fst snd] in *;
      [|done].
    destruct Hh as [Hf Hv]. split; [done|]. split; [exact Hf|].
    by inversion Hv.
Qed.

(** A job that is neither in memory nor in the cache directory is left
    alone: the worker returns, and makes no adapter call and no write. *)
Lemma process_record_job_vanished w id :
  _jobs w !! id = None ->
  cache_dir w !! id = None ->
  process_record_job id w = (Return tt, w).
Proof.
  intros Hm Hc. unfold process_record_job, get_job, bind, get.
  by rewrite Hm, Hc.
Qed.

End RecordWorkerEnds.

(** ** Runs of the DNS agent *)
Module RecordWorkerRuns.
Import Examples DNSExamples.

(** The submitted record, with a Technitium server that has its zone. *)
Lemma process_record_job_ends_witness :
  let w := w_record has_one_zone in
  let w' := snd (process_record_job 7%N w) in
  fst (process_record_job 7%N w) = Return tt /\
  flushed 1%positive (record_processed (env w) border) w' /\
  dns_calls (env w') = (dns_calls (env w) ++ calls_for (env w) border)%list.
Proof.
  exact (process_record_job_ends (w_record has_one_zone) 7%N 1%positive
           submitted eq_refl eq_refl eq_refl eq_refl).
Defined.

End RecordWorkerRuns.

(** ** The Technitium client *)
Module TechnitiumFacts.
Import Technitium.

Lemma request_post c endpoint payload :
  _request "POST" endpoint None None (Some payload) c =
    send (Request "POST" (urljoin c (api_url c) endpoint)
            [("token", api_token c)]
            (Some [("Content-Type", "application/json")]) (Some payload)) c.
Proof. reflexivity. Qed.

Lemma request_get c endpoint :
  _request "GET" endpoint None None None c =
    send (Request "GET" (urljoin c (api_url c) endpoint)
            [("token", api_token c)] None None) c.
Proof. reflexivity. Qed.

Lemma create_zone_run c zone_name zone_type :
  exists ans,
    create_zone zone_name zone_type c =
      (Return ans,
       with_requests (requests c ++ [create_request c zone_name zone_type]) c)
    /\ fst ans = accepted (server c (length (requests c))
                             (create_request c zone_name zone_type))
    /\ (fst ans = true -> snd ans = VNone).
Proof.
  unfold create_zone, try_except, bind. rewrite request_post.
  unfold send, create_request, accepted. cbn [fst snd].
  destruct (server c _ _) as [r|e]; [|by eexists].
  destruct (status_code r =? 200) eqn:E200; [by eexists|].
  destruct (status_code r =? 409) eqn:E409; [by eexists|].
  cbn [orb].
  destruct (content r) as [|ch rest].
  - unfold ret, value_get. cbn [fst snd member default]. by eexists.
  - cbn [fst snd]. destruct (to_json r) as [v|e]; [|by eexists].
    destruct v; unfold value_get, raise, ret; cbn [fst snd]; by eexists.
Qed.

(** X14: [create_zone] never raises and sends one request, the POST of the zone
    without its trailing dots, carrying the token; it reports success, with
    no error, exactly when the server answers 200 or 409. *)
Theorem create_zone_answers c zone_name zone_type :
  exists ans,
    create_zone zone_name zone_type c =
      (Return ans,
       with_requests (requests c ++ [create_request c zone_name zone_type]) c)
    /\ fst ans = accepted (server c (length (requests c))
                             (create_request c zone_name zone_type))
    /\ (fst ans = true -> snd ans = VNone).
Proof. apply create_zone_run. Qed.

(** [list_zones] never raises and sends one request. *)
Lemma list_zones_run c :
  exists zones,
    list_zones c =
      (Return zones, with_requests (requests c ++ [list_request c]) c).
Proof.
  unfold list_zones, try_except, bind. rewrite request_get.
  unfold send, list_request. cbn [fst snd].
  destruct (server c _ _) as [r|e]; [|by eexists].
  destruct (status_code r =? 200); [|by eexists].
  cbn [fst snd]. destruct (to_json r) as [v|e]; [|by eexists].
  destruct v; unfold value_get, raise, ret; cbn [fst snd sized_of];
    try by eexists.
  destruct (sized_of _); by eexists.
Qed.

(** A failed listing is an empty listing. *)
Lemma list_zones_fails c :
  match server c (length (requests c)) (list_request c) with
  | Return r => status_code r <> 200
  | Raise _ => True
  end ->
  list_zones c =
    (Return (SList []), with_requests (requests c ++ [list_request c]) c).
Proof.
  unfold list_zones, try_except, bind. rewrite request_get.
  unfold send, list_request. cbn [fst snd].
  destruct (server c _ _) as [r|e]; [|done].
  intros H. apply Z.eqb_neq in H. by rewrite H.
Qed.

Lemma rstrip_dots_dot s : rstrip_dots (s ++ ".") = rstrip_dots s.
Proof.
  induction s as [|c s IH]; [done|].
  change (rstrip_dots (String c s ++ ".")) with
    (match rstrip_dots (s ++ ".") with
     | EmptyString => if Ascii.eqb c "." then EmptyString
                      else String c EmptyString
     | rest => String c rest
     end).
  by rewrite IH.
Qed.

Lemma is_in_zone_names zone zones names :
  zone_names zones = Return names ->
  is_in (rstrip_dots zone) names = existsb (names_zone zone) zones.
Proof.
  revert names. induction zones as [|z zones IH]; intros names.
  { intros [= <-]. done. }
  cbn [zone_names]. destruct z as [| | | | |xs|kvs]; try done.
  cbn [existsb names_zone].
  destruct (default (VStr "") (member "name" kvs)) as [| | | |name| |];
    try done.
  destruct (zone_names zones) as [names'|e]; [|done].
  intros [= <-]. cbn [is_in existsb]. f_equal. by apply IH.
Qed.

(** The trailing dots of the zone asked for do not count. *)
Theorem ensure_zone_trailing_dots zone c :
  ensure_zone (zone ++ ".") c = ensure_zone zone c.
Proof. unfold ensure_zone. by rewrite rstrip_dots_dot. Qed.

(** X15: When [ensure_zone] reports success, it reports no error, and either
    the listing has an item that names the zone, up to trailing dots, and
    the listing was the only request, or the listing was followed by the
    one request to create the zone, which the server answered with 200 or
    409. *)
Theorem ensure_zone_success zone c err :
  fst (ensure_zone zone c) = Return (true, err) ->
  let c' := snd (ensure_zone zone c) in
  err = VNone /\
  ((exists zones z,
      fst (list_zones c) = Return zones /\ In z (iter zones) /\
      names_zone zone z = true /\
      requests c' = (requests c ++ [list_request c])%list) \/
   (accepted (server c (S (length (requests c)))
                (create_request c zone "Primary")) = true /\
    requests c' = (requests c ++ [list_request c;
                                  create_request c zone "Primary"])%list)).
Proof.
  cbn zeta. unfold ensure_zone, bind.
  destruct (list_zones_run c) as [zones Hl]. rewrite Hl. cbn [fst snd].
  destruct (zone_names (iter zones)) as [names|e] eqn:En; [|done].
  rewrite (is_in_zone_names zone _ _ En).
  destruct (existsb (names_zone zone) (iter zones)) eqn:Ex.
  - cbn [fst snd ret]. intros [= <-]. split; [done|]. left.
    apply existsb_exists in Ex as (z & Hz & Hn). by exists zones, z.
  - destruct (create_zone_run (with_requests (requests c ++ [list_request c]) c)
                (rstrip_dots zone) "Primary") as ([ok err'] & Hc & Ha & He).
    rewrite Hc. cbn [fst snd] in *. intros [= -> ->].
    split; [by apply He|]. right.
    revert Ha. unfold create_request. rewrite rstrip_dots_idem.
    cbn [requests with_requests api_url api_token urljoin server].
    rewrite length_app, Nat.add_1_r. intros <-. split; [done|].
    by rewrite <- app_assoc.
Qed.

(** X16: A listing that fails, the transport raising or the server answering
    with another status than 200, counts as an empty one: [ensure_zone]
    goes on to create the zone, and does not raise. *)
Theorem ensure_zone_listing_fails zone c :
  match server c (length (requests c)) (list_request c) with
  | Return r => status_code r <> 200
  | Raise _ => True
  end ->
  exists ans,
    ensure_zone zone c =
      (Return ans,
       with_requests (requests c ++ [list_request c;
                                     create_request c zone "Primary"]) c) /\
    fst ans = accepted (server c (S (length (requests c)))
                          (create_request c zone "Primary")).
Proof.
  intros H. unfold ensure_zone, bind. rewrite (list_zones_fails c H).
  cbn [fst snd iter zone_names is_in existsb].
  destruct (create_zone_run (with_requests (requests c ++ [list_request c]) c)
              (rstrip_dots zone) "Primary") as (ans & Hc & Ha & _).
  exists ans. rewrite Hc. revert Ha. unfold create_request.
  rewrite rstrip_dots_idem.
  cbn [requests with_requests api_url api_token urljoin server].
  rewrite length_app, Nat.add_1_r. intros ->. split; [|done].
  unfold with_requests. cbn. by rewrite <- app_assoc.
Qed.

(** The zone that the server lists with a dot at its end. *)
Lemma ensure_zone_success_witness :
  let c := lists_one_zone in
  let c' := snd (ensure_zone "bakerstreetlabs.io" c) in
  VNone = VNone /\
  ((exists zones z,
      fst (list_zones c) = Return zones /\ In z (iter zones) /\
      names_zone "bakerstreetlabs.io" z = true /\
      requests c' = (requests c ++ [list_request c])%list) \/
   (accepted (server c (S (length (requests c)))
                (create_request c "bakerstreetlabs.io" "Primary")) = true /\
    requests c' = (requests c ++ [list_request c;
                                  create_request c "bakerstreetlabs.io"
                                    "Primary"])%list)).
Proof.
  exact (ensure_zone_success "bakerstreetlabs.io" lists_one_zone VNone
           eq_refl).
Defined.

(** The server that answers the listing with 500 and the creation with
    200. *)
Lemma ensure_zone_listing_fails_witness :
  let c := listing_out_of_order in
  exists ans,
    ensure_zone "bakerstreetlabs.io" c =
      (Return ans,
       with_requests
         (requests c ++ [list_request c;
                         create_request c "bakerstreetlabs.io" "Primary"]) c)
    /\ fst ans = accepted (server c (S (length (requests c)))
                             (create_request c "bakerstreetlabs.io"
                                "Primary")).
Proof.
  apply (ensure_zone_listing_fails "bakerstreetlabs.io" listing_out_of_order).
  simpl. lia.
Defined.

End TechnitiumFacts.

(** ** Waiting for an AWX job *)
Module AWXPollingFacts.
Import AWXPolling.

Lemma poll_loop_ends fuel : forall k job_id timeout start_time p,
  (k < fuel)%nat ->
  time_time p (time_reads p + k) - start_time > timeout * 1000000 ->
  let r := poll_loop fuel job_id timeout start_time p in
  exists m,
    (1 <= m <= k + 1)%nat /\
    polls (snd r) = (polls p ++ repeat job_id m)%list /\
    (forall i, (i < m - 1)%nat ->
       still_running (get_job_status p (length (polls p) + i) job_id)) /\
    wait_ended (get_job_status p (length (polls p) + (m - 1)) job_id)
      (time_time p (time_reads p + (m - 1)) - start_time > timeout * 1000000)
      (fst r).
Proof.
  induction fuel as [|fuel IH]; intros k job_id timeout start_time p Hk Ht;
    [lia|].
  cbn zeta. cbn [poll_loop]. unfold bind, poll_status, now, sleep.
  cbn [fst snd].
  assert (Hone : forall (p' : Poller) (r : outcome (option decoded)),
            polls p' = (polls p ++ [job_id])%list ->
            wait_ended (get_job_status p (length (polls p)) job_id)
              (time_time p (time_reads p) - start_time > timeout * 1000000)
              r ->
            exists m,
              (1 <= m <= k + 1)%nat /\
              polls p' = (polls p ++ repeat job_id m)%list /\
              (forall i, (i < m - 1)%nat ->
                 still_running
                   (get_job_status p (length (polls p) + i) job_id)) /\
              wait_ended
                (get_job_status p (length (polls p) + (m - 1)) job_id)
                (time_time p (time_reads p + (m - 1)) - start_time
                 > timeout * 1000000) r).
  { intros p' r Hp Hr. exists 1%nat. split; [lia|]. split; [done|].
    split; [intros i Hi; simpl in Hi; lia|].
    cbn [Nat.sub]. by rewrite !Nat.add_0_r. }
  destruct (get_job_status p (length (polls p)) job_id) as [job_data|e] eqn:Ea.
  2:{ apply Hone; [done|]. by left. }
  destruct job_data as [| | | | | |kvs];
    try (apply Hone; [done|]; right; left; split; [done|];
         eexists; split; [reflexivity|]; by intros kvs).
  cbn [value_get ret fst snd].
  destruct (is_final (default VNone (member "status" kvs))) eqn:Ef.
  { apply Hone; [done|]. split; [done|].
    destruct (member "status" kvs) as [[| | | |s| |]|] eqn:Em; try done.
    exists kvs, s. split; [done|]. split; [done|].
    cbn [default is_final] in Ef.
    apply existsb_exists in Ef as (s' & Hin & Heq).
    apply String.eqb_eq in Heq. subst s'. exact Hin. }
  cbn [fst snd time_time time_reads].
  destruct (time_time p (time_reads p) - start_time >? timeout * 1000000)
    eqn:El.
  { apply Hone; [done|]. right. right. split; [done|].
    split; [by exists kvs|]. rewrite Z.gtb_ltb in El.
    apply Z.ltb_lt in El. lia. }
  cbn [fst snd time_time time_reads polls get_job_status slept poll_interval
       job_timeout].
  destruct k as [|k].
  { rewrite Nat.add_0_r in Ht. rewrite Z.gtb_ltb in El.
    apply Z.ltb_ge in El. lia. }
  set (p' := mkPoller _ _ _ _ _ _ _).
  specialize (IH k job_id timeout start_time p').
  assert (Hk' : (k < fuel)%nat) by lia.
  assert (Ht' : time_time p' (time_reads p' + k) - start_time
                > timeout * 1000000).
  { subst p'. cbn. by replace (S (time_reads p + k)) with
      (time_reads p + S k)%nat by lia. }
  specialize (IH Hk' Ht'). cbn zeta in IH.
  destruct IH as (m & Hm & Hp & Hrun & Hend).
  exists (S m). split; [lia|]. split.
  { rewrite Hp. subst p'. cbn [polls]. by rewrite <- app_assoc. }
  replace (S m - 1)%nat with m by lia.
  assert (Hlen : length (polls p') = S (length (polls p))).
  { subst p'. cbn [polls]. rewrite length_app. simpl. lia. }
  split.
  - intros [|i] Hi.
    + rewrite Nat.add_0_r, Ea. by exists kvs.
    + specialize (Hrun i ltac:(lia)). revert Hrun. rewrite Hlen.
      subst p'. cbn [get_job_status].
      by replace (S (length (polls p)) + i)%nat
        with (length (polls p) + S i)%nat by lia.
  - revert Hend. rewrite Hlen. subst p'.
    cbn [get_job_status time_time time_reads].
    replace (S (length (polls p)) + (m - 1))%nat
      with (length (polls p) + m)%nat by lia.
    by replace (S (time_reads p) + (m - 1))%nat
      with (time_reads p + m)%nat by lia.
Qed.

(** X17: [wait_for_job] polls the server at least once, for the job it was
    given.  With a clock that passes the deadline at its reading [k + 1],
    counted from the call, the loop ends within [k + 1] polls, all but the
    last of which found the job not final.  It returns the answer to its
    last poll, a dict with one of the four final statuses; or it raises:
    what that poll raised, [AttributeError] for an answer that is not a
    dict, or [TimeoutError] for an answer that is not final when the
    reading after it was past the deadline. *)
Theorem wait_for_job_ends fuel k job_id timeout p :
  (k < fuel)%nat ->
  time_time p (time_reads p + 1 + k) - time_time p (time_reads p)
    > timeout_of p timeout * 1000000 ->
  let r := wait_for_job fuel job_id timeout p in
  exists m,
    (1 <= m <= k + 1)%nat /\
    polls (snd r) = (polls p ++ repeat job_id m)%list /\
    (forall i, (i < m - 1)%nat ->
       still_running (get_job_status p (length (polls p) + i) job_id)) /\
    wait_ended (get_job_status p (length (polls p) + (m - 1)) job_id)
      (time_time p (time_reads p + m) - time_time p (time_reads p)
       > timeout_of p timeout * 1000000)
      (fst r).
Proof.
  intros Hk Ht. cbn zeta. unfold wait_for_job, bind, get, now.
  cbn [fst snd].
  set (p' := mkPoller _ _ _ _ _ _ _).
  pose proof (poll_loop_ends fuel k job_id (timeout_of p timeout)
                (time_time p (time_reads p)) p' Hk) as H.
  assert (Ht' : time_time p' (time_reads p' + k) - time_time p (time_reads p)
                > timeout_of p timeout * 1000000).
  { subst p'. cbn. by replace (S (time_reads p + k)) with
      (time_reads p + 1 + k)%nat by lia. }
  specialize (H Ht'). cbn zeta in H. destruct H as (m & Hm & Hp & Hrun & Hend).
  exists m. split; [done|]. split; [exact Hp|]. split; [exact Hrun|].
  revert Hend. subst p'. cbn [get_job_status polls time_time time_reads].
  by replace (S (time_reads p) + (m - 1))%nat with (time_reads p + m)%nat
    by lia.
Qed.

(** Job 31, waited for with a timeout of ten seconds. *)
Lemma wait_for_job_ends_witness :
  let p := running_then_successful in
  let r := wait_for_job 3 31 (Some 10) p in
  exists m,
    (1 <= m <= 2 + 1)%nat /\
    polls (snd r) = (polls p ++ repeat 31 m)%list /\
    (forall i, (i < m - 1)%nat ->
       still_running (get_job_status p (length (polls p) + i) 31)) /\
    wait_ended (get_job_status p (length (polls p) + (m - 1)) 31)
      (time_time p (time_reads p + m) - time_time p (time_reads p)
       > timeout_of p (Some 10) * 1000000)
      (fst r).
Proof.
  exact (wait_for_job_ends 3 2 31 (Some 10) running_then_successful
           (le_n 3) eq_refl).
Defined.

End AWXPollingFacts.

(** ** More runs *)
Module MoreRuns.
Import PydanticModel Examples.

(** A request in capitals with a trailing dot, and no TTL. *)
Lemma RecordRequest_validate_normalizes_witness :
  let r := RecordRequest.mk "bakerstreetlabs.io" "border.bakerstreetlabs.io"
             RecordType.A "192.168.0.7" 60 [] in
  (lower (RecordRequest.zone r) = RecordRequest.zone r /\
   rstrip_dots (RecordRequest.zone r) = RecordRequest.zone r) /\
  (lower (RecordRequest.name r) = RecordRequest.name r /\
   rstrip_dots (RecordRequest.name r) = RecordRequest.name r) /\
  1 <= RecordRequest.ttl r <= 86400 /\
  (has_member "ttl"
     (JObj [("zone", JStr "BakerStreetLabs.IO.");
            ("name", JStr "Border.BakerStreetLabs.io");
            ("content", JStr "192.168.0.7")]) = false ->
   RecordRequest.ttl r = 60).
Proof.
  exact (ModelFacts.RecordRequest_validate_normalizes
           (JObj [("zone", JStr "BakerStreetLabs.IO.");
                  ("name", JStr "Border.BakerStreetLabs.io");
                  ("content", JStr "192.168.0.7")])
           (RecordRequest.mk "bakerstreetlabs.io" "border.bakerstreetlabs.io"
              RecordType.A "192.168.0.7" 60 [])
           eq_refl eq_refl eq_refl eq_refl).
Defined.

(** The record job that is being applied. *)
Lemma RecordJob_roundtrip_iff_witness :
  RecordJob_parse_raw (RecordJob_json applying) = Some applying <->
  (contains "." (RecordRequest.zone (RecordJob.request applying)) = true /\
   lower (rstrip_dots (RecordRequest.zone (RecordJob.request applying))) =
     RecordRequest.zone (RecordJob.request applying)) /\
  (contains "." (RecordRequest.name (RecordJob.request applying)) = true /\
   lower (rstrip_dots (RecordRequest.name (RecordJob.request applying))) =
     RecordRequest.name (RecordJob.request applying)) /\
  1 <= RecordRequest.ttl (RecordJob.request applying) <= 86400.
Proof. exact (ModelFacts.RecordJob_roundtrip_iff applying eq_refl eq_refl). Defined.

(** The finished job, flushed and dropped from memory. *)
Lemma awx_job_hydrates_equal_witness :
  fst (get_job 7%N w_cold) = Return (Some 10%positive) /\
  heap (snd (get_job 7%N w_cold)) !! 10%positive = Some (IsAWXJob finished).
Proof.
  exact (StoreRuns.awx_job_hydrates_equal w_cold 7%N finished eq_refl eq_refl).
Defined.

(** The received job, against a server that would run job 31 to
    success. *)
Lemma process_awx_job_ends_witness :
  let w := w_submitted (awx_with "successful") in
  fst (process_awx_job 7%N w) = Return tt /\
  flushed 1%positive (is_AWXJob (processed received))
    (snd (process_awx_job 7%N w)) /\
  (awx_calls (env (snd (process_awx_job 7%N w))) <= awx_calls (env w) + 3)%nat.
Proof.
  exact (process_awx_job_ends (w_submitted (awx_with "successful")) 7%N
           1%positive received eq_refl eq_refl eq_refl eq_refl).
Defined.

(** The received orchestration request, against a server that refuses
    every launch. *)
Lemma process_orchestration_job_ends_witness :
  let w := w_orchestrating awx_refusing in
  fst (process_orchestration_job 8%N w) = Return tt /\
  flushed 1%positive
    (is_OrchestrationJob (orchestration_ended (env w) orchestration))
    (snd (process_orchestration_job 8%N w)).
Proof.
  exact (process_orchestration_job_ends (w_orchestrating awx_refusing) 8%N
           1%positive orchestration eq_refl eq_refl eq_refl eq_refl).
Defined.

End MoreRuns.
